(** * EchoNext: schema derivation and the request pipeline

    A shallow embedding of [echonext.go]: the reflection-driven schema
    derivation ([generateSchema]), once as a function from types to schema
    trees and once on a heap of schema objects ([Store.generateSchema]);
    the typed handler adapter ([createEchoHandler]) and route registration
    ([registerRoute]); and the properties of the design document that
    concern them. Echo's binder, the validator and [strconv.ParseFloat] are
    parameters of the development. *)

From Stdlib Require Import ZArith Lia String Ascii List Bool DecimalString.
From stdpp Require Import base list strings gmap.
Import ListNotations.

Local Open Scope string_scope.
Local Open Scope Z_scope.

(** ** Go's [strings] and [strconv] helpers used by the package

    Go strings are byte sequences, which is what [string] is here. *)

(** [strings.HasPrefix(s, prefix)]. *)
Fixpoint HasPrefix (s prefix : string) {struct prefix} : bool :=
  match prefix with
  | EmptyString => true
  | String p prefix' =>
      match s with
      | EmptyString => false
      | String c s' => Ascii.eqb c p && HasPrefix s' prefix'
      end
  end.

Fixpoint dropBytes (n : nat) (s : string) : string :=
  match n with
  | O => s
  | S n' => match s with EmptyString => EmptyString | String _ s' => dropBytes n' s' end
  end.

(** [strings.TrimPrefix(s, prefix)]: [s] without the leading [prefix], or
    [s] itself when it does not start with [prefix]. *)
Definition TrimPrefix (s prefix : string) : string :=
  if HasPrefix s prefix then dropBytes (String.length prefix) s else s.

(** [strings.Contains(s, substr)]. *)
Fixpoint Contains (s substr : string) : bool :=
  HasPrefix s substr ||
  match s with
  | EmptyString => false
  | String _ s' => Contains s' substr
  end.

(** [strings.Split(s, sep)] for a one-byte separator, which is the only way
    the package calls it (",", " " and "/"). [n] separators give [n+1]
    pieces; the empty string gives one empty piece. *)
Fixpoint Split (s : string) (sep : ascii) : list string :=
  match s with
  | EmptyString => [EmptyString]
  | String c s' =>
      if Ascii.eqb c sep then EmptyString :: Split s' sep
      else match Split s' sep with
           | [] => [String c EmptyString]
           | piece :: pieces => String c piece :: pieces
           end
  end.

Definition comma : ascii := ","%char.
Definition space : ascii := " "%char.

(** Decimal digits of [strconv.Atoi]: every byte must be in '0'..'9'. *)
Definition digitValue (c : ascii) : option Z :=
  let n := Z.of_N (N_of_ascii c) in
  if (48 <=? n) && (n <=? 57) then Some (n - 48) else None.

Fixpoint parseDigits (s : string) (acc : Z) : option Z :=
  match s with
  | EmptyString => Some acc
  | String c s' =>
      match digitValue c with
      | Some d => parseDigits s' (acc * 10 + d)
      | None => None
      end
  end.

Definition minInt : Z := - 2 ^ 63.
Definition maxInt : Z := 2 ^ 63 - 1.

(** [strconv.Atoi] on a 64-bit platform: an optional sign followed by at
    least one decimal digit, with a value that fits [int]; [None] stands for
    a non-nil [err] (syntax or range). *)
Definition Atoi (s : string) : option Z :=
  match s with
  | EmptyString => None
  | String c rest =>
      let neg := Ascii.eqb c "-"%char in
      let body := if neg || Ascii.eqb c "+"%char then rest else s in
      match body with
      | EmptyString => None
      | _ =>
          match parseDigits body 0 with
          | None => None
          | Some n =>
              let v := if neg then - n else n in
              if (minInt <=? v) && (v <=? maxInt) then Some v else None
          end
      end
  end.

(** The conversion [uint64(n)] of an [int]: wrap-around modulo 2^64. *)
Definition uint64 (n : Z) : Z := n mod 2 ^ 64.

(** [m[k] = v] on an association list standing for a Go map: an existing
    key keeps its place, a new key is appended. *)
Fixpoint mapAssign {V : Type} (k : string) (v : V) (m : list (string * V)) : list (string * V) :=
  match m with
  | [] => [(k, v)]
  | (k', v') :: m' =>
      if String.eqb k' k then (k, v) :: m' else (k', v') :: mapAssign k v m'
  end.

(** [m[k]], with [None] for an absent key. *)
Fixpoint mapLookup {V : Type} (k : string) (m : list (string * V)) : option V :=
  match m with
  | [] => None
  | (k', v) :: m' => if String.eqb k' k then Some v else mapLookup k m'
  end.

(** ** [reflect.Type] as the package inspects it *)

(** The struct-tag keys the package (and Echo's binder) look up;
    [reflect.StructTag.Get] returns the empty string for an absent key. *)
Record StructTag := mkTag {
  tag_json : string;
  tag_validate : string;
  tag_example : string;
  tag_query : string;
  tag_param : string
}.

Record StructFieldOf (T : Type) := mkField {
  Name : string;
  Typ : T;
  Tag : StructTag
}.
Arguments mkField {T} _ _ _.
Arguments Name {T} _.
Arguments Typ {T} _.
Arguments Tag {T} _.

(** One constructor per [reflect.Kind] the package tells apart; every other
    kind (Int8, Uint, Array, Chan, ...) is [TOther] with its name. A struct
    carries [t.String()] and its fields in declaration order; a function
    carries its parameter and result types. *)
#[local] Unset Elimination Schemes.
Inductive GoType : Type :=
| TString
| TInt
| TInt32
| TInt64
| TFloat32
| TFloat64
| TBool
| TSlice (elem : GoType)
| TMap (key elem : GoType)
| TStruct (name : string) (fields : list (StructFieldOf GoType))
| TPtr (elem : GoType)
| TInterface (name : string)
| TFunc (ins outs : list GoType)
| TOther (kind : string).
#[local] Set Elimination Schemes.

Abbreviation StructField := (StructFieldOf GoType).

(** ** [openapi3.Schema], restricted to the fields the package writes

    A schema refers to its children through [*openapi3.SchemaRef]; the
    record is therefore parameterised by what a reference is: a nested
    [SchemaRef] when a schema is read as a tree, an address when it is an
    object on the heap. [Properties] is a Go map, kept as an association
    list. [MinLength] is a [uint64] whose zero value is the absent bound;
    [MaxLength], [Min] and [Max] are pointers, [None] when nil. *)
Record SchemaOf (float64 ref : Type) : Type := mkSchema {
  Type_ : string;
  Format : string;
  Items : option ref;
  AdditionalProperties : option ref;
  Properties : list (string * ref);
  Required : list string;
  Example : option string;
  MinLength : Z;
  MaxLength : option Z;
  Min : option float64;
  Max : option float64;
  Enum : list string
}.
Arguments mkSchema {float64 ref} _ _ _ _ _ _ _ _ _ _ _ _.
Arguments Type_ {float64 ref} _.
Arguments Format {float64 ref} _.
Arguments Items {float64 ref} _.
Arguments AdditionalProperties {float64 ref} _.
Arguments Properties {float64 ref} _.
Arguments Required {float64 ref} _.
Arguments Example {float64 ref} _.
Arguments MinLength {float64 ref} _.
Arguments MaxLength {float64 ref} _.
Arguments Min {float64 ref} _.
Arguments Max {float64 ref} _.
Arguments Enum {float64 ref} _.

(** [openapi3.SchemaRef{Value: schema}]. *)
#[local] Unset Elimination Schemes.
Inductive SchemaRef (float64 : Type) : Type :=
| mkRef (Value : SchemaOf float64 (SchemaRef float64)).
#[local] Set Elimination Schemes.
Arguments mkRef {float64} _.

Definition Value {float64 : Type} (r : SchemaRef float64) : SchemaOf float64 (SchemaRef float64) :=
  match r with mkRef s => s end.

(** A schema read as a tree. *)
Abbreviation Schema float64 := (SchemaOf float64 (SchemaRef float64)).

(** The serialized name and the omit-if-empty flag read from the [json]
    tag (lines 673-683). *)
Definition jsonName (declared jsonTag : string) : string :=
  if String.eqb jsonTag "" then declared
  else hd "" (Split jsonTag comma).

Definition jsonOmitempty (jsonTag : string) : bool :=
  if String.eqb jsonTag "" then false
  else existsb (fun part => String.eqb part "omitempty") (tl (Split jsonTag comma)).

Section Schema.

(** Go's [float64] and [strconv.ParseFloat] are left abstract: [None]
    stands for a non-nil [err]. *)
Variable float64 : Type.
Variable ParseFloat : string -> option float64.

Section Node.

Context {ref : Type}.
Local Abbreviation Node := (SchemaOf float64 ref).

(** [&openapi3.Schema{Type: ty}]. *)
Definition schemaOfType (ty : string) : Node :=
  mkSchema ty "" None None [] [] None 0 None None None [].

Definition withFormat (f : string) (s : Node) : Node :=
  mkSchema (Type_ s) f (Items s) (AdditionalProperties s) (Properties s)
           (Required s) (Example s) (MinLength s) (MaxLength s) (Min s) (Max s) (Enum s).
Definition withItems (i : option ref) (s : Node) : Node :=
  mkSchema (Type_ s) (Format s) i (AdditionalProperties s) (Properties s)
           (Required s) (Example s) (MinLength s) (MaxLength s) (Min s) (Max s) (Enum s).
Definition withAdditionalProperties (a : option ref) (s : Node) : Node :=
  mkSchema (Type_ s) (Format s) (Items s) a (Properties s)
           (Required s) (Example s) (MinLength s) (MaxLength s) (Min s) (Max s) (Enum s).
Definition withProperties (p : list (string * ref)) (s : Node) : Node :=
  mkSchema (Type_ s) (Format s) (Items s) (AdditionalProperties s) p
           (Required s) (Example s) (MinLength s) (MaxLength s) (Min s) (Max s) (Enum s).
Definition withRequired (r : list string) (s : Node) : Node :=
  mkSchema (Type_ s) (Format s) (Items s) (AdditionalProperties s) (Properties s)
           r (Example s) (MinLength s) (MaxLength s) (Min s) (Max s) (Enum s).
Definition withExample (e : option string) (s : Node) : Node :=
  mkSchema (Type_ s) (Format s) (Items s) (AdditionalProperties s) (Properties s)
           (Required s) e (MinLength s) (MaxLength s) (Min s) (Max s) (Enum s).
Definition withMinLength (n : Z) (s : Node) : Node :=
  mkSchema (Type_ s) (Format s) (Items s) (AdditionalProperties s) (Properties s)
           (Required s) (Example s) n (MaxLength s) (Min s) (Max s) (Enum s).
Definition withMaxLength (n : option Z) (s : Node) : Node :=
  mkSchema (Type_ s) (Format s) (Items s) (AdditionalProperties s) (Properties s)
           (Required s) (Example s) (MinLength s) n (Min s) (Max s) (Enum s).
Definition withMin (m : option float64) (s : Node) : Node :=
  mkSchema (Type_ s) (Format s) (Items s) (AdditionalProperties s) (Properties s)
           (Required s) (Example s) (MinLength s) (MaxLength s) m (Max s) (Enum s).
Definition withMax (m : option float64) (s : Node) : Node :=
  mkSchema (Type_ s) (Format s) (Items s) (AdditionalProperties s) (Properties s)
           (Required s) (Example s) (MinLength s) (MaxLength s) (Min s) m (Enum s).
Definition withEnum (e : list string) (s : Node) : Node :=
  mkSchema (Type_ s) (Format s) (Items s) (AdditionalProperties s) (Properties s)
           (Required s) (Example s) (MinLength s) (MaxLength s) (Min s) (Max s) e.

(** The [min=] fragment of the inner loop (lines 701-713). *)
Definition applyMin (v : string) (fieldSchema : Node) : Node :=
  if HasPrefix v "min=" then
    let val := TrimPrefix v "min=" in
    if negb (String.eqb val "") then
      if String.eqb (Type_ fieldSchema) "string" then
        match Atoi val with
        | Some minLen => withMinLength (uint64 minLen) fieldSchema
        | None => fieldSchema
        end
      else if String.eqb (Type_ fieldSchema) "integer"
              || String.eqb (Type_ fieldSchema) "number" then
        match ParseFloat val with
        | Some min => withMin (Some min) fieldSchema
        | None => fieldSchema
        end
      else fieldSchema
    else fieldSchema
  else fieldSchema.

(** The [max=] fragment of the inner loop (lines 714-727). *)
Definition applyMax (v : string) (fieldSchema : Node) : Node :=
  if HasPrefix v "max=" then
    let val := TrimPrefix v "max=" in
    if negb (String.eqb val "") then
      if String.eqb (Type_ fieldSchema) "string" then
        match Atoi val with
        | Some maxLen => withMaxLength (Some (uint64 maxLen)) fieldSchema
        | None => fieldSchema
        end
      else if String.eqb (Type_ fieldSchema) "integer"
              || String.eqb (Type_ fieldSchema) "number" then
        match ParseFloat val with
        | Some max => withMax (Some max) fieldSchema
        | None => fieldSchema
        end
      else fieldSchema
    else fieldSchema
  else fieldSchema.

Definition applyEmail (v : string) (fieldSchema : Node) : Node :=
  if String.eqb v "email" then withFormat "email" fieldSchema else fieldSchema.

Definition applyOneof (v : string) (fieldSchema : Node) : Node :=
  if HasPrefix v "oneof=" then
    withEnum (Split (TrimPrefix v "oneof=") space) fieldSchema
  else fieldSchema.

(** One iteration of [for _, v := range validations]: the four [if]
    statements run one after the other. *)
Definition applyValidation (fieldSchema : Node) (v : string) : Node :=
  applyOneof v (applyEmail v (applyMax v (applyMin v fieldSchema))).

End Node.

(** ** [generateSchema], lines 628-749, read as a function to trees *)

(** One iteration of the loop over the struct's fields (lines 666-743);
    [derive] is the recursive call on the field's type. *)
Definition addField (derive : GoType -> Schema float64) (schema : Schema float64)
    (field : StructField) : Schema float64 :=
  let jsonTag := tag_json (Tag field) in
  if String.eqb jsonTag "-" then schema
  else
    let fieldName := jsonName (Name field) jsonTag in
    let omitempty := jsonOmitempty jsonTag in
    let fieldSchema := derive (Typ field) in
    let exampleTag := tag_example (Tag field) in
    let fieldSchema :=
      if negb (String.eqb exampleTag "") then withExample (Some exampleTag) fieldSchema
      else fieldSchema in
    let validateTag := tag_validate (Tag field) in
    let schema :=
      if negb (String.eqb validateTag "")
         && (Contains validateTag "required" && negb omitempty)
      then withRequired (Required schema ++ [fieldName]) schema
      else schema in
    let fieldSchema :=
      if negb (String.eqb validateTag "")
      then fold_left applyValidation (Split validateTag comma) fieldSchema
      else fieldSchema in
    withProperties (mapAssign fieldName (mkRef fieldSchema) (Properties schema)) schema.

Fixpoint generateSchema (t : GoType) : Schema float64 :=
  let t := match t with TPtr elem => elem | _ => t end in
  match t with
  | TString => schemaOfType "string"
  | TInt | TInt32 | TInt64 => schemaOfType "integer"
  | TFloat32 | TFloat64 => schemaOfType "number"
  | TBool => schemaOfType "boolean"
  | TSlice elem =>
      withItems (Some (mkRef (generateSchema elem))) (schemaOfType "array")
  | TMap _ elem =>
      withAdditionalProperties (Some (mkRef (generateSchema elem))) (schemaOfType "object")
  | TStruct name fields =>
      if String.eqb name "time.Time" then withFormat "date-time" (schemaOfType "string")
      else fold_left (addField generateSchema) fields (schemaOfType "object")
  | _ => schemaOfType "object"
  end.

End Schema.

Arguments schemaOfType {float64 ref} ty.
Arguments withFormat {float64 ref} f s.
Arguments withItems {float64 ref} i s.
Arguments withAdditionalProperties {float64 ref} a s.
Arguments withProperties {float64 ref} p s.
Arguments withRequired {float64 ref} r s.
Arguments withExample {float64 ref} e s.
Arguments withMinLength {float64 ref} n s.
Arguments withMaxLength {float64 ref} n s.
Arguments withMin {float64 ref} m s.
Arguments withMax {float64 ref} m s.
Arguments withEnum {float64 ref} e s.
Arguments applyMin {float64} ParseFloat {ref} v fieldSchema.
Arguments applyMax {float64} ParseFloat {ref} v fieldSchema.
Arguments applyEmail {float64 ref} v fieldSchema.
Arguments applyOneof {float64 ref} v fieldSchema.
Arguments applyValidation {float64} ParseFloat {ref} fieldSchema v.
Arguments addField {float64} ParseFloat derive schema field.
Arguments generateSchema {float64} ParseFloat t.

(** ** [generateSchema] on the heap

    The same function with its allocations and assignments spelled out:
    every [&openapi3.Schema{...}] takes a fresh address, and the loop
    updates the object schema and the field's schema in place through their
    pointers. *)
Module Store.

(** An address is an index into the heap; allocation appends. *)
Abbreviation ptr := nat.

(** An object on the heap refers to others by address. *)
Abbreviation Cell float64 := (SchemaOf float64 ptr).
Abbreviation Heap float64 := (list (SchemaOf float64 ptr)).

Section Heap.

Variable float64 : Type.
Variable ParseFloat : string -> option float64.

Local Abbreviation Cell := (SchemaOf float64 ptr).
Local Abbreviation Heap := (list (SchemaOf float64 ptr)).

(** [&openapi3.Schema{...}]. *)
Definition new (c : Cell) (h : Heap) : ptr * Heap := (length h, (h ++ [c])%list).

(** An assignment through the pointer [p]. *)
Definition assign (p : ptr) (f : Cell -> Cell) (h : Heap) : Heap := alter f p h.

Definition addField (derive : GoType -> Heap -> ptr * Heap) (schema : ptr)
    (h : Heap) (field : StructField) : Heap :=
  let jsonTag := tag_json (Tag field) in
  if String.eqb jsonTag "-" then h
  else
    let fieldName := jsonName (Name field) jsonTag in
    let omitempty := jsonOmitempty jsonTag in
    let (fieldSchema, h) := derive (Typ field) h in
    let exampleTag := tag_example (Tag field) in
    let h :=
      if negb (String.eqb exampleTag "")
      then assign fieldSchema (withExample (Some exampleTag)) h
      else h in
    let validateTag := tag_validate (Tag field) in
    let h :=
      if negb (String.eqb validateTag "")
         && (Contains validateTag "required" && negb omitempty)
      then assign schema (fun s => withRequired (Required s ++ [fieldName]) s) h
      else h in
    let h :=
      if negb (String.eqb validateTag "")
      then fold_left (fun h v => assign fieldSchema (fun s => applyValidation ParseFloat s v) h)
                     (Split validateTag comma) h
      else h in
    assign schema (fun s => withProperties (mapAssign fieldName fieldSchema (Properties s)) s) h.

Fixpoint generateSchema (t : GoType) (h : Heap) : ptr * Heap :=
  let t := match t with TPtr elem => elem | _ => t end in
  match t with
  | TString => new (schemaOfType "string") h
  | TInt | TInt32 | TInt64 => new (schemaOfType "integer") h
  | TFloat32 | TFloat64 => new (schemaOfType "number") h
  | TBool => new (schemaOfType "boolean") h
  | TSlice elem =>
      let (items, h) := generateSchema elem h in
      new (withItems (Some items) (schemaOfType "array")) h
  | TMap _ elem =>
      let (additional, h) := generateSchema elem h in
      new (withAdditionalProperties (Some additional) (schemaOfType "object")) h
  | TStruct name fields =>
      if String.eqb name "time.Time" then new (withFormat "date-time" (schemaOfType "string")) h
      else
        let (schema, h) := new (schemaOfType "object") h in
        (schema, fold_left (addField generateSchema schema) fields h)
  | _ => new (schemaOfType "object") h
  end.

End Heap.

Arguments new {float64} c h.
Arguments assign {float64} p f h.
Arguments addField {float64} ParseFloat derive schema h field.
Arguments generateSchema {float64} ParseFloat t h.

End Store.

(** ** The envelope and the values a handler returns *)

(** A non-nil [error]: either a [*echo.HTTPError] with its [Code] and the
    [%v] rendering of its [Message], or any other error with the text of
    its [Error()] method. *)
Inductive GoError : Type :=
| HTTPError (Code : Z) (Message : string)
| OtherError (text : string).

(** The values a handler hands back through [reflect.Value.Call]. A nil
    slice, map, pointer, interface or error is [None]. *)
#[local] Unset Elimination Schemes.
Inductive GoValue : Type :=
| VString (s : string)
| VInt (n : Z)
| VBool (b : bool)
| VSlice (elems : option (list GoValue))
| VMap (entries : option (list (string * GoValue)))
| VStruct (fields : list (string * GoValue))
| VPtr (target : option GoValue)
| VIface (dyn : option GoValue)
| VError (err : option GoError).
#[local] Set Elimination Schemes.

(** [reflect.Value.IsZero]: the zero value of the value's type. A struct is
    zero when all its fields are; an empty but non-nil slice or map is not. *)
Fixpoint IsZero (v : GoValue) : bool :=
  match v with
  | VString s => String.eqb s ""
  | VInt n => n =? 0
  | VBool b => negb b
  | VSlice elems => match elems with None => true | Some _ => false end
  | VMap entries => match entries with None => true | Some _ => false end
  | VStruct fields => forallb (fun kv => IsZero (snd kv)) fields
  | VPtr target => match target with None => true | Some _ => false end
  | VIface dyn => match dyn with None => true | Some _ => false end
  | VError err => match err with None => true | Some _ => false end
  end.

(** [v.Interface().(error)] together with the test [err != nil]. *)
Definition asError (v : GoValue) : option GoError :=
  match v with
  | VError (Some err) => Some err
  | _ => None
  end.

(** [Response[any]]: [Data] is [None] when the [any] holds nil, and is then
    left out of the serialized body, as an empty [Error] is. *)
Record Response := mkResponse {
  Data : option GoValue;
  Error : string;
  Success : bool
}.

(** What the adapter hands to the transport: [c.JSON(code, body)] or
    [c.NoContent(code)]. *)
Inductive Reply : Type :=
| JSON (code : Z) (body : Response)
| NoContent (code : Z).

Definition StatusOK : Z := 200.
Definition StatusNoContent : Z := 204.
Definition StatusBadRequest : Z := 400.
Definition StatusInternalServerError : Z := 500.

(** [Route], with the fields registration and the adapter read. *)
Record Route := mkRoute {
  Summary : string;
  Description : string;
  Tags : list string;
  SuccessStatus : Z
}.

(** The outcome of a binder: the populated instance, or the text of its
    error. *)
Inductive Bound (I : Type) : Type :=
| BindOk (inst : I)
| BindErr (err : string).
Arguments BindOk {I} _.
Arguments BindErr {I} _.

(** The transport and validation collaborators of the adapter: Echo's
    context and default binder, and [validator.Validate.Struct]. [Lookup]
    reads from an instance the field bound to a parameter name and
    [PathParam] the value Echo matched for a path variable. *)
Class Collaborators (Ctx Instance Val : Type) := {
  RequestMethod : Ctx -> string;
  PathParam : Ctx -> string -> option Val;
  New : GoType -> Instance;
  Lookup : Instance -> string -> option Val;
  BindQueryParams : Ctx -> Instance -> Bound Instance;
  Bind : Ctx -> Instance -> Bound Instance;
  BindPathParams : Ctx -> Instance -> Bound Instance;
  Struct : Instance -> option string
}.

Section Pipeline.

Context {Ctx Instance Val : Type} `{Collaborators Ctx Instance Val}.

(** The arguments of [handlerValue.Call]: the context, then the request. *)
Inductive Arg : Type :=
| ArgContext (c : Ctx)
| ArgRequest (req : Instance).

(** What the adapter did besides replying: it ran the validator on an
    instance, it called the handler. *)
Inductive Event : Type :=
| EvValidate (req : Instance)
| EvCall (args : list Arg).

(** A handler as the adapter sees it: its [reflect.Type] and what
    [Call] returns. *)
Record Handler := mkHandler {
  handlerType : GoType;
  Call : list Arg -> list GoValue
}.

Definition failure (code : Z) (msg : string) : Reply :=
  JSON code (mkResponse None msg false).

(** Lines 272-297: the source binder chosen by the verb, then the path
    binder; an error is turned into the message of the 400 reply. *)
Definition bindRequest (c : Ctx) (req : Instance) : Bound Instance :=
  let method := RequestMethod c in
  let fromSource :=
    if String.eqb method "GET" || String.eqb method "DELETE" then
      match BindQueryParams c req with
      | BindErr err => BindErr ("Invalid query parameters: " ++ err)
      | BindOk req => BindOk req
      end
    else
      match Bind c req with
      | BindErr err => BindErr ("Invalid request body: " ++ err)
      | BindOk req => BindOk req
      end in
  match fromSource with
  | BindErr msg => BindErr msg
  | BindOk req =>
      match BindPathParams c req with
      | BindErr err => BindErr ("Invalid path parameters: " ++ err)
      | BindOk req => BindOk req
      end
  end.

Definition successStatus (routeConfig : option Route) : Z :=
  match routeConfig with
  | Some cfg => if 0 <? SuccessStatus cfg then SuccessStatus cfg else StatusOK
  | None => StatusOK
  end.

(** Lines 313-347: the reply built from the handler's results. The
    values [Call] returns are always valid, so [results[0].IsValid()] holds
    and only [IsZero] decides. *)
Definition handleResponse (routeConfig : option Route) (results : list GoValue) : Reply :=
  match results with
  | [] => NoContent StatusNoContent
  | first :: rest =>
      let failed :=
        if (1 <? length results)%nat then asError (List.last results first) else None in
      match failed with
      | Some (HTTPError code message) => failure code message
      | Some (OtherError text) => failure StatusInternalServerError text
      | None =>
          if negb (IsZero first) then
            JSON (successStatus routeConfig) (mkResponse (Some first) "" true)
          else NoContent StatusNoContent
      end
  end.

(** [createEchoHandler], lines 261-349: the function Echo calls per
    request, with the events it caused and its reply. The [responseType]
    argument of the Go function is not read by its body and is left out. *)
Definition createEchoHandler (handler : Handler) (requestType : option GoType)
    (routeConfig : option Route) (c : Ctx) : list Event * Reply :=
  match requestType with
  | Some rt =>
      match bindRequest c (New rt) with
      | BindErr msg => ([], failure StatusBadRequest msg)
      | BindOk req =>
          match Struct req with
          | Some err =>
              ([EvValidate req], failure StatusBadRequest ("Validation failed: " ++ err))
          | None =>
              let args := [ArgContext c; ArgRequest req] in
              ([EvValidate req; EvCall args], handleResponse routeConfig (Call handler args))
          end
      end
  | None =>
      let args := [ArgContext c] in
      ([EvCall args], handleResponse routeConfig (Call handler args))
  end.

(** ** [registerRoute], lines 209-258 *)

Record RouteInfo := mkRouteInfo {
  riMethod : string;
  riPath : string;
  riHandler : Handler;
  riSummary : string;
  riDescription : string;
  riTags : list string;
  RequestType : option GoType;
  ResponseType : option GoType;
  RouteConfig : option Route
}.

(** The application: the routes kept for the document, and what was
    handed to Echo's router (verb, path, adapter). *)
Record App := mkApp {
  routes : list RouteInfo;
  echoRoutes : list (string * string * (Ctx -> list Event * Reply))
}.

(** A call either panics or returns. *)
Inductive Outcome (A : Type) : Type :=
| Panic (msg : string)
| Returns (a : A).
Arguments Panic {A} _.
Arguments Returns {A} _.

(** [handler] is the [interface{}] argument: [None] is the nil interface,
    for which [reflect.TypeOf] is nil and [Kind()] dereferences nil. *)
Definition registerRoute (method path : string) (handler : option Handler)
    (opts : list Route) (app : App) : Outcome App :=
  match handler with
  | None => Panic "invalid memory address or nil pointer dereference"
  | Some h =>
      match handlerType h with
      | TFunc ins outs =>
          let requestType := if (1 <? length ins)%nat then nth_error ins 1 else None in
          let responseType := if (0 <? length outs)%nat then nth_error outs 0 else None in
          let routeInfo :=
            match opts with
            | route :: _ =>
                mkRouteInfo method path h (Summary route) (Description route) (Tags route)
                            requestType responseType (Some route)
            | [] => mkRouteInfo method path h "" "" [] requestType responseType None
            end in
          let echoHandler := createEchoHandler h requestType (RouteConfig routeInfo) in
          let known := existsb (String.eqb method) ["GET"; "POST"; "PUT"; "PATCH"; "DELETE"] in
          Returns (mkApp (routes app ++ [routeInfo])
                         (if known then echoRoutes app ++ [(method, path, echoHandler)]
                          else echoRoutes app))
      | _ => Panic "handler must be a function"
      end
  end.

End Pipeline.

Arguments Panic {A} _.
Arguments Returns {A} _.


(** ** The registration methods, lines 184-206 *)

Section Registration.

Context {Ctx Instance Val : Type} `{Collaborators Ctx Instance Val}.

Local Abbreviation Registrar :=
  (string -> option (@Handler Ctx Instance) -> list Route -> @App Ctx Instance ->
   Outcome (@App Ctx Instance)).

Definition GET : Registrar :=
  fun path handler opts app => registerRoute "GET" path handler opts app.

Definition POST : Registrar :=
  fun path handler opts app => registerRoute "POST" path handler opts app.

Definition PUT : Registrar :=
  fun path handler opts app => registerRoute "PUT" path handler opts app.

Definition PATCH : Registrar :=
  fun path handler opts app => registerRoute "PATCH" path handler opts app.

Definition DELETE : Registrar :=
  fun path handler opts app => registerRoute "DELETE" path handler opts app.

End Registration.

(** ** The document assembler

    The part of [echonext.go] that builds the OpenAPI document: the
    setters of the document's metadata, [AddSecurityScheme],
    [GenerateOpenAPISpec], [addRouteToSpec] and [addQueryParameters]. *)

(** [strings.Join(parts, sep)]. *)
Fixpoint Join (parts : list string) (sep : string) : string :=
  match parts with
  | [] => EmptyString
  | [part] => part
  | part :: rest => part ++ sep ++ Join rest sep
  end.

Definition slash : ascii := "/"%char.

(** [fmt.Sprintf("%d", n)]. *)
Definition formatInt (n : Z) : string := NilZero.string_of_int (Z.to_int n).

Module Doc.

(** [echonext.Security], [echonext.HeaderInfo] and [echonext.Server]. *)
Record Security := mkSecurity {
  secType : string;
  secName : string;
  secScheme : string;
  secIn : string
}.

Record HeaderInfo := mkHeaderInfo {
  hiDescription : string;
  hiRequired : bool;
  hiSchema : string
}.

Record Server := mkServer {
  srvURL : string;
  srvDescription : string
}.

(** [echonext.Route] with all the fields the assembler reads. The Go maps
    [ResponseHeaders] and [Examples] are only copied into other maps;
    [RequestHeaders] is ranged over to append parameters, and is given as
    the list of its entries in the order the [range] statement visits
    them, which Go leaves unspecified. *)
Record Route := mkRoute {
  cfgSecurity : list Security;
  cfgSuccessStatus : Z;
  cfgRequestHeaders : list (string * HeaderInfo);
  cfgResponseHeaders : gmap string HeaderInfo;
  cfgContentTypes : list string;
  cfgExamples : gmap string GoValue
}.

(** [echonext.RouteInfo] as the assembler reads it: everything but the
    handler. *)
Record RouteInfo := mkRouteInfo {
  Method : string;
  Path : string;
  Summary : string;
  Description : string;
  Tags : list string;
  RequestType : option GoType;
  ResponseType : option GoType;
  RouteConfig : option Route
}.

Section Types.

Variable float64 : Type.

(** The schema of a media type: one that is spelled with the fields of
    [SchemaOf], or the schema of the failure envelope (lines 543-553),
    whose [success] property sets [Default], a field [SchemaOf] does not
    have. *)
Inductive BodySchema : Type :=
| Spelled (s : SchemaOf float64 (SchemaRef float64))
| ErrorSchema.

(** [openapi3.Parameter]. *)
Record Param := mkParameter {
  paramName : string;
  paramIn : string;
  paramRequired : bool;
  paramDescription : string;
  paramSchema : SchemaOf float64 (SchemaRef float64)
}.

(** [openapi3.MediaType]; an example is kept by its [Value]. *)
Record MediaType := mkMediaType {
  mediaSchema : BodySchema;
  mediaExamples : gmap string GoValue
}.

(** [openapi3.RequestBody]. *)
Record RequestBody := mkRequestBody {
  bodyContent : gmap string MediaType;
  bodyRequired : bool
}.

(** [openapi3.Header]. *)
Record Header := mkHeader {
  headerDescription : string;
  headerSchema : SchemaOf float64 (SchemaRef float64)
}.

(** [openapi3.Response]. *)
Record Response := mkResponse {
  respDescription : string;
  respContent : gmap string MediaType;
  respHeaders : gmap string Header
}.

(** [openapi3.Operation]. *)
Record Operation := mkOperation {
  opSummary : string;
  opDescription : string;
  opTags : list string;
  opResponses : gmap string Response;
  opParameters : list Param;
  opSecurity : list (gmap string (list string));
  opRequestBody : option RequestBody
}.

(** [openapi3.PathItem]. *)
Record PathItem := mkPathItem {
  Get : option Operation;
  Post : option Operation;
  Put : option Operation;
  Patch : option Operation;
  Delete : option Operation
}.

(** [openapi3.SecurityScheme]. *)
Record SecurityScheme := mkSecurityScheme {
  schemeType : string;
  schemeScheme : string;
  schemeBearerFormat : string;
  schemeName : string;
  schemeIn : string
}.

Record Contact := mkContact {
  contactName : string;
  contactURL : string;
  contactEmail : string
}.

Record License := mkLicense {
  licenseName : string;
  licenseURL : string
}.

Record Info := mkInfo {
  Title : string;
  Version : string;
  infoDescription : string;
  infoContact : option Contact;
  infoLicense : option License
}.

(** [openapi3.T], the document [app.spec] points to. *)
Record T := mkT {
  OpenAPI : string;
  docInfo : Info;
  Servers : list Server;
  Paths : gmap string PathItem;
  SecuritySchemes : gmap string SecurityScheme
}.

End Types.

Arguments Spelled {float64} s.
Arguments ErrorSchema {float64}.
Arguments mkParameter {float64} _ _ _ _ _.
Arguments paramName {float64} _.
Arguments paramIn {float64} _.
Arguments paramRequired {float64} _.
Arguments paramDescription {float64} _.
Arguments paramSchema {float64} _.
Arguments mkMediaType {float64} _ _.
Arguments mediaSchema {float64} _.
Arguments mediaExamples {float64} _.
Arguments mkRequestBody {float64} _ _.
Arguments bodyContent {float64} _.
Arguments bodyRequired {float64} _.
Arguments mkHeader {float64} _ _.
Arguments headerDescription {float64} _.
Arguments headerSchema {float64} _.
Arguments mkResponse {float64} _ _ _.
Arguments respDescription {float64} _.
Arguments respContent {float64} _.
Arguments respHeaders {float64} _.
Arguments mkOperation {float64} _ _ _ _ _ _ _.
Arguments opSummary {float64} _.
Arguments opDescription {float64} _.
Arguments opTags {float64} _.
Arguments opResponses {float64} _.
Arguments opParameters {float64} _.
Arguments opSecurity {float64} _.
Arguments opRequestBody {float64} _.
Arguments mkPathItem {float64} _ _ _ _ _.
Arguments Get {float64} _.
Arguments Post {float64} _.
Arguments Put {float64} _.
Arguments Patch {float64} _.
Arguments Delete {float64} _.
Arguments mkT {float64} _ _ _ _ _.
Arguments OpenAPI {float64} _.
Arguments docInfo {float64} _.
Arguments Servers {float64} _.
Arguments Paths {float64} _.
Arguments SecuritySchemes {float64} _.

Section Assembler.

Variable float64 : Type.
Variable ParseFloat : string -> option float64.

Local Abbreviation Document := (T float64).

(** [New], lines 92-112, for the document it creates. *)
Definition New : Document :=
  mkT "3.0.0" (mkInfo "API" "1.0.0" "" None None) [] ∅ ∅.

(** [SetInfo], lines 115-119. *)
Definition SetInfo (title version description : string) (spec : Document) : Document :=
  mkT (OpenAPI spec)
      (mkInfo title version description (infoContact (docInfo spec)) (infoLicense (docInfo spec)))
      (Servers spec) (Paths spec) (SecuritySchemes spec).

(** [SetContact], lines 122-129. *)
Definition SetContact (name url email : string) (spec : Document) : Document :=
  mkT (OpenAPI spec)
      (mkInfo (Title (docInfo spec)) (Version (docInfo spec)) (infoDescription (docInfo spec))
              (Some (mkContact name url email)) (infoLicense (docInfo spec)))
      (Servers spec) (Paths spec) (SecuritySchemes spec).

(** [SetLicense], lines 132-138. *)
Definition SetLicense (name url : string) (spec : Document) : Document :=
  mkT (OpenAPI spec)
      (mkInfo (Title (docInfo spec)) (Version (docInfo spec)) (infoDescription (docInfo spec))
              (infoContact (docInfo spec)) (Some (mkLicense name url)))
      (Servers spec) (Paths spec) (SecuritySchemes spec).

(** [SetServers], lines 141-149. *)
Definition SetServers (servers : list Server) (spec : Document) : Document :=
  mkT (OpenAPI spec) (docInfo spec)
      (List.map (fun server => mkServer (srvURL server) (srvDescription server)) servers)
      (Paths spec) (SecuritySchemes spec).

(** The scheme built by the [switch] of [AddSecurityScheme]. *)
Definition schemeOf (security : Security) : SecurityScheme :=
  if String.eqb (secType security) "bearer" then
    mkSecurityScheme "http" "bearer" (secScheme security) "" ""
  else if String.eqb (secType security) "apiKey" then
    mkSecurityScheme "apiKey" "" "" (secName security) (secIn security)
  else if String.eqb (secType security) "basic" then
    mkSecurityScheme "http" "basic" "" "" ""
  else if String.eqb (secType security) "oauth2" then
    mkSecurityScheme "oauth2" "" "" "" ""
  else mkSecurityScheme "" "" "" "" "".

(** [AddSecurityScheme], lines 152-181. *)
Definition AddSecurityScheme (name : string) (security : Security) (spec : Document) : Document :=
  mkT (OpenAPI spec) (docInfo spec) (Servers spec) (Paths spec)
      (<[name := schemeOf security]> (SecuritySchemes spec)).

(** Lines 362-369: Echo's [:name] segments become [{name}]. *)
Definition convertPart (part : string) : string :=
  if HasPrefix part ":" then "{" ++ dropBytes 1 part ++ "}" else part.

Definition convertPath (path : string) : string :=
  Join (List.map convertPart (Split path slash)) "/".

(** Lines 387-398: the requirement of one [Security]. *)
Definition securityRequirement (sec : Security) : gmap string (list string) :=
  if String.eqb (secType sec) "bearer" then {["bearerAuth" := []]}
  else if String.eqb (secType sec) "apiKey" then
    if negb (String.eqb (secName sec) "") then {[secName sec := []]} else ∅
  else if String.eqb (secType sec) "basic" then {["basicAuth" := []]}
  else ∅.

(** Lines 385-400. *)
Definition securityRequirements (config : option Route) : list (gmap string (list string)) :=
  match config with
  | Some cfg => List.map securityRequirement (cfgSecurity cfg)
  | None => []
  end.

(** Lines 403-417: one parameter per [:name] segment. *)
Definition pathParameter (part : string) : list (Param float64) :=
  if HasPrefix part ":"
  then [mkParameter (dropBytes 1 part) "path" true "" (schemaOfType "string")]
  else [].

Definition pathParameters (path : string) : list (Param float64) :=
  List.flat_map pathParameter (Split path slash).

(** Lines 420-437: one parameter per request header. *)
Definition headerParameter (entry : string * HeaderInfo) : Param float64 :=
  let (headerName, headerInfo) := entry in
  let schemaType := if String.eqb (hiSchema headerInfo) "" then "string" else hiSchema headerInfo in
  mkParameter headerName "header" (hiRequired headerInfo) (hiDescription headerInfo)
              (schemaOfType schemaType).

Definition headerParameters (config : option Route) : list (Param float64) :=
  match config with
  | Some cfg => List.map headerParameter (cfgRequestHeaders cfg)
  | None => []
  end.

(** One iteration of the loop of [addQueryParameters] (lines 602-624). *)
Definition queryParameter (field : StructField) : list (Param float64) :=
  let queryTag := tag_query (Tag field) in
  if String.eqb queryTag "" || String.eqb queryTag "-" then []
  else
    let validateTag := tag_validate (Tag field) in
    let required :=
      if negb (String.eqb validateTag "") then Contains validateTag "required" else false in
    [mkParameter queryTag "query" required "" (generateSchema ParseFloat (Typ field))].

(** [addQueryParameters], lines 593-625. *)
Definition addQueryParameters (operation : Operation float64) (t : GoType) : Operation float64 :=
  let t := match t with TPtr elem => elem | _ => t end in
  match t with
  | TStruct _ fields =>
      mkOperation (opSummary operation) (opDescription operation) (opTags operation)
                  (opResponses operation)
                  (opParameters operation ++ List.flat_map queryParameter fields)
                  (opSecurity operation) (opRequestBody operation)
  | _ => operation
  end.

(** Lines 449-452: the content types of the request body. *)
Definition contentTypes (config : option Route) : list string :=
  match config with
  | Some cfg => match cfgContentTypes cfg with [] => ["application/json"] | cts => cts end
  | None => ["application/json"]
  end.

(** Lines 463-472: the examples of every media type of the request body. *)
Definition examples (config : option Route) : gmap string GoValue :=
  match config with
  | Some cfg => cfgExamples cfg
  | None => ∅
  end.

(** Lines 446-481: the request body of a POST, PUT or PATCH. *)
Definition requestBody (requestType : GoType) (config : option Route) : RequestBody float64 :=
  let schema := generateSchema ParseFloat requestType in
  let content :=
    fold_left (fun content contentType =>
                 <[contentType := mkMediaType (Spelled schema) (examples config)]> content)
              (contentTypes config) ∅ in
  mkRequestBody content true.

(** Lines 488-501: the success envelope around the schema of the data. *)
Definition envelopeSchema (schema : Schema float64) : Schema float64 :=
  withProperties [("success", mkRef (schemaOfType "boolean"));
                  ("data", mkRef schema);
                  ("error", mkRef (schemaOfType "string"))]
                 (schemaOfType "object").

(** Lines 504-507. *)
Definition successStatusKey (config : option Route) : string :=
  match config with
  | Some cfg => if 0 <? cfgSuccessStatus cfg then formatInt (cfgSuccessStatus cfg) else "200"
  | None => "200"
  end.

Definition responseHeader (headerInfo : HeaderInfo) : Header float64 :=
  let schemaType := if String.eqb (hiSchema headerInfo) "" then "string" else hiSchema headerInfo in
  mkHeader (hiDescription headerInfo) (schemaOfType schemaType).

(** Lines 509-537: the success response. *)
Definition successResponse (responseType : GoType) (config : option Route) : Response float64 :=
  mkResponse "Successful response"
             {["application/json" :=
                 mkMediaType (Spelled (envelopeSchema (generateSchema ParseFloat responseType))) ∅]}
             (match config with
              | Some cfg => responseHeader <$> cfgResponseHeaders cfg
              | None => ∅
              end).

(** Lines 555-575: the two failure responses. *)
Definition errorResponse (description : string) : Response float64 :=
  mkResponse description {["application/json" := mkMediaType ErrorSchema ∅]} ∅.

(** The operation [addRouteToSpec] builds for a route (lines 375-575). *)
Definition operationOf (route : RouteInfo) : Operation float64 :=
  let operation :=
    mkOperation (Summary route) (Description route) (Tags route) ∅
                (pathParameters (Path route) ++ headerParameters (RouteConfig route))
                (securityRequirements (RouteConfig route)) None in
  let operation :=
    match RequestType route with
    | Some requestType =>
        if String.eqb (Method route) "GET" || String.eqb (Method route) "DELETE"
        then addQueryParameters operation requestType
        else mkOperation (opSummary operation) (opDescription operation) (opTags operation)
                         (opResponses operation) (opParameters operation)
                         (opSecurity operation)
                         (Some (requestBody requestType (RouteConfig route)))
    | None => operation
    end in
  let responses :=
    match ResponseType route with
    | Some responseType =>
        <[successStatusKey (RouteConfig route) :=
            successResponse responseType (RouteConfig route)]> (opResponses operation)
    | None => opResponses operation
    end in
  let responses := <["400" := errorResponse "Bad request"]> responses in
  let responses := <["500" := errorResponse "Internal server error"]> responses in
  mkOperation (opSummary operation) (opDescription operation) (opTags operation)
              responses (opParameters operation) (opSecurity operation)
              (opRequestBody operation).

(** Lines 578-589: the [switch] on the verb. *)
Definition setOperation (method : string) (operation : Operation float64)
    (item : PathItem float64) : PathItem float64 :=
  if String.eqb method "GET" then
    mkPathItem (Some operation) (Post item) (Put item) (Patch item) (Delete item)
  else if String.eqb method "POST" then
    mkPathItem (Get item) (Some operation) (Put item) (Patch item) (Delete item)
  else if String.eqb method "PUT" then
    mkPathItem (Get item) (Post item) (Some operation) (Patch item) (Delete item)
  else if String.eqb method "PATCH" then
    mkPathItem (Get item) (Post item) (Put item) (Some operation) (Delete item)
  else if String.eqb method "DELETE" then
    mkPathItem (Get item) (Post item) (Put item) (Patch item) (Some operation)
  else item.

(** [addRouteToSpec], lines 360-590. *)
Definition addRouteToSpec (spec : Document) (route : RouteInfo) : Document :=
  let path := convertPath (Path route) in
  let item :=
    match Paths spec !! path with
    | Some item => item
    | None => mkPathItem None None None None None
    end in
  mkT (OpenAPI spec) (docInfo spec) (Servers spec)
      (<[path := setOperation (Method route) (operationOf route) item]> (Paths spec))
      (SecuritySchemes spec).

(** [GenerateOpenAPISpec], lines 352-357. *)
Definition GenerateOpenAPISpec (routes : list RouteInfo) (spec : Document) : Document :=
  fold_left addRouteToSpec routes spec.

End Assembler.

Arguments New {float64}.
Arguments SetInfo {float64} title version description spec.
Arguments SetContact {float64} name url email spec.
Arguments SetLicense {float64} name url spec.
Arguments SetServers {float64} servers spec.
Arguments AddSecurityScheme {float64} name security spec.
Arguments pathParameter {float64} part.
Arguments pathParameters {float64} path.
Arguments headerParameter {float64} entry.
Arguments headerParameters {float64} config.
Arguments queryParameter {float64} ParseFloat field.
Arguments addQueryParameters {float64} ParseFloat operation t.
Arguments requestBody {float64} ParseFloat requestType config.
Arguments envelopeSchema {float64} schema.
Arguments responseHeader {float64} headerInfo.
Arguments successResponse {float64} ParseFloat responseType config.
Arguments errorResponse {float64} description.
Arguments operationOf {float64} ParseFloat route.
Arguments setOperation {float64} method operation item.
Arguments addRouteToSpec {float64} ParseFloat spec route.
Arguments GenerateOpenAPISpec {float64} ParseFloat routes spec.

End Doc.

(** * Vocabulary of the properties *)

(** ** What a field's annotations say *)

(** The property name the loop uses for a field (lines 673-677). *)
Definition serializedName (f : StructField) : string :=
  jsonName (Name f) (tag_json (Tag f)).

(** The field carries the [omitempty] option in its [json] tag. *)
Definition omitIfEmpty (f : StructField) : bool :=
  jsonOmitempty (tag_json (Tag f)).

(** The field is left out of serialization ([json:"-"]) and skipped. *)
Definition excluded (f : StructField) : bool :=
  String.eqb (tag_json (Tag f)) "-".

(** The test of line 694: the annotation mentions "required" somewhere. *)
Definition mentionsRequired (f : StructField) : bool :=
  Contains (tag_validate (Tag f)) "required".

(** The design document's reading of the annotation: a ConstraintSet is a
    comma-separated list of tokens, and it marks the field required when
    one of the tokens is [required]. *)
Definition ConstraintSet_required (f : StructField) : bool :=
  existsb (String.eqb "required") (Split (tag_validate (Tag f)) comma).

(** The fields whose names the loop appends to [schema.Required]. *)
Definition listedRequired (f : StructField) : bool :=
  negb (excluded f) && (mentionsRequired f && negb (omitIfEmpty f)).

(** The validation token is a [min=] or [max=] fragment. *)
Definition isBoundToken (v : string) : bool :=
  HasPrefix v "min=" || HasPrefix v "max=".

(** The node's type is one the loop maps bounds onto. *)
Definition takesBounds (ty : string) : bool :=
  String.eqb ty "string" || String.eqb ty "integer" || String.eqb ty "number".

Section SchemaVocabulary.

Variable float64 : Type.
Variable ParseFloat : string -> option float64.

(** A string-length bound is present on the node. *)
Definition hasLengthBound {ref : Type} (s : SchemaOf float64 ref) : Prop :=
  MinLength s <> 0 \/ MaxLength s <> None.

(** A numeric bound is present on the node. *)
Definition hasNumericBound {ref : Type} (s : SchemaOf float64 ref) : Prop :=
  Min s <> None \/ Max s <> None.

Definition boundsGated {ref : Type} (s : SchemaOf float64 ref) : Prop :=
  (hasLengthBound s -> Type_ s = "string") /\
  (hasNumericBound s -> Type_ s = "integer" \/ Type_ s = "number").

(** [P] holds of the schema a reference leads to and of every schema
    below it. *)
Fixpoint everyRef (P : Schema float64 -> Prop) (r : SchemaRef float64) : Prop :=
  match r with
  | mkRef s =>
      P s /\
      match Items s with Some i => everyRef P i | None => True end /\
      match AdditionalProperties s with Some a => everyRef P a | None => True end /\
      (fix below (m : list (string * SchemaRef float64)) : Prop :=
         match m with
         | [] => True
         | (_, child) :: m' => everyRef P child /\ below m'
         end) (Properties s)
  end.

(** [P] holds of the node and of every node below it. *)
Definition everyNode (P : Schema float64 -> Prop) (s : Schema float64) : Prop :=
  everyRef P (mkRef s).

(** [P] holds of every node below the node. *)
Definition everyChild (P : Schema float64 -> Prop) (s : Schema float64) : Prop :=
  match Items s with Some i => everyNode P (Value i) | None => True end /\
  match AdditionalProperties s with Some a => everyNode P (Value a) | None => True end /\
  Forall (fun kv => everyNode P (Value (snd kv))) (Properties s).

(** The value of a bound fails to parse with the parser the loop uses for
    a node of type [ty]: [Atoi] on a string node, [ParseFloat] otherwise. *)
Definition unparsable (ty val : string) : Prop :=
  if String.eqb ty "string" then Atoi val = None else ParseFloat val = None.

(** If the token is a [min=] or [max=] fragment, its value fails to parse. *)
Definition noParsableBound (ty v : string) : Prop :=
  (HasPrefix v "min=" = true -> unparsable ty (TrimPrefix v "min=")) /\
  (HasPrefix v "max=" = true -> unparsable ty (TrimPrefix v "max=")).

(** The four bounds of a node. *)
Definition bounds {ref : Type} (s : SchemaOf float64 ref)
  : Z * option Z * option float64 * option float64 :=
  (MinLength s, MaxLength s, Min s, Max s).

Definition noBounds : Z * option Z * option float64 * option float64 :=
  (0, None, None, None).

(** The loop body on one field, regrouped by the object it writes to:
    what it does to the field's schema, and what it does to the object
    schema once it holds a reference to the field's schema. *)
Definition decorate {ref : Type} (field : StructField) (fieldSchema : SchemaOf float64 ref)
  : SchemaOf float64 ref :=
  let withEx :=
    if negb (String.eqb (tag_example (Tag field)) "")
    then withExample (Some (tag_example (Tag field))) fieldSchema
    else fieldSchema in
  if negb (String.eqb (tag_validate (Tag field)) "")
  then fold_left (applyValidation ParseFloat) (Split (tag_validate (Tag field)) comma) withEx
  else withEx.

Definition noteRequired {ref : Type} (field : StructField) (schema : SchemaOf float64 ref)
  : SchemaOf float64 ref :=
  if negb (String.eqb (tag_validate (Tag field)) "")
     && (mentionsRequired field && negb (omitIfEmpty field))
  then withRequired (Required schema ++ [serializedName field]) schema
  else schema.

Definition attach {ref : Type} (field : StructField) (child : ref)
    (schema : SchemaOf float64 ref) : SchemaOf float64 ref :=
  withProperties (mapAssign (serializedName field) child (Properties (noteRequired field schema)))
                 (noteRequired field schema).

(** ** Reading a tree off the heap *)

(** The node without its references. *)
Definition attrsOf {ref : Type} (s : SchemaOf float64 ref) : SchemaOf float64 Empty_set :=
  mkSchema (Type_ s) (Format s) None None [] (Required s) (Example s)
           (MinLength s) (MaxLength s) (Min s) (Max s) (Enum s).

(** [within h D p s]: the object at address [p] of the heap [h] is the
    root of the tree [s]; the tree lies inside the set of addresses [D],
    and what hangs below a node never comes back to the node. *)
#[local] Unset Elimination Schemes.
Inductive within (h : Store.Heap float64) : (Store.ptr -> Prop) -> Store.ptr -> Schema float64 -> Prop :=
| within_cell (D : Store.ptr -> Prop) p c s :
    D p ->
    h !! p = Some c ->
    attrsOf c = attrsOf s ->
    option_Forall2 (fun q r => within h (fun x => D x /\ x <> p) q (Value r))
                   (Items c) (Items s) ->
    option_Forall2 (fun q r => within h (fun x => D x /\ x <> p) q (Value r))
                   (AdditionalProperties c) (AdditionalProperties s) ->
    Forall2 (fun kq kr => fst kq = fst kr /\
                          within h (fun x => D x /\ x <> p) (snd kq) (Value (snd kr)))
            (Properties c) (Properties s) ->
    within h D p s.
#[local] Set Elimination Schemes.

(** An update of a node that leaves its references alone and whose
    effect on the rest of the node depends on nothing else. *)
Definition attrUpdate (g : forall ref : Type, SchemaOf float64 ref -> SchemaOf float64 ref) : Prop :=
  (forall (ref : Type) (x : SchemaOf float64 ref),
      Items (g ref x) = Items x /\
      AdditionalProperties (g ref x) = AdditionalProperties x /\
      Properties (g ref x) = Properties x) /\
  (forall (ref : Type) (x : SchemaOf float64 ref),
      attrsOf (g ref x) = g Empty_set (attrsOf x)).

(** The object at [p] is the root of the tree [s]. *)
Definition represents (h : Store.Heap float64) (p : Store.ptr) (s : Schema float64) : Prop :=
  within h (fun _ => True) p s.

(** Every object of [h] is still there, unchanged, in [h']. *)
Definition preserved (h h' : Store.Heap float64) : Prop :=
  forall q c, h !! q = Some c -> h' !! q = Some c.

(** The heap [h] is [h1] except at the two addresses [pf] and [p0],
    where it holds [a] and [b]. *)
Definition twoCells (h1 : Store.Heap float64) (pf p0 : Store.ptr)
    (a b : Store.Cell float64) (h : Store.Heap float64) : Prop :=
  length h = length h1 /\
  h !! pf = Some a /\
  h !! p0 = Some b /\
  forall q, q <> pf -> q <> p0 -> h !! q = h1 !! q.

(** What a call of [Store.generateSchema] on the heap [h] guarantees: it
    returns a fresh address, touches no object of [h], and leaves at that
    address, among the objects it allocated, the tree that
    [generateSchema] computes. *)
Definition derivesAt (t : GoType) : Prop :=
  forall h : Store.Heap float64,
  exists p h',
    Store.generateSchema ParseFloat t h = (p, h') /\
    (length h <= p < length h')%nat /\
    (forall q, (q < length h)%nat -> h' !! q = h !! q) /\
    within h' (fun x => (length h <= x < length h')%nat) p (generateSchema ParseFloat t).

(** The state of the loop over the fields of a struct: the object schema
    at [p0] mirrors the tree [sk] built so far, and the schemas of the
    fields seen so far lie above it. *)
Definition loopState (p0 : Store.ptr) (hk : Store.Heap float64) (sk : Schema float64) : Prop :=
  (p0 < length hk)%nat /\
  exists ck,
    hk !! p0 = Some ck /\
    attrsOf ck = attrsOf sk /\
    Items ck = None /\ Items sk = None /\
    AdditionalProperties ck = None /\ AdditionalProperties sk = None /\
    Forall2 (fun kq kr => fst kq = fst kr /\
                          within hk (fun x => (p0 < x < length hk)%nat) (snd kq) (Value (snd kr)))
            (Properties ck) (Properties sk).

End SchemaVocabulary.

Arguments hasLengthBound {float64 ref} s.
Arguments hasNumericBound {float64 ref} s.
Arguments boundsGated {float64 ref} s.
Arguments everyRef {float64} P r.
Arguments everyNode {float64} P s.
Arguments everyChild {float64} P s.
Arguments unparsable {float64} ParseFloat ty val.
Arguments noParsableBound {float64} ParseFloat ty v.
Arguments bounds {float64 ref} s.
Arguments noBounds {float64}.
Arguments decorate {float64} ParseFloat {ref} field fieldSchema.
Arguments noteRequired {float64 ref} field schema.
Arguments attach {float64 ref} field child schema.
Arguments attrsOf {float64 ref} s.
Arguments within {float64} h D p s.
Arguments represents {float64} h p s.
Arguments preserved {float64} h h'.
Arguments attrUpdate {float64} g.
Arguments twoCells {float64} h1 pf p0 a b h.
Arguments derivesAt {float64} ParseFloat t.
Arguments loopState {float64} p0 hk sk.

(** ** Replies and failures *)

(** The failure channel of a handler as the design document sees it: the
    last result, when it is a non-nil error, whatever the arity. *)
Definition reportedFailure (results : list GoValue) : option GoError :=
  match results with
  | [] => None
  | first :: _ => asError (List.last results first)
  end.

Definition errorText (e : GoError) : string :=
  match e with
  | HTTPError _ message => message
  | OtherError text => text
  end.

Definition errorStatus (e : GoError) : Z :=
  match e with
  | HTTPError code _ => code
  | OtherError _ => StatusInternalServerError
  end.

(** The two fields of an envelope exclude each other. *)
Definition exclusive (r : Response) : Prop :=
  (Success r = true -> Error r = "") /\ (Success r = false -> Data r = None).

Definition bodyCarrying (method : string) : bool :=
  String.eqb method "POST" || String.eqb method "PUT" || String.eqb method "PATCH".

Section PipelineVocabulary.

Context {Ctx Instance Val : Type} `{Collaborators Ctx Instance Val}.

(** A well-behaved path binder: when it succeeds, every field of the
    instance bound to a path variable holds that variable's value. *)
Definition PathBinderOverrides : Prop :=
  forall (c : Ctx) (req req' : Instance) (name : string) (v : Val),
    BindPathParams c req = BindOk req' ->
    PathParam c name = Some v ->
    Lookup req name <> None ->
    Lookup req' name = Some v.

(** The handler value is a function. *)
Definition isCallable (handler : option (@Handler Ctx Instance)) : bool :=
  match handler with
  | Some h => match handlerType h with TFunc _ _ => true | _ => false end
  | None => false
  end.

(** The handler value is a function whose first parameter is Echo's
    context. *)
Definition takesContextFirst (handler : option (@Handler Ctx Instance)) : bool :=
  match handler with
  | Some h =>
      match handlerType h with
      | TFunc (TInterface name :: _) _ => String.eqb name "echo.Context"
      | _ => false
      end
  | None => false
  end.

End PipelineVocabulary.

(** ** A small concrete transport, to run the adapter on examples *)

Module Demo.

(** A request: verb, matched path variables, query string and decoded
    body ([None] when the payload is malformed). *)
Record Request := mkRequest {
  method : string;
  pathVars : list (string * string);
  queryVars : list (string * string);
  body : option (list (string * string))
}.

(** An instance of a struct: its fields, each with its current value. *)
Definition Inst : Type := list (StructField * string).

Definition zero (rt : GoType) : Inst :=
  match rt with
  | TStruct _ fields => List.map (fun f => (f, "")) fields
  | _ => []
  end.

(** Copy into every field the value the source has under the field's
    binding name, when it has one. *)
Definition overlay (key : StructField -> string) (src : list (string * string))
    (inst : Inst) : Inst :=
  List.map (fun fv : StructField * string =>
              let (f, v) := fv in
              if String.eqb (key f) "" then (f, v)
              else match mapLookup (key f) src with
                   | Some v' => (f, v')
                   | None => (f, v)
                   end) inst.

Fixpoint findParam (inst : Inst) (name : string) : option string :=
  match inst with
  | [] => None
  | (f, v) :: inst' =>
      if String.eqb (tag_param (Tag f)) name then Some v else findParam inst' name
  end.

(** The value of the field whose [param] tag is [name]; no field is bound
    to the empty name. *)
Definition lookupParam (inst : Inst) (name : string) : option string :=
  if String.eqb name "" then None else findParam inst name.

(** The first field marked [required] that is still empty. *)
Fixpoint validate (inst : Inst) : option string :=
  match inst with
  | [] => None
  | (f, v) :: inst' =>
      if ConstraintSet_required f && String.eqb v "" then
        Some ("Field validation for '" ++ Name f ++ "' failed on the 'required' tag")
      else validate inst'
  end.

#[global] Instance transport : Collaborators Request Inst string := {|
  RequestMethod := method;
  PathParam := fun c name => mapLookup name (pathVars c);
  New := zero;
  Lookup := lookupParam;
  BindQueryParams := fun c inst => BindOk (overlay (fun f => tag_query (Tag f)) (queryVars c) inst);
  Bind := fun c inst =>
    match body c with
    | Some fields => BindOk (overlay serializedName fields inst)
    | None => BindErr "unexpected EOF"
    end;
  BindPathParams := fun c inst => BindOk (overlay (fun f => tag_param (Tag f)) (pathVars c) inst);
  Struct := validate
|}.

(** A parser standing for [strconv.ParseFloat] on examples: decimal
    integers only. *)
Definition parseInteger : string -> option Z := Atoi.

Definition contextType : GoType := TInterface "echo.Context".
Definition errorType : GoType := TInterface "error".

Definition nameField : StructField :=
  mkField "Name" TString (mkTag "name" "required,min=2" "" "" "").

Definition emailField : StructField :=
  mkField "Email" TString (mkTag "email" "required,email" "" "" "").

Definition CreateUserRequest : GoType :=
  TStruct "main.CreateUserRequest" [nameField; emailField].

Definition UpdateUserRequest : GoType :=
  TStruct "main.UpdateUserRequest"
    [ mkField "ID" TString (mkTag "id" "required" "" "" "id");
      mkField "Name" TString (mkTag "name" "required" "" "" "") ].

Definition TestUser (id name email : string) : GoValue :=
  VStruct [("ID", VString id); ("Name", VString name); ("Email", VString email)].

(** [func(c echo.Context, req CreateUserRequest) (TestUser, error)],
    always succeeding. *)
Definition createUser : @Handler Request Inst :=
  mkHandler (TFunc [contextType; CreateUserRequest] [TOther "struct"; errorType])
            (fun _ => [TestUser "123" "John Doe" "john@example.com"; VError None]).

(** [func(c echo.Context) error] failing with
    [echo.NewHTTPError(404, "todo not found")]. *)
Definition deleteTodo : @Handler Request Inst :=
  mkHandler (TFunc [contextType] [errorType])
            (fun _ => [VError (Some (HTTPError 404 "todo not found"))]).

(** [func(c echo.Context) (UserResponse, error)] failing with
    [echo.NewHTTPError(404, "user not found")]. *)
Definition getUser : @Handler Request Inst :=
  mkHandler (TFunc [contextType] [TOther "struct"; errorType])
            (fun _ => [TestUser "" "" ""; VError (Some (HTTPError 404 "user not found"))]).

(** [func(c echo.Context) ([]TestUser, error)] returning a nil slice. *)
Definition listNothing : @Handler Request Inst :=
  mkHandler (TFunc [contextType] [TSlice (TOther "struct"); errorType])
            (fun _ => [VSlice None; VError None]).

(** A handler failing with [errors.New("")]. *)
Definition failSilently : @Handler Request Inst :=
  mkHandler (TFunc [contextType] [TOther "struct"; errorType])
            (fun _ => [TestUser "" "" ""; VError (Some (OtherError ""))]).

(** [func(n int) string]: a function, but not one taking a context. *)
Definition notAnAdapterTarget : @Handler Request Inst :=
  mkHandler (TFunc [TInt] [TString]) (fun _ => [VString "ok"]).

Definition emptyApp : @App Request Inst := mkApp [] [].

(** [POST /users] with a body that has a name and no email. *)
Definition postWithoutEmail : Request :=
  mkRequest "POST" [] [] (Some [("name", "Jo")]).

(** [POST /users] with a complete body. *)
Definition postUser : Request :=
  mkRequest "POST" [] [] (Some [("name", "John Doe"); ("email", "john@example.com")]).

(** [PUT /users/42] with a body that names another id. *)
Definition putUser : Request :=
  mkRequest "PUT" [("id", "42")] [] (Some [("id", "7"); ("name", "Jo")]).

(** [Status string `json:"status" validate:"oneof=required optional"`]. *)
Definition statusField : StructField :=
  mkField "Status" TString (mkTag "status" "oneof=required optional" "" "" "").

(** [Secret string `json:"-" validate:"required"`]. *)
Definition secretField : StructField :=
  mkField "Secret" TString (mkTag "-" "required" "" "" "").

(** [Nick string `json:"nick" validate:"min=abc,max=1x"`]. *)
Definition nickField : StructField :=
  mkField "Nick" TString (mkTag "nick" "min=abc,max=1x" "" "" "").

Definition Account : GoType :=
  TStruct "main.Account" [statusField; secretField].

End Demo.

(** ** Further vocabulary: schema nodes *)

Section NodeVocabulary.

Variable float64 : Type.

(** The node is a plain object schema, as the accumulator of the loop
    over a struct's fields is. *)
Definition isObject (s : Schema float64) : Prop :=
  Type_ s = "object" /\ Items s = None /\ AdditionalProperties s = None.

(** Every name of the required list is the name of a property. *)
Definition requiredAreProperties (s : Schema float64) : Prop :=
  forall name, In name (Required s) -> mapLookup name (Properties s) <> None.

(** The six schema types the derivation uses. *)
Definition schemaTypes : list string :=
  ["string"; "integer"; "number"; "boolean"; "array"; "object"].

(** The shape of a derived node: its type is one of the six; it has
    items exactly when it is an array; only an object has properties, a
    value schema for additional properties or a required list; and its
    length bounds are values of a [uint64]. *)
Definition nodeShape (s : Schema float64) : Prop :=
  In (Type_ s) schemaTypes /\
  (Items s <> None <-> Type_ s = "array") /\
  (AdditionalProperties s <> None -> Type_ s = "object") /\
  (Properties s <> [] -> Type_ s = "object") /\
  (Required s <> [] -> Type_ s = "object") /\
  0 <= MinLength s < 2 ^ 64 /\
  (forall n, MaxLength s = Some n -> 0 <= n < 2 ^ 64).

End NodeVocabulary.

Arguments isObject {float64} s.
Arguments requiredAreProperties {float64} s.
Arguments nodeShape {float64} s.

(** The type is a pointer type. *)
Definition isPointer (t : GoType) : bool :=
  match t with TPtr _ => true | _ => false end.

(** The length bounds of the node are values of a [uint64]. *)
Definition lengthsInRange {float64 ref : Type} (s : SchemaOf float64 ref) : Prop :=
  0 <= MinLength s < 2 ^ 64 /\ (forall n, MaxLength s = Some n -> 0 <= n < 2 ^ 64).

(** ** Further vocabulary: requests and the document *)

(** The verbs whose input is bound from the query string. *)
Definition readVerb (method : string) : bool :=
  String.eqb method "GET" || String.eqb method "DELETE".

(** The verbs [registerRoute] and [addRouteToSpec] know. *)
Definition knownVerb (method : string) : bool :=
  existsb (String.eqb method) ["GET"; "POST"; "PUT"; "PATCH"; "DELETE"].

(** The segment is a path variable of Echo: it starts with a colon. *)
Definition isVariable (part : string) : bool := HasPrefix part ":".

(** The segment starts with an opening brace, as the document's path
    variables do. *)
Definition opensBrace (part : string) : bool := HasPrefix part "{".

(** The segments of an Echo path. *)
Definition segments (path : string) : list string := Split path slash.


Section DocumentVocabulary.

Variable float64 : Type.
Variable ParseFloat : string -> option float64.

(** The operation a path item holds for a verb. *)
Definition operationFor (method : string) (item : Doc.PathItem float64)
  : option (Doc.Operation float64) :=
  if String.eqb method "GET" then Doc.Get item
  else if String.eqb method "POST" then Doc.Post item
  else if String.eqb method "PUT" then Doc.Put item
  else if String.eqb method "PATCH" then Doc.Patch item
  else if String.eqb method "DELETE" then Doc.Delete item
  else None.

(** The same for the entry of a path, which may be missing. *)
Definition slotOf (method : string) (entry : option (Doc.PathItem float64))
  : option (Doc.Operation float64) :=
  match entry with
  | Some item => operationFor method item
  | None => None
  end.

(** The operation the document holds for a path and a verb. *)
Definition operationAt (spec : Doc.T float64) (path method : string)
  : option (Doc.Operation float64) :=
  slotOf method (Doc.Paths spec !! path).

(** The document path and the verb a route is documented under. *)
Definition target (route : Doc.RouteInfo) : string * string :=
  (Doc.convertPath (Doc.Path route), Doc.Method route).

Definition aims (path method : string) (t : string * string) : bool :=
  String.eqb path (fst t) && String.eqb (snd t) method.

Definition documentedAt (path method : string) (route : Doc.RouteInfo) : bool :=
  aims path method (target route).

(** What [addRouteToSpec] does to the entry of one path (lines 371-373
    and 578-589). *)
Definition routeStep (path : string) (entry : option (Doc.PathItem float64))
    (route : Doc.RouteInfo) : option (Doc.PathItem float64) :=
  if String.eqb path (Doc.convertPath (Doc.Path route))
  then Some (Doc.setOperation (Doc.Method route) (Doc.operationOf ParseFloat route)
               (match entry with
                | Some item => item
                | None => Doc.mkPathItem None None None None None
                end))
  else entry.

End DocumentVocabulary.

Arguments operationFor {float64} method item.
Arguments slotOf {float64} method entry.
Arguments operationAt {float64} spec path method.
Arguments routeStep {float64} ParseFloat path entry route.

(** The handler of the route takes an input shape. *)
Definition hasInputShape (route : Doc.RouteInfo) : bool :=
  match Doc.RequestType route with Some _ => true | None => false end.

(** ** Sample inputs of the further properties *)

Module Sample.

(** A transport like [Demo.transport] whose body binder always fails. *)
Definition bodiless : Collaborators Demo.Request Demo.Inst string := {|
  RequestMethod := Demo.method;
  PathParam := fun c name => mapLookup name (Demo.pathVars c);
  New := Demo.zero;
  Lookup := Demo.lookupParam;
  BindQueryParams := fun c inst =>
    BindOk (Demo.overlay (fun f => tag_query (Tag f)) (Demo.queryVars c) inst);
  Bind := fun _ _ => BindErr "EOF";
  BindPathParams := fun c inst =>
    BindOk (Demo.overlay (fun f => tag_param (Tag f)) (Demo.pathVars c) inst);
  Struct := Demo.validate
|}.

(** [GET /users?name=Jo&email=jo@example.com]. *)
Definition getUsers : Demo.Request :=
  Demo.mkRequest "GET" [] [("name", "Jo"); ("email", "jo@example.com")] None.

(** [Alias int `json:"name"`]: a second field serialized as [name]. *)
Definition aliasField : StructField :=
  mkField "Alias" TInt (mkTag "name" "" "" "" "").

(** [Bio string `json:",omitempty"`]. *)
Definition bioField : StructField :=
  mkField "Bio" TString (mkTag ",omitempty" "" "" "" "").

(** [Route{SuccessStatus: 201}]. *)
Definition created : Doc.Route := Doc.mkRoute [] 201 [] ∅ [] ∅.

(** [app.POST("/users", createUser, Route{SuccessStatus: 201})]. *)
Definition postUsers : Doc.RouteInfo :=
  Doc.mkRouteInfo "POST" "/users" "Create user" "" ["users"]
                  (Some Demo.CreateUserRequest) (Some (TOther "struct")) (Some created).

Definition requestID : Doc.HeaderInfo := Doc.mkHeaderInfo "Request id" true "".
Definition traceID : Doc.HeaderInfo := Doc.mkHeaderInfo "Trace id" false "string".

(** [GET /users/:id] with two request headers, visited in one order and
    in the other. *)
Definition getUser (headers : list (string * Doc.HeaderInfo)) : Doc.RouteInfo :=
  Doc.mkRouteInfo "GET" "/users/:id" "Get user" "" ["users"]
                  None (Some (TOther "struct"))
                  (Some (Doc.mkRoute [] 0 headers ∅ [] ∅)).

Definition headers : list (string * Doc.HeaderInfo) :=
  [("X-Request-ID", requestID); ("X-Trace-ID", traceID)].

End Sample.

Section RegistrationVocabulary.

Context {Ctx Instance Val : Type} `{Collaborators Ctx Instance Val}.

(** The five registration methods, each with its verb. *)
Definition registrars
  : list (string * (string -> option (@Handler Ctx Instance) -> list Route ->
                    @App Ctx Instance -> Outcome (@App Ctx Instance))) :=
  [("GET", GET); ("POST", POST); ("PUT", PUT); ("PATCH", PATCH); ("DELETE", DELETE)].

(** The verbs and paths kept for the document, and those handed to
    Echo's router, in the order of registration. *)
Definition documented (app : @App Ctx Instance) : list (string * string) :=
  List.map (fun info => (riMethod info, riPath info)) (routes app).

Definition served (app : @App Ctx Instance) : list (string * string) :=
  List.map (fun entry => fst entry) (echoRoutes app).

End RegistrationVocabulary.

(** * Induction principles *)

(** ** Structural induction on types, through fields and signatures *)

Section GoTypeInduction.

Variable P : GoType -> Prop.
Hypothesis HString : P TString.
Hypothesis HInt : P TInt.
Hypothesis HInt32 : P TInt32.
Hypothesis HInt64 : P TInt64.
Hypothesis HFloat32 : P TFloat32.
Hypothesis HFloat64 : P TFloat64.
Hypothesis HBool : P TBool.
Hypothesis HSlice : forall elem, P elem -> P (TSlice elem).
Hypothesis HMap : forall key elem, P key -> P elem -> P (TMap key elem).
Hypothesis HStruct : forall name fields,
  Forall (fun f => P (Typ f)) fields -> P (TStruct name fields).
Hypothesis HPtr : forall elem, P elem -> P (TPtr elem).
Hypothesis HInterface : forall name, P (TInterface name).
Hypothesis HFunc : forall ins outs, Forall P ins -> Forall P outs -> P (TFunc ins outs).
Hypothesis HOther : forall kind, P (TOther kind).

Fixpoint GoType_ind (t : GoType) : P t :=
  match t with
  | TString => HString
  | TInt => HInt
  | TInt32 => HInt32
  | TInt64 => HInt64
  | TFloat32 => HFloat32
  | TFloat64 => HFloat64
  | TBool => HBool
  | TSlice elem => HSlice elem (GoType_ind elem)
  | TMap key elem => HMap key elem (GoType_ind key) (GoType_ind elem)
  | TStruct name fields =>
      HStruct name fields
        ((fix fields_ind (fs : list StructField) : Forall (fun f => P (Typ f)) fs :=
            match fs with
            | [] => @List.Forall_nil _ _
            | f :: fs' => @List.Forall_cons _ _ f fs' (GoType_ind (Typ f)) (fields_ind fs')
            end) fields)
  | TPtr elem => HPtr elem (GoType_ind elem)
  | TInterface name => HInterface name
  | TFunc ins outs =>
      let types_ind :=
        fix types_ind (ts : list GoType) : Forall P ts :=
          match ts with
          | [] => @List.Forall_nil _ _
          | t' :: ts' => @List.Forall_cons _ _ t' ts' (GoType_ind t') (types_ind ts')
          end in
      HFunc ins outs (types_ind ins) (types_ind outs)
  | TOther kind => HOther kind
  end.

End GoTypeInduction.

(** ** Structural induction on schema trees, through their references *)

Section SchemaInduction.

Variable float64 : Type.
Variable P : Schema float64 -> Prop.
Hypothesis HNode : forall s : Schema float64,
  (forall r, Items s = Some r -> P (Value r)) ->
  (forall r, AdditionalProperties s = Some r -> P (Value r)) ->
  Forall (fun kr => P (Value (snd kr))) (Properties s) ->
  P s.

Fixpoint SchemaRef_ind (r : SchemaRef float64) : P (Value r) :=
  match r with
  | mkRef s =>
      HNode s
        (match Items s as o return forall r', o = Some r' -> P (Value r') with
         | Some i => fun r' (E : Some i = Some r') =>
             match E in _ = o' return match o' with Some x => P (Value x) | None => True end with
             | eq_refl => SchemaRef_ind i
             end
         | None => fun r' (E : None = Some r') =>
             match E in _ = o' return match o' with Some x => P (Value x) | None => True end with
             | eq_refl => I
             end
         end)
        (match AdditionalProperties s as o return forall r', o = Some r' -> P (Value r') with
         | Some a => fun r' (E : Some a = Some r') =>
             match E in _ = o' return match o' with Some x => P (Value x) | None => True end with
             | eq_refl => SchemaRef_ind a
             end
         | None => fun r' (E : None = Some r') =>
             match E in _ = o' return match o' with Some x => P (Value x) | None => True end with
             | eq_refl => I
             end
         end)
        ((fix below (m : list (string * SchemaRef float64))
            : Forall (fun kr => P (Value (snd kr))) m :=
            match m with
            | [] => @List.Forall_nil _ _
            | kr :: m' =>
                @List.Forall_cons _ _ kr m'
                  (match kr return P (Value (snd kr)) with
                   | (_, child) => SchemaRef_ind child
                   end)
                  (below m')
            end) (Properties s))
  end.

Definition Schema_ind (s : Schema float64) : P s := SchemaRef_ind (mkRef s).

End SchemaInduction.


(** * Properties *)

(** ** Facts about the string helpers *)

Lemma HasPrefix_inv s p :
  HasPrefix s p = true -> s = p ++ dropBytes (String.length p) s.
Proof.
  revert s. induction p as [|c p IH]; intros s Hp; [reflexivity|].
  destruct s as [|d s]; [discriminate Hp|]. cbn in Hp |- *.
  apply andb_true_iff in Hp as [Hc Hp]. apply Ascii.eqb_eq in Hc. subst d.
  change (String c s = String c (p ++ dropBytes (String.length p) s)).
  f_equal. exact (IH s Hp).
Qed.

Lemma min_token_inv v :
  HasPrefix v "min=" = true ->
  exists val, v = String "m" (String "i" (String "n" (String "=" val))).
Proof.
  intros Hp. exists (dropBytes 4 v). rewrite (HasPrefix_inv _ _ Hp) at 1. reflexivity.
Qed.

Lemma max_token_inv v :
  HasPrefix v "max=" = true ->
  exists val, v = String "m" (String "a" (String "x" (String "=" val))).
Proof.
  intros Hp. exists (dropBytes 4 v). rewrite (HasPrefix_inv _ _ Hp) at 1. reflexivity.
Qed.

Lemma Contains_empty s : Contains s "" = true.
Proof. destruct s; reflexivity. Qed.

Lemma Contains_cons c s sub : Contains s sub = true -> Contains (String c s) sub = true.
Proof. intros Hc. cbn [Contains]. rewrite Hc. apply orb_true_r. Qed.

Lemma Contains_prefix s sub : HasPrefix s sub = true -> Contains s sub = true.
Proof. intros Hp. destruct s; cbn [Contains]; rewrite Hp; reflexivity. Qed.

(** The first piece of a split is a prefix of the string. *)
Lemma Split_head_prefix sep s piece pieces :
  Split s sep = piece :: pieces -> HasPrefix s piece = true.
Proof.
  revert piece pieces. induction s as [|c s IH]; intros piece pieces; cbn [Split].
  - intros [= <- _]. reflexivity.
  - destruct (Ascii.eqb c sep).
    + intros [= <- _]. reflexivity.
    + destruct (Split s sep) as [|p ps] eqn:Hs.
      * intros [= <- _]. cbn. rewrite Ascii.eqb_refl. reflexivity.
      * intros [= <- _]. cbn. rewrite Ascii.eqb_refl. exact (IH p ps eq_refl).
Qed.

(** Every piece of a split occurs in the string: a whole token is in
    particular a substring. *)
Lemma Split_In_Contains sep tok s :
  In tok (Split s sep) -> Contains s tok = true.
Proof.
  induction s as [|c s IH]; cbn [Split].
  - intros [<- | []]. reflexivity.
  - destruct (Ascii.eqb c sep).
    + intros [<- | Hin]; [apply Contains_empty | apply Contains_cons, IH, Hin].
    + destruct (Split s sep) as [|p ps] eqn:Hs.
      * intros [<- | []]. apply Contains_prefix. cbn.
        rewrite Ascii.eqb_refl. reflexivity.
      * intros [<- | Hin].
        -- apply Contains_prefix. cbn. rewrite Ascii.eqb_refl.
           exact (Split_head_prefix sep s p ps Hs).
        -- apply Contains_cons, IH. right. exact Hin.
Qed.

(** ** Required fields of a derived object schema *)

Lemma ConstraintSet_required_mentions f :
  ConstraintSet_required f = true -> mentionsRequired f = true.
Proof.
  unfold ConstraintSet_required, mentionsRequired. intros Hex.
  apply existsb_exists in Hex as (tok & Hin & Heq).
  apply String.eqb_eq in Heq. subst tok.
  exact (Split_In_Contains comma _ _ Hin).
Qed.

Lemma NoDup_map_injective {A B : Type} (f : A -> B) (l : list A) x y :
  List.NoDup (List.map f l) -> In x l -> In y l -> f x = f y -> x = y.
Proof.
  induction l as [|a l IH]; cbn [List.map]; intros Hnd Hx Hy Hxy; [destruct Hx|].
  apply List.NoDup_cons_iff in Hnd as [Hnotin Hnd].
  destruct Hx as [-> | Hx], Hy as [-> | Hy].
  - reflexivity.
  - exfalso. apply Hnotin. rewrite Hxy. apply List.in_map. exact Hy.
  - exfalso. apply Hnotin. rewrite <- Hxy. apply List.in_map. exact Hx.
  - exact (IH Hnd Hx Hy Hxy).
Qed.

Section DerivationFacts.

Variable float64 : Type.
Variable ParseFloat : string -> option float64.

Local Abbreviation derive := (generateSchema ParseFloat).

Lemma addField_Required (schema : Schema float64) (field : StructField) :
  Required (addField ParseFloat derive schema field) =
  (Required schema ++ (if listedRequired field then [serializedName field] else []))%list.
Proof.
  unfold addField, listedRequired, excluded, mentionsRequired, omitIfEmpty, serializedName.
  destruct (String.eqb (tag_json (Tag field)) "-"); cbn [negb andb].
  - symmetry. apply List.app_nil_r.
  - destruct (String.eqb (tag_validate (Tag field)) "") eqn:Hv; cbn [negb andb].
    + apply String.eqb_eq in Hv. rewrite Hv. cbn. symmetry. apply List.app_nil_r.
    + destruct (Contains (tag_validate (Tag field)) "required"
                && negb (jsonOmitempty (tag_json (Tag field)))); cbn.
      * reflexivity.
      * symmetry. apply List.app_nil_r.
Qed.

Lemma fold_addField_Required (fields : list StructField) (schema : Schema float64) :
  Required (fold_left (addField ParseFloat derive) fields schema) =
  (Required schema ++ List.map serializedName (List.filter listedRequired fields))%list.
Proof.
  revert schema. induction fields as [|f fields IH]; intros schema; cbn [fold_left List.filter].
  - symmetry. apply List.app_nil_r.
  - rewrite IH, addField_Required.
    destruct (listedRequired f); cbn [List.map].
    + rewrite <- List.app_assoc. reflexivity.
    + rewrite List.app_nil_r. reflexivity.
Qed.

Lemma generateSchema_struct name fields :
  String.eqb name "time.Time" = false ->
  derive (TStruct name fields) =
  fold_left (addField ParseFloat derive) fields (schemaOfType "object").
Proof. intros Hname. cbn. rewrite Hname. reflexivity. Qed.

Lemma Required_generateSchema name fields :
  String.eqb name "time.Time" = false ->
  Required (derive (TStruct name fields)) =
  List.map serializedName (List.filter listedRequired fields).
Proof.
  intros Hname. rewrite (generateSchema_struct _ _ Hname), fold_addField_Required.
  reflexivity.
Qed.

End DerivationFacts.

(** ** Bounds on schema nodes *)

Section BoundFacts.

Variable float64 : Type.
Variable ParseFloat : string -> option float64.

Local Abbreviation derive := (generateSchema ParseFloat).
Local Abbreviation SchemaNode := (Schema float64).

Lemma everyNode_unfold (P : SchemaNode -> Prop) s : everyNode P s <-> P s /\ everyChild P s.
Proof.
  unfold everyNode, everyChild. cbn [everyRef].
  assert (Hprops : forall m : list (string * SchemaRef float64),
    (fix below (m : list (string * SchemaRef float64)) : Prop :=
       match m with
       | [] => True
       | (_, child) :: m' => everyRef P child /\ below m'
       end) m <-> Forall (fun kv => everyRef P (mkRef (Value (snd kv)))) m).
  { induction m as [|[k [child]] m IH].
    - split; [constructor | trivial].
    - rewrite List.Forall_cons_iff, <- IH. reflexivity. }
  rewrite Hprops.
  destruct (Items s) as [[i]|], (AdditionalProperties s) as [[a]|]; reflexivity.
Qed.

Lemma everyNode_leaf (P : SchemaNode -> Prop) ty :
  P (schemaOfType ty) -> everyNode P (schemaOfType ty).
Proof. intros HP. apply everyNode_unfold. split; [exact HP|]. repeat split. constructor. Qed.

Lemma mapAssign_Forall {V : Type} (Q : string * V -> Prop) k v m :
  Q (k, v) -> Forall Q m -> Forall Q (mapAssign k v m).
Proof.
  intros Hv Hm. induction Hm as [|[k' v'] m Hkv Hm IH]; cbn [mapAssign].
  - constructor; [exact Hv | constructor].
  - destruct (String.eqb k' k); constructor; assumption.
Qed.

Ltac split_apply :=
  unfold applyValidation, applyOneof, applyEmail, applyMax, applyMin;
  repeat match goal with
         | |- context [if ?b then _ else _] => destruct b eqn:?
         | |- context [match Atoi ?x with _ => _ end] => destruct (Atoi x) eqn:?
         | |- context [match ParseFloat ?x with _ => _ end] => destruct (ParseFloat x) eqn:?
         end.

(** A validation token changes neither the type of the node nor its
    references. *)
Lemma applyValidation_frame {ref : Type} (s : SchemaOf float64 ref) v :
  Type_ (applyValidation ParseFloat s v) = Type_ s /\
  Items (applyValidation ParseFloat s v) = Items s /\
  AdditionalProperties (applyValidation ParseFloat s v) = AdditionalProperties s /\
  Properties (applyValidation ParseFloat s v) = Properties s.
Proof. split_apply; cbn; auto. Qed.

Lemma applyMin_gated {ref : Type} (s : SchemaOf float64 ref) v :
  boundsGated s -> boundsGated (applyMin ParseFloat v s).
Proof.
  unfold applyMin. intros [Hlen Hnum].
  destruct (HasPrefix v "min="); [|split; assumption].
  destruct (negb _); [|split; assumption].
  destruct (String.eqb (Type_ s) "string") eqn:Hstr.
  - apply String.eqb_eq in Hstr.
    destruct (Atoi _); [|split; assumption].
    split; cbn; [intros _; exact Hstr | exact Hnum].
  - destruct (String.eqb (Type_ s) "integer" || String.eqb (Type_ s) "number") eqn:Hn;
      [|split; assumption].
    destruct (ParseFloat _); [|split; assumption].
    split; cbn; [exact Hlen | intros _].
    apply orb_true_iff in Hn as [Hn | Hn]; apply String.eqb_eq in Hn; auto.
Qed.

Lemma applyMax_gated {ref : Type} (s : SchemaOf float64 ref) v :
  boundsGated s -> boundsGated (applyMax ParseFloat v s).
Proof.
  unfold applyMax. intros [Hlen Hnum].
  destruct (HasPrefix v "max="); [|split; assumption].
  destruct (negb _); [|split; assumption].
  destruct (String.eqb (Type_ s) "string") eqn:Hstr.
  - apply String.eqb_eq in Hstr.
    destruct (Atoi _); [|split; assumption].
    split; cbn; [intros _; exact Hstr | exact Hnum].
  - destruct (String.eqb (Type_ s) "integer" || String.eqb (Type_ s) "number") eqn:Hn;
      [|split; assumption].
    destruct (ParseFloat _); [|split; assumption].
    split; cbn; [exact Hlen | intros _].
    apply orb_true_iff in Hn as [Hn | Hn]; apply String.eqb_eq in Hn; auto.
Qed.

Lemma applyValidation_gated {ref : Type} (s : SchemaOf float64 ref) v :
  boundsGated s -> boundsGated (applyValidation ParseFloat s v).
Proof.
  intros Hs. unfold applyValidation.
  assert (Hmm : boundsGated (applyMax ParseFloat v (applyMin ParseFloat v s)))
    by apply applyMax_gated, applyMin_gated, Hs.
  revert Hmm. generalize (applyMax ParseFloat v (applyMin ParseFloat v s)). intros s' Hs'.
  unfold applyOneof, applyEmail.
  destruct (HasPrefix v "oneof="), (String.eqb v "email"); exact Hs'.
Qed.

Lemma everyNode_applyValidation (s : SchemaNode) v :
  everyNode boundsGated s -> everyNode boundsGated (applyValidation ParseFloat s v).
Proof.
  rewrite !everyNode_unfold. intros [Hroot Hbelow].
  split; [apply applyValidation_gated, Hroot|].
  destruct (applyValidation_frame s v) as (_ & Hi & Ha & Hp).
  unfold everyChild. rewrite Hi, Ha, Hp. exact Hbelow.
Qed.

Lemma everyNode_validations (vs : list string) (s : SchemaNode) :
  everyNode boundsGated s ->
  everyNode boundsGated (fold_left (applyValidation ParseFloat) vs s).
Proof.
  revert s. induction vs as [|v vs IH]; intros s Hs; cbn [fold_left]; [exact Hs|].
  apply IH, everyNode_applyValidation, Hs.
Qed.

Lemma everyNode_withExample e (s : SchemaNode) :
  everyNode boundsGated s -> everyNode boundsGated (withExample e s).
Proof. rewrite !everyNode_unfold. intros [Hroot Hbelow]. split; assumption. Qed.

Lemma everyNode_withRequired r (s : SchemaNode) :
  everyNode boundsGated s -> everyNode boundsGated (withRequired r s).
Proof. rewrite !everyNode_unfold. intros [Hroot Hbelow]. split; assumption. Qed.

Lemma everyNode_assignProperty name (child s : SchemaNode) :
  everyNode boundsGated child -> everyNode boundsGated s ->
  everyNode boundsGated (withProperties (mapAssign name (mkRef child) (Properties s)) s).
Proof.
  intros Hchild. rewrite !everyNode_unfold. intros [Hroot (Hi & Ha & Hp)].
  split; [exact Hroot|]. split; [exact Hi|]. split; [exact Ha|].
  cbn [Properties withProperties].
  apply mapAssign_Forall; [exact Hchild | exact Hp].
Qed.

Lemma everyNode_addField (deriveField : GoType -> SchemaNode) schema field :
  everyNode boundsGated (deriveField (Typ field)) ->
  everyNode boundsGated schema ->
  everyNode boundsGated (addField ParseFloat deriveField schema field).
Proof.
  intros Hfield Hschema. unfold addField.
  destruct (String.eqb (tag_json (Tag field)) "-"); [exact Hschema|].
  destruct (negb (String.eqb (tag_example (Tag field)) ""));
    destruct (negb (String.eqb (tag_validate (Tag field)) ""));
    cbn [andb];
    try destruct (Contains (tag_validate (Tag field)) "required"
                  && negb (jsonOmitempty (tag_json (Tag field))));
    apply everyNode_assignProperty;
    try apply everyNode_validations;
    try apply everyNode_withExample;
    try apply everyNode_withRequired;
    assumption.
Qed.

Lemma everyNode_fields (fields : list StructField) schema :
  Forall (fun f => everyNode boundsGated (derive (Typ f))) fields ->
  everyNode boundsGated schema ->
  everyNode boundsGated (fold_left (addField ParseFloat derive) fields schema).
Proof.
  intros Hfields. revert schema.
  induction Hfields as [|f fields Hf Hfields IH]; intros schema Hschema; cbn [fold_left].
  - exact Hschema.
  - apply IH, everyNode_addField; assumption.
Qed.

Lemma boundsGated_fresh {ref : Type} ty : boundsGated (schemaOfType (float64:=float64) (ref:=ref) ty).
Proof. split; intros [Hb | Hb]; cbn in Hb; congruence. Qed.

Lemma generateSchema_ptr elem :
  derive (TPtr elem) =
  match elem with
  | TPtr _ => schemaOfType "object"
  | _ => derive elem
  end.
Proof. destruct elem; reflexivity. Qed.

Lemma everyNode_array (child : SchemaNode) :
  everyNode boundsGated child ->
  everyNode boundsGated (withItems (Some (mkRef child)) (schemaOfType "array")).
Proof.
  intros Hchild. apply everyNode_unfold. split; [apply boundsGated_fresh|].
  split; [exact Hchild|]. split; [exact I | constructor].
Qed.

Lemma everyNode_mapping (child : SchemaNode) :
  everyNode boundsGated child ->
  everyNode boundsGated (withAdditionalProperties (Some (mkRef child)) (schemaOfType "object")).
Proof.
  intros Hchild. apply everyNode_unfold. split; [apply boundsGated_fresh|].
  split; [exact I|]. split; [exact Hchild | constructor].
Qed.

Lemma generateSchema_gated t : everyNode boundsGated (derive t).
Proof.
  induction t as [ | | | | | | | elem IH | key elem _ IH | name fields IH
                 | elem IH | name | ins outs _ _ | kind ] using GoType_ind;
    try (apply everyNode_leaf, boundsGated_fresh).
  - apply everyNode_array, IH.
  - apply everyNode_mapping, IH.
  - destruct (String.eqb name "time.Time") eqn:Hname.
    + cbn [generateSchema]. rewrite Hname.
      apply everyNode_unfold. split; [|repeat split; constructor].
      split; intros [Hb | Hb]; cbn in Hb; congruence.
    + rewrite (generateSchema_struct _ _ _ _ Hname).
      apply everyNode_fields; [exact IH | apply everyNode_leaf, boundsGated_fresh].
  - rewrite generateSchema_ptr.
    destruct elem; try exact IH; apply everyNode_leaf, boundsGated_fresh.
Qed.

End BoundFacts.

(** ** Required fields: the claim *)

Section RequiredList.

Variable float64 : Type.
Variable ParseFloat : string -> option float64.

(** C4 (as amended). For a struct other than [time.Time] whose serialized
    field names are pairwise distinct, take a field that is part of the
    serialized shape (its [json] tag is not "-") and whose [validate]
    annotation mentions "required" only as a whole comma-separated token,
    if at all. Its name is in the required list of the derived schema
    exactly when its ConstraintSet marks it required and it is not marked
    omit-if-empty. *)
Theorem required_list_correct name fields f :
  String.eqb name "time.Time" = false ->
  List.NoDup (List.map serializedName (List.filter (fun g => negb (excluded g)) fields)) ->
  In f fields ->
  excluded f = false ->
  (mentionsRequired f = true -> ConstraintSet_required f = true) ->
  In (serializedName f) (Required (generateSchema ParseFloat (TStruct name fields))) <->
  ConstraintSet_required f = true /\ omitIfEmpty f = false.
Proof.
  intros Hname Hnodup Hin Hser Htoken.
  rewrite (Required_generateSchema _ _ _ _ Hname).
  assert (Hkept : In f (List.filter (fun g => negb (excluded g)) fields)).
  { apply List.filter_In. split; [exact Hin | rewrite Hser; reflexivity]. }
  split.
  - intros Hlisted. apply List.in_map_iff in Hlisted as (g & Hsame & Hg).
    apply List.filter_In in Hg as [Hgin Hg].
    unfold listedRequired in Hg.
    apply andb_true_iff in Hg as [Hgser Hg].
    assert (g = f) as ->.
    { apply (NoDup_map_injective serializedName _ g f Hnodup); try assumption.
      apply List.filter_In. split; assumption. }
    apply andb_true_iff in Hg as [Hmentions Homit].
    split; [apply Htoken, Hmentions | apply negb_true_iff, Homit].
  - intros [Hreq Homit]. apply List.in_map. apply List.filter_In.
    split; [exact Hin|]. unfold listedRequired.
    rewrite Hser, (ConstraintSet_required_mentions _ Hreq), Homit. reflexivity.
Qed.

End RequiredList.

(** ** Type-gated and malformed bounds *)

Lemma mapLookup_mapAssign {V : Type} k (v : V) m : mapLookup k (mapAssign k v m) = Some v.
Proof.
  induction m as [|[k' v'] m IH]; cbn.
  - rewrite String.eqb_refl. reflexivity.
  - destruct (String.eqb k' k) eqn:Hk; cbn.
    + rewrite String.eqb_refl. reflexivity.
    + rewrite Hk. exact IH.
Qed.

Section Bounds.

Variable float64 : Type.
Variable ParseFloat : string -> option float64.

Local Abbreviation derive := (generateSchema ParseFloat).
Local Abbreviation SchemaNode := (Schema float64).

(** C5. In the schema derived from any type, with any annotations, a node
    that carries a string-length bound has type "string" and a node that
    carries a numeric bound has type "integer" or "number"; and a [min=]
    or [max=] token applied to a node of any other type leaves the node
    as it was. *)
Theorem bounds_are_type_gated (t : GoType) (s : SchemaNode) (v : string) :
  everyNode boundsGated (derive t) /\
  (isBoundToken v = true -> takesBounds (Type_ s) = false ->
   applyValidation ParseFloat s v = s).
Proof.
  split; [apply generateSchema_gated|].
  unfold isBoundToken, takesBounds. intros Htoken Hty.
  apply orb_false_iff in Hty as [Hty Hnumber].
  apply orb_false_iff in Hty as [Hstring Hinteger].
  unfold applyValidation, applyOneof, applyEmail, applyMax, applyMin.
  apply orb_true_iff in Htoken as [Hmin | Hmax].
  - destruct (min_token_inv _ Hmin) as [val ->].
    cbn. rewrite Hstring, Hinteger, Hnumber. cbn.
    destruct (negb _); reflexivity.
  - destruct (max_token_inv _ Hmax) as [val ->].
    cbn. rewrite Hstring, Hinteger, Hnumber. cbn.
    destruct (negb _); reflexivity.
Qed.

End Bounds.

Section MalformedBounds.

Variable float64 : Type.
Variable ParseFloat : string -> option float64.

Local Abbreviation derive := (generateSchema ParseFloat).
Local Abbreviation SchemaNode := (Schema float64).

Lemma applyMin_unparsable (s : SchemaNode) v :
  (HasPrefix v "min=" = true -> unparsable ParseFloat (Type_ s) (TrimPrefix v "min=")) ->
  applyMin ParseFloat v s = s.
Proof.
  unfold applyMin, unparsable. intros Hfail.
  destruct (HasPrefix v "min="); [|reflexivity]. specialize (Hfail eq_refl).
  destruct (negb _); [|reflexivity].
  destruct (String.eqb (Type_ s) "string"); [rewrite Hfail; reflexivity|].
  destruct (_ || _); [rewrite Hfail|]; reflexivity.
Qed.

Lemma applyMax_unparsable (s : SchemaNode) v :
  (HasPrefix v "max=" = true -> unparsable ParseFloat (Type_ s) (TrimPrefix v "max=")) ->
  applyMax ParseFloat v s = s.
Proof.
  unfold applyMax, unparsable. intros Hfail.
  destruct (HasPrefix v "max="); [|reflexivity]. specialize (Hfail eq_refl).
  destruct (negb _); [|reflexivity].
  destruct (String.eqb (Type_ s) "string"); [rewrite Hfail; reflexivity|].
  destruct (_ || _); [rewrite Hfail|]; reflexivity.
Qed.

Lemma applyValidation_unparsable (s : SchemaNode) v :
  noParsableBound ParseFloat (Type_ s) v ->
  bounds (applyValidation ParseFloat s v) = bounds s /\
  Type_ (applyValidation ParseFloat s v) = Type_ s.
Proof.
  intros [Hmin Hmax]. unfold applyValidation.
  rewrite (applyMin_unparsable s v Hmin), (applyMax_unparsable s v Hmax).
  unfold applyOneof, applyEmail.
  destruct (HasPrefix v "oneof="), (String.eqb v "email"); split; reflexivity.
Qed.

Lemma validations_unparsable (vs : list string) (s : SchemaNode) :
  Forall (noParsableBound ParseFloat (Type_ s)) vs ->
  bounds (fold_left (applyValidation ParseFloat) vs s) = bounds s.
Proof.
  revert s. induction vs as [|v vs IH]; intros s Hvs; cbn [fold_left]; [reflexivity|].
  apply List.Forall_cons_iff in Hvs as [Hv Hvs].
  destruct (applyValidation_unparsable s v Hv) as [Hb Hty].
  rewrite IH; [exact Hb | rewrite Hty; exact Hvs].
Qed.

Lemma addField_root_bounds (deriveField : GoType -> SchemaNode) schema field :
  bounds (addField ParseFloat deriveField schema field) = bounds schema.
Proof.
  unfold addField.
  destruct (String.eqb (tag_json (Tag field)) "-"); [reflexivity|].
  destruct (negb (String.eqb (tag_validate (Tag field)) "") && _); reflexivity.
Qed.

Lemma fields_root_bounds (fields : list StructField) (schema : SchemaNode) :
  bounds (fold_left (addField ParseFloat derive) fields schema) = bounds schema.
Proof.
  revert schema. induction fields as [|f fields IH]; intros schema; cbn [fold_left].
  - reflexivity.
  - rewrite IH. apply addField_root_bounds.
Qed.

Lemma struct_root_bounds name fields : bounds (derive (TStruct name fields)) = noBounds.
Proof.
  cbn [generateSchema]. destruct (String.eqb name "time.Time"); [reflexivity|].
  apply fields_root_bounds.
Qed.

(** A freshly derived node carries no bound. *)
Lemma generateSchema_root_bounds t : bounds (derive t) = noBounds.
Proof.
  destruct t as [ | | | | | | | elem | key elem | name fields | elem | name | ins outs | kind ];
    try reflexivity; try apply struct_root_bounds.
  rewrite generateSchema_ptr.
  destruct elem; try reflexivity; apply struct_root_bounds.
Qed.

(** C6. A [min=] or [max=] fragment whose value fails to parse leaves the
    node exactly as it was; and when every such fragment of a field's
    annotation fails to parse, the node stored for the field carries no
    bound at all: its minimum length is the absent (zero) value and its
    maximum length, minimum and maximum are nil. The derivation is a total
    function, so a malformed fragment cannot make it fail. *)
Theorem malformed_bound_is_dropped (s schema : SchemaNode) (val : string) (field : StructField) :
  (unparsable ParseFloat (Type_ s) val ->
   applyValidation ParseFloat s ("min=" ++ val) = s /\
   applyValidation ParseFloat s ("max=" ++ val) = s) /\
  (excluded field = false ->
   Forall (noParsableBound ParseFloat (Type_ (derive (Typ field))))
          (Split (tag_validate (Tag field)) comma) ->
   exists node,
     mapLookup (serializedName field)
               (Properties (addField ParseFloat derive schema field)) = Some (mkRef node) /\
     MinLength node = 0 /\ MaxLength node = None /\ Min node = None /\ Max node = None).
Proof.
  split.
  - intros Hfail.
    change ("min=" ++ val) with (String "m" (String "i" (String "n" (String "=" val)))).
    change ("max=" ++ val) with (String "m" (String "a" (String "x" (String "=" val)))).
    unfold applyValidation. split.
    + rewrite applyMin_unparsable by (intros _; exact Hfail).
      rewrite applyMax_unparsable by (intros Hp; discriminate Hp).
      reflexivity.
    + rewrite applyMin_unparsable by (intros Hp; discriminate Hp).
      rewrite applyMax_unparsable by (intros _; exact Hfail).
      reflexivity.
  - intros Hser Htokens. unfold addField. fold (excluded field). rewrite Hser.
    cbn [Properties withProperties]. eexists. split.
    + unfold serializedName. apply mapLookup_mapAssign.
    + assert (Hbounds : forall node : SchemaNode,
                bounds node = noBounds ->
                MinLength node = 0 /\ MaxLength node = None /\
                Min node = None /\ Max node = None).
      { intros node Hnode. unfold bounds, noBounds in Hnode.
        injection Hnode as -> -> -> ->. repeat split. }
      apply Hbounds.
      destruct (negb (String.eqb (tag_example (Tag field)) ""));
        destruct (negb (String.eqb (tag_validate (Tag field)) ""));
        try rewrite validations_unparsable by exact Htokens;
        try apply generateSchema_root_bounds;
        change (bounds (withExample ?e ?n)) with (bounds n);
        apply generateSchema_root_bounds.
Qed.

End MalformedBounds.

(** ** The request pipeline *)

Section PipelineFacts.

Context {Ctx Instance Val : Type} `{Collaborators Ctx Instance Val}.

Lemma bindRequest_error_nonempty c req msg :
  bindRequest c req = BindErr msg -> msg <> "".
Proof.
  unfold bindRequest.
  destruct (String.eqb (RequestMethod c) "GET" || String.eqb (RequestMethod c) "DELETE").
  - destruct (BindQueryParams c req) as [req1|err]; [|intros [= <-]; discriminate].
    destruct (BindPathParams c req1); intros [= <-]; discriminate.
  - destruct (Bind c req) as [req1|err]; [|intros [= <-]; discriminate].
    destruct (BindPathParams c req1); intros [= <-]; discriminate.
Qed.

(** The handler is called at most once, with the context first, and the
    reply is then built from what it returned. *)
Lemma reply_after_call handler requestType routeConfig c args :
  In (EvCall args) (fst (createEchoHandler handler requestType routeConfig c)) ->
  snd (createEchoHandler handler requestType routeConfig c) =
    handleResponse routeConfig (Call handler args) /\
  match requestType with
  | Some rt => exists req, bindRequest c (New rt) = BindOk req /\ Struct req = None /\
                           args = [ArgContext c; ArgRequest req]
  | None => args = [ArgContext c]
  end.
Proof.
  unfold createEchoHandler. destruct requestType as [rt|].
  - destruct (bindRequest c (New rt)) as [req|msg]; [|intros []].
    destruct (Struct req) as [err|] eqn:Hvalid.
    + intros [Hev | []]. discriminate Hev.
    + intros [Hev | [Hev | []]]; [discriminate Hev|].
      injection Hev as <-. split; [reflexivity|]. exists req. auto.
  - intros [Hev | []]. injection Hev as <-. split; reflexivity.
Qed.

Lemma no_call_reply handler requestType routeConfig c :
  (forall args, ~ In (EvCall args) (fst (createEchoHandler handler requestType routeConfig c))) ->
  exists msg, msg <> "" /\
    snd (createEchoHandler handler requestType routeConfig c) = failure StatusBadRequest msg.
Proof.
  unfold createEchoHandler. destruct requestType as [rt|].
  - destruct (bindRequest c (New rt)) as [req|msg] eqn:Hbind.
    + destruct (Struct req) as [err|].
      * intros _. eexists. split; [|reflexivity]. discriminate.
      * intros Hno. exfalso. apply (Hno [ArgContext c; ArgRequest req]).
        right. left. reflexivity.
    + intros _. exists msg. split; [|reflexivity].
      exact (bindRequest_error_nonempty _ _ _ Hbind).
  - intros Hno. exfalso. apply (Hno [ArgContext c]). left. reflexivity.
Qed.

Lemma handleResponse_failure routeConfig results e :
  (2 <= length results)%nat ->
  reportedFailure results = Some e ->
  handleResponse routeConfig results = failure (errorStatus e) (errorText e).
Proof.
  destruct results as [|first rest]; [discriminate|].
  intros Hlen Hfail. unfold handleResponse.
  destruct (1 <? length (first :: rest))%nat eqn:Harity.
  - unfold reportedFailure in Hfail. rewrite Hfail. destruct e; reflexivity.
  - apply Nat.ltb_ge in Harity. lia.
Qed.

Lemma handleResponse_success routeConfig results :
  reportedFailure results = None ->
  handleResponse routeConfig results =
  match results with
  | [] => NoContent StatusNoContent
  | first :: _ =>
      if IsZero first then NoContent StatusNoContent
      else JSON (successStatus routeConfig) (mkResponse (Some first) "" true)
  end.
Proof.
  destruct results as [|first rest]; [reflexivity|].
  intros Hfail. unfold handleResponse.
  assert (Hnone : (if (1 <? length (first :: rest))%nat
                   then asError (List.last (first :: rest) first) else None) = None).
  { destruct (1 <? _)%nat; [exact Hfail | reflexivity]. }
  rewrite Hnone. destruct (IsZero first); reflexivity.
Qed.

Lemma handleResponse_exclusive routeConfig results code body :
  handleResponse routeConfig results = JSON code body -> exclusive body.
Proof.
  unfold handleResponse. destruct results as [|first rest]; [discriminate|].
  destruct (if (1 <? _)%nat then _ else _) as [[status message|text]|].
  - intros [= _ <-]. split; [discriminate | reflexivity].
  - intros [= _ <-]. split; [discriminate | reflexivity].
  - destruct (negb (IsZero first)); [|discriminate].
    intros [= _ <-]. split; [reflexivity | discriminate].
Qed.

End PipelineFacts.

Section PipelineClaims.

Context {Ctx Instance Val : Type} `{Collaborators Ctx Instance Val}.

(** C1. For an operation with an input shape: when binding succeeded and
    the populated instance fails validation, the handler is not called and
    the reply is status 400 with an envelope whose success flag is false
    and whose error message is not empty. And the validator only ever
    runs on an instance that binding produced. *)
Theorem validation_gating (handler : Handler) (rt : GoType) (routeConfig : option Route)
    (c : Ctx) (req : Instance) (err : string) :
  bindRequest c (New rt) = BindOk req ->
  Struct req = Some err ->
  (forall args, ~ In (EvCall args) (fst (createEchoHandler handler (Some rt) routeConfig c))) /\
  snd (createEchoHandler handler (Some rt) routeConfig c) =
    JSON StatusBadRequest (mkResponse None ("Validation failed: " ++ err) false) /\
  "Validation failed: " ++ err <> "" /\
  (forall c' req',
      In (EvValidate req') (fst (createEchoHandler handler (Some rt) routeConfig c')) ->
      bindRequest c' (New rt) = BindOk req').
Proof.
  intros Hbind Hinvalid. unfold createEchoHandler. rewrite Hbind, Hinvalid.
  split; [|split; [|split]].
  - intros args [Hev | []]. discriminate Hev.
  - reflexivity.
  - discriminate.
  - intros c' req'.
    destruct (bindRequest c' (New rt)) as [bound|msg]; [|intros []].
    destruct (Struct bound); intros Hev.
    + destruct Hev as [Hev | []]. injection Hev as <-. reflexivity.
    + destruct Hev as [Hev | [Hev | []]]; [|discriminate Hev].
      injection Hev as <-. reflexivity.
Qed.

(** C2. For a POST, PUT or PATCH with an input shape, the instance the
    handler receives is the one obtained by binding the body and then
    binding the path variables over it; so, with a path binder that sets
    the fields it binds, a field bound to a path variable holds the path
    variable's value, whatever the body said. *)
Theorem binding_precedence (handler : Handler) (rt : GoType) (routeConfig : option Route)
    (c : Ctx) (args : list Arg) :
  PathBinderOverrides ->
  bodyCarrying (RequestMethod c) = true ->
  In (EvCall args) (fst (createEchoHandler handler (Some rt) routeConfig c)) ->
  exists fromBody req,
    Bind c (New rt) = BindOk fromBody /\
    BindPathParams c fromBody = BindOk req /\
    args = [ArgContext c; ArgRequest req] /\
    forall name v,
      PathParam c name = Some v -> Lookup fromBody name <> None -> Lookup req name = Some v.
Proof.
  intros Hpath Hverb Hcall.
  destruct (reply_after_call _ _ _ _ _ Hcall) as [_ (req & Hbind & _ & Hargs)].
  unfold bindRequest in Hbind.
  assert (Hsource : String.eqb (RequestMethod c) "GET"
                    || String.eqb (RequestMethod c) "DELETE" = false).
  { unfold bodyCarrying in Hverb.
    destruct (String.eqb (RequestMethod c) "POST") eqn:Hpost;
      [apply String.eqb_eq in Hpost; rewrite Hpost; reflexivity|].
    destruct (String.eqb (RequestMethod c) "PUT") eqn:Hput;
      [apply String.eqb_eq in Hput; rewrite Hput; reflexivity|].
    destruct (String.eqb (RequestMethod c) "PATCH") eqn:Hpatch;
      [apply String.eqb_eq in Hpatch; rewrite Hpatch; reflexivity|].
    discriminate Hverb. }
  rewrite Hsource in Hbind.
  destruct (Bind c (New rt)) as [fromBody|err] eqn:Hbody; [|discriminate Hbind].
  destruct (BindPathParams c fromBody) as [bound|err] eqn:Hparams; [|discriminate Hbind].
  injection Hbind as ->.
  exists fromBody, req. repeat split; try assumption.
  intros name v Hvar Hfield. exact (Hpath c fromBody req name v Hparams Hvar Hfield).
Qed.

(** C3, at the input where the code departs from it: a handler whose only
    result is its error, failing with a 404 [HTTPError], is answered with
    status 200 and a success envelope that carries the error as data. *)
Theorem error_only_handler_is_reported_as_success (c : Ctx) (routeConfig : option Route)
    (ty : GoType) (code : Z) (message : string) :
  reportedFailure [VError (Some (HTTPError code message))] = Some (HTTPError code message) /\
  snd (createEchoHandler
         (mkHandler ty (fun _ => [VError (Some (HTTPError code message))]))
         None routeConfig c) =
    JSON (successStatus routeConfig)
         (mkResponse (Some (VError (Some (HTTPError code message)))) "" true).
Proof. split; reflexivity. Qed.

(** C7. When the handler was called and reports no failure: a result that
    is the zero value of its type (or no result at all) is answered with
    status 204 and no body; any other result is answered with the declared
    success status (200 when none is declared) and the envelope
    [{data: result, success: true}]. *)
Theorem success_reply (handler : Handler) (requestType : option GoType)
    (routeConfig : option Route) (c : Ctx) (args : list Arg) :
  In (EvCall args) (fst (createEchoHandler handler requestType routeConfig c)) ->
  reportedFailure (Call handler args) = None ->
  snd (createEchoHandler handler requestType routeConfig c) =
    match Call handler args with
    | [] => NoContent 204
    | result :: _ =>
        if IsZero result then NoContent 204
        else JSON (match routeConfig with
                   | Some cfg => if 0 <? SuccessStatus cfg then SuccessStatus cfg else 200
                   | None => 200
                   end)
                  (mkResponse (Some result) "" true)
    end.
Proof.
  intros Hcall Hok.
  destruct (reply_after_call _ _ _ _ _ Hcall) as [-> _].
  rewrite (handleResponse_success _ _ Hok). reflexivity.
Qed.

(** C10 (as amended). Every envelope the adapter builds is exclusive:
    with the success flag set the error message is empty, and with the
    flag cleared there is no data. A reply sent without calling the
    handler (a binding or validation failure) has the flag cleared and a
    non-empty message; a failure reported by a handler with at least two
    results has the flag cleared, no data, and the error's own message. *)
Theorem envelope_invariant (handler : Handler) (requestType : option GoType)
    (routeConfig : option Route) (c : Ctx) (code : Z) (body : Response) :
  snd (createEchoHandler handler requestType routeConfig c) = JSON code body ->
  exclusive body /\
  ((forall args, ~ In (EvCall args) (fst (createEchoHandler handler requestType routeConfig c))) ->
   Success body = false /\ Error body <> "") /\
  (forall args e,
      In (EvCall args) (fst (createEchoHandler handler requestType routeConfig c)) ->
      (2 <= length (Call handler args))%nat ->
      reportedFailure (Call handler args) = Some e ->
      code = errorStatus e /\ Success body = false /\ Data body = None /\
      Error body = errorText e).
Proof.
  intros Hreply. split; [|split].
  - revert Hreply. unfold createEchoHandler. destruct requestType as [rt|].
    + destruct (bindRequest c (New rt)) as [req|msg].
      * destruct (Struct req).
        -- intros [= _ <-]. split; [discriminate | reflexivity].
        -- apply handleResponse_exclusive.
      * intros [= _ <-]. split; [discriminate | reflexivity].
    + apply handleResponse_exclusive.
  - intros Hno. destruct (no_call_reply _ _ _ _ Hno) as (msg & Hmsg & Hfail).
    rewrite Hfail in Hreply. injection Hreply as _ <-. split; [reflexivity | exact Hmsg].
  - intros args e Hcall Hlen Hfail.
    destruct (reply_after_call _ _ _ _ _ Hcall) as [Hresp _].
    rewrite Hresp, (handleResponse_failure _ _ _ Hlen Hfail) in Hreply.
    injection Hreply as <- <-. repeat split.
Qed.

(** C8 (as amended). Registration panics exactly when the handler value
    is not a function, and returns, with the route recorded, exactly when
    it is one; the parameters of the function are not inspected. *)
Theorem registration_checks_callable_only (method path : string) (handler : option Handler)
    (opts : list Route) (app : App) :
  ((exists msg, registerRoute method path handler opts app = Panic msg) <->
   isCallable handler = false) /\
  ((exists app', registerRoute method path handler opts app = Returns app' /\
                 length (routes app') = S (length (routes app))) <->
   isCallable handler = true).
Proof.
  unfold registerRoute, isCallable.
  destruct handler as [h|].
  - destruct (handlerType h);
      try (split; split;
           [ intros _; reflexivity
           | intros _; eexists; reflexivity
           | intros (app' & Hret & _); discriminate Hret
           | intros Hcallable; discriminate Hcallable ]).
    split; split.
    + intros [msg Hpanic]. discriminate Hpanic.
    + intros Hcallable. discriminate Hcallable.
    + intros _. reflexivity.
    + intros _. eexists. split; [reflexivity|].
      cbn [routes]. rewrite length_app. cbn. lia.
  - split; split.
    + intros _. reflexivity.
    + intros _. eexists. reflexivity.
    + intros (app' & Hret & _). discriminate Hret.
    + intros Hcallable. discriminate Hcallable.
Qed.

End PipelineClaims.

(** ** Derivation on the heap *)

Section StoreFacts.

Variable float64 : Type.
Variable ParseFloat : string -> option float64.

Local Abbreviation derive := (generateSchema ParseFloat).
Local Abbreviation Heap := (Store.Heap float64).
Local Abbreviation Cell := (Store.Cell float64).

Lemma Forall2_impl_Forall {A B : Type} (R R' : A -> B -> Prop) l k :
  Forall2 R l k ->
  Forall (fun y => forall x, R x y -> R' x y) k ->
  Forall2 R' l k.
Proof.
  induction 1 as [|x y l k Hxy Hlk IH]; intros Hk; [constructor|].
  apply List.Forall_cons_iff in Hk as [Hy Hk].
  constructor; [apply Hy, Hxy | apply IH, Hk].
Qed.

(** A tree read off a heap is still there in any heap that agrees on the
    addresses of the tree, and lies in any larger set of addresses. *)
Lemma within_weaken (h h' : Heap) (s : Schema float64) :
  forall (D D' : Store.ptr -> Prop) p,
    (forall q, D q -> D' q) ->
    (forall q, D q -> h' !! q = h !! q) ->
    within h D p s -> within h' D' p s.
Proof.
  pattern s. apply Schema_ind. clear s. intros s IHi IHa IHp.
  intros D D' p Hsub Hagree Hw. inversion Hw as [D0 p0 c s0 HD Hc Hattrs Hi Ha Hp]. subst.
  assert (Hsub' : forall q, D q /\ q <> p -> D' q /\ q <> p) by (intros q [? ?]; auto).
  assert (Hagree' : forall q, D q /\ q <> p -> h' !! q = h !! q) by (intros q [? ?]; auto).
  apply within_cell with (c := c); auto.
  - rewrite Hagree by exact HD. exact Hc.
  - destruct Hi as [q r Hqr|]; constructor.
    apply (IHi r eq_refl _ _ _ Hsub' Hagree' Hqr).
  - destruct Ha as [q r Hqr|]; constructor.
    apply (IHa r eq_refl _ _ _ Hsub' Hagree' Hqr).
  - apply (Forall2_impl_Forall _ _ _ _ Hp).
    eapply List.Forall_impl; [|exact IHp]. cbn beta.
    intros kr IH kq [Hkey Hqr]. split; [exact Hkey|].
    apply (IH _ _ _ Hsub' Hagree' Hqr).
Qed.

(** An address is the root of at most one tree. *)
Lemma within_functional (h : Heap) (s : Schema float64) :
  forall (D D' : Store.ptr -> Prop) p s',
    within h D p s -> within h D' p s' -> s = s'.
Proof.
  pattern s. apply Schema_ind. clear s. intros s IHi IHa IHp.
  intros D D' p s' Hw Hw'.
  inversion Hw as [D0 p0 c s0 HD Hc Hattrs Hi Ha Hp]. subst.
  inversion Hw' as [D0 p0 c' s0 HD' Hc' Hattrs' Hi' Ha' Hp']. subst.
  rewrite Hc in Hc'. injection Hc' as <-.
  assert (Hitems : Items s = Items s').
  { destruct Hi as [q r Hqr|]; inversion Hi' as [q' r' Hqr'|]; subst; [|reflexivity].
    f_equal. destruct r as [v], r' as [v']. f_equal.
    exact (IHi (mkRef v) eq_refl _ _ _ _ Hqr Hqr'). }
  assert (Hadditional : AdditionalProperties s = AdditionalProperties s').
  { destruct Ha as [q r Hqr|]; inversion Ha' as [q' r' Hqr'|]; subst; [|reflexivity].
    f_equal. destruct r as [v], r' as [v']. f_equal.
    exact (IHa (mkRef v) eq_refl _ _ _ _ Hqr Hqr'). }
  assert (Hproperties : Properties s = Properties s').
  { revert Hp Hp' IHp. generalize (Properties s) (Properties s') (Properties c).
    intros ms ms' mc Hp. revert ms'.
    induction Hp as [|[k q] [k1 [v]] mc ms [Hk Hqr] Hrest IH]; intros ms' Hp' IHp.
    - inversion Hp'. reflexivity.
    - inversion Hp' as [|kq [k2 [v']] mc' ms2 [Hk' Hqr'] Hrest']. subst.
      apply List.Forall_cons_iff in IHp as [IHhead IHtail].
      cbn in Hk, Hk', Hqr, Hqr', IHhead. subst.
      f_equal; [|exact (IH _ Hrest' IHtail)].
      f_equal. f_equal. exact (IHhead _ _ _ _ Hqr Hqr'). }
  rewrite Hattrs in Hattrs'.
  destruct s, s'. cbn in *. unfold attrsOf in Hattrs'. cbn in Hattrs'.
  injection Hattrs' as -> -> -> -> -> -> -> -> ->. subst. reflexivity.
Qed.

(** Assigning to the fields of the root that are not references. *)
Lemma within_root_update (h h' : Heap) (D : Store.ptr -> Prop) p c s
    (g : forall ref : Type, SchemaOf float64 ref -> SchemaOf float64 ref) :
  attrUpdate g ->
  within h D p s ->
  h !! p = Some c ->
  h' !! p = Some (g _ c) ->
  (forall q, D q -> q <> p -> h' !! q = h !! q) ->
  within h' D p (g _ s).
Proof.
  intros [Hframe Hattr] Hw Hc Hc' Hagree.
  inversion Hw as [D0 p0 c0 s0 HD Hc0 Hattrs Hi Ha Hp]. subst.
  rewrite Hc in Hc0. injection Hc0 as <-.
  destruct (Hframe _ c) as (Hci & Hca & Hcp).
  destruct (Hframe _ s) as (Hsi & Hsa & Hsp).
  assert (Hbelow : forall q r, within h (fun x => D x /\ x <> p) q r ->
                               within h' (fun x => D x /\ x <> p) q r).
  { intros q r. apply within_weaken; [tauto|]. intros x [? ?]. auto. }
  apply within_cell with (c := g _ c); auto.
  - rewrite !Hattr, Hattrs. reflexivity.
  - rewrite Hci, Hsi. destruct Hi; constructor; auto.
  - rewrite Hca, Hsa. destruct Ha; constructor; auto.
  - rewrite Hcp, Hsp. apply (Forall2_impl _ _ _ _ Hp). intros kq kr [Hk Hqr]. auto.
Qed.

End StoreFacts.

Section StoreDerivation.

Variable float64 : Type.
Variable ParseFloat : string -> option float64.

Local Abbreviation derive := (generateSchema ParseFloat).
Local Abbreviation Heap := (Store.Heap float64).
Local Abbreviation Cell := (Store.Cell float64).

(** *** The updates of the loop body leave references alone *)

Lemma attrUpdate_id : attrUpdate (float64:=float64) (fun ref x => x).
Proof. split; intros; auto. Qed.

Lemma attrUpdate_compose (g1 g2 : forall ref : Type, SchemaOf float64 ref -> SchemaOf float64 ref) :
  attrUpdate g1 -> attrUpdate g2 -> attrUpdate (fun ref x => g2 ref (g1 ref x)).
Proof.
  intros [Hf1 Ha1] [Hf2 Ha2]. split.
  - intros ref x. destruct (Hf2 ref (g1 ref x)) as (-> & -> & ->). apply Hf1.
  - intros ref x. rewrite Ha2, Ha1. reflexivity.
Qed.

Lemma attrUpdate_withExample e : attrUpdate (float64:=float64) (fun ref => withExample e).
Proof. split; intros; auto. Qed.

Lemma attrsOf_applyMin {ref : Type} v (x : SchemaOf float64 ref) :
  attrsOf (applyMin ParseFloat v x) = applyMin ParseFloat v (attrsOf x).
Proof.
  unfold applyMin. cbn [Type_ attrsOf].
  destruct (HasPrefix v "min="); [|reflexivity].
  destruct (negb _); [|reflexivity].
  destruct (String.eqb (Type_ x) "string"); [destruct (Atoi _); reflexivity|].
  destruct (_ || _); [destruct (ParseFloat _)|]; reflexivity.
Qed.

Lemma attrsOf_applyMax {ref : Type} v (x : SchemaOf float64 ref) :
  attrsOf (applyMax ParseFloat v x) = applyMax ParseFloat v (attrsOf x).
Proof.
  unfold applyMax. cbn [Type_ attrsOf].
  destruct (HasPrefix v "max="); [|reflexivity].
  destruct (negb _); [|reflexivity].
  destruct (String.eqb (Type_ x) "string"); [destruct (Atoi _); reflexivity|].
  destruct (_ || _); [destruct (ParseFloat _)|]; reflexivity.
Qed.

Lemma attrUpdate_applyValidation v :
  attrUpdate (fun ref s => applyValidation ParseFloat s v).
Proof.
  split; intros ref x.
  - destruct (applyValidation_frame _ ParseFloat x v) as (_ & ? & ? & ?). auto.
  - unfold applyValidation.
    rewrite <- attrsOf_applyMin, <- attrsOf_applyMax.
    generalize (applyMax ParseFloat v (applyMin ParseFloat v x)). intros y.
    unfold applyOneof, applyEmail.
    destruct (HasPrefix v "oneof="), (String.eqb v "email"); reflexivity.
Qed.

Lemma attrUpdate_validations vs :
  attrUpdate (fun ref s => fold_left (applyValidation ParseFloat) vs s).
Proof.
  induction vs as [|v vs IH]; [exact attrUpdate_id|].
  exact (attrUpdate_compose _ _ (attrUpdate_applyValidation v) IH).
Qed.

Lemma attrUpdate_decorate field : attrUpdate (fun ref => decorate ParseFloat field).
Proof.
  unfold decorate.
  destruct (negb (String.eqb (tag_example (Tag field)) ""));
    destruct (negb (String.eqb (tag_validate (Tag field)) ""));
    try exact attrUpdate_id;
    try exact (attrUpdate_withExample _);
    try exact (attrUpdate_validations _).
  exact (attrUpdate_compose _ _ (attrUpdate_withExample _) (attrUpdate_validations _)).
Qed.

Lemma attrUpdate_noteRequired field : attrUpdate (float64:=float64) (fun ref => noteRequired field).
Proof.
  unfold noteRequired. destruct (_ && _); [|exact attrUpdate_id].
  split; intros; auto.
Qed.

(** *** The loop body, regrouped *)

Lemma addField_regroup (deriveField : GoType -> Schema float64) schema field :
  addField ParseFloat deriveField schema field =
  if excluded field then schema
  else attach field (mkRef (decorate ParseFloat field (deriveField (Typ field)))) schema.
Proof.
  unfold addField, excluded, attach, noteRequired, decorate, mentionsRequired,
    omitIfEmpty, serializedName.
  destruct (String.eqb (tag_json (Tag field)) "-"); reflexivity.
Qed.

Lemma twoCells_assign_field (h1 h : Heap) pf p0 a a' b (g : Cell -> Cell) :
  pf <> p0 ->
  twoCells h1 pf p0 a b h ->
  a' = g a ->
  twoCells h1 pf p0 a' b (Store.assign pf g h).
Proof.
  intros Hne (Hlen & Ha & Hb & Hrest) ->. unfold Store.assign.
  split; [rewrite length_alter; exact Hlen|].
  split; [rewrite list_lookup_alter_eq, Ha; reflexivity|].
  split; [rewrite list_lookup_alter_ne by exact Hne; exact Hb|].
  intros q Hq Hq0. rewrite list_lookup_alter_ne by auto. auto.
Qed.

Lemma twoCells_assign_schema (h1 h : Heap) pf p0 a b b' (g : Cell -> Cell) :
  pf <> p0 ->
  twoCells h1 pf p0 a b h ->
  b' = g b ->
  twoCells h1 pf p0 a b' (Store.assign p0 g h).
Proof.
  intros Hne (Hlen & Ha & Hb & Hrest) ->. unfold Store.assign.
  split; [rewrite length_alter; exact Hlen|].
  split; [rewrite list_lookup_alter_ne by auto; exact Ha|].
  split; [rewrite list_lookup_alter_eq, Hb; reflexivity|].
  intros q Hq Hq0. rewrite list_lookup_alter_ne by auto. auto.
Qed.

Lemma twoCells_validations (h1 : Heap) pf p0 b vs :
  pf <> p0 ->
  forall a a' h,
    twoCells h1 pf p0 a b h ->
    a' = fold_left (applyValidation ParseFloat) vs a ->
    twoCells h1 pf p0 a' b
      (fold_left (fun h v => Store.assign pf (fun s => applyValidation ParseFloat s v) h) vs h).
Proof.
  intros Hne. induction vs as [|v vs IH]; intros a a' h Hcells ->; cbn [fold_left];
    [exact Hcells|].
  eapply IH; [|reflexivity].
  eapply twoCells_assign_field; [exact Hne | exact Hcells | reflexivity].
Qed.

Ltac assignments Hne H0 :=
  first
    [ exact H0
    | eapply twoCells_assign_schema; [exact Hne | assignments Hne H0 | reflexivity]
    | eapply twoCells_validations; [exact Hne | assignments Hne H0 | reflexivity]
    | eapply twoCells_assign_field; [exact Hne | assignments Hne H0 | reflexivity] ].

(** One iteration on the heap: the field's schema is decorated in place
    and the object schema gets a reference to it. *)
Lemma Store_addField_step (deriveAt : GoType -> Heap -> Store.ptr * Heap) p0 h field pf h1 cf ck :
  excluded field = false ->
  deriveAt (Typ field) h = (pf, h1) ->
  pf <> p0 ->
  h1 !! pf = Some cf ->
  h1 !! p0 = Some ck ->
  twoCells h1 pf p0 (decorate ParseFloat field cf) (attach field pf ck)
           (Store.addField ParseFloat deriveAt p0 h field).
Proof.
  intros Hser Hderive Hne Hcf Hck.
  unfold Store.addField. fold (excluded field). rewrite Hser, Hderive.
  assert (H0 : twoCells h1 pf p0 cf ck h1) by (repeat split; auto).
  unfold decorate, attach, noteRequired, mentionsRequired, omitIfEmpty, serializedName.
  destruct (negb (String.eqb (tag_example (Tag field)) ""));
    destruct (negb (String.eqb (tag_validate (Tag field)) "")); cbn [andb];
    try destruct (Contains (tag_validate (Tag field)) "required"
                  && negb (jsonOmitempty (tag_json (Tag field))));
    assignments Hne H0.
Qed.

(** *** The loop over the fields *)

Lemma Forall2_mapAssign {A B : Type} (R : string * A -> string * B -> Prop) k a b ma mb :
  (forall x y, R x y -> fst x = fst y) ->
  R (k, a) (k, b) ->
  Forall2 R ma mb ->
  Forall2 R (mapAssign k a ma) (mapAssign k b mb).
Proof.
  intros Hkey Hnew Hold.
  induction Hold as [|[k1 a1] [k2 b1] ma mb Hhead Hrest IH]; cbn [mapAssign].
  - constructor; [exact Hnew | constructor].
  - pose proof (Hkey _ _ Hhead) as Hk. cbn in Hk. subst k2.
    destruct (String.eqb k1 k); constructor; assumption.
Qed.

Lemma loop_step p0 field (hk : Heap) (sk : Schema float64) :
  derivesAt ParseFloat (Typ field) ->
  loopState p0 hk sk ->
  loopState p0 (Store.addField ParseFloat (Store.generateSchema ParseFloat) p0 hk field)
            (addField ParseFloat derive sk field) /\
  (length hk <= length (Store.addField ParseFloat (Store.generateSchema ParseFloat) p0 hk field))%nat /\
  (forall q, (q < p0)%nat ->
             Store.addField ParseFloat (Store.generateSchema ParseFloat) p0 hk field !! q = hk !! q).
Proof.
  intros Hd Hstate. rewrite addField_regroup.
  destruct (excluded field) eqn:Hser.
  - unfold Store.addField. fold (excluded field). rewrite Hser. auto.
  - destruct Hstate as (Hlt & ck & Hck & Hattrs & Hci & Hsi & Hca & Hsa & Hprops).
    destruct (Hd hk) as (pf & h1 & Hgen & [Hlo Hhi] & Hold & Hw).
    assert (Hcf : exists cf, h1 !! pf = Some cf).
    { inversion Hw; subst; eauto. }
    destruct Hcf as [cf Hcf].
    assert (Hne : pf <> p0) by lia.
    assert (Hck1 : h1 !! p0 = Some ck) by (rewrite Hold by exact Hlt; exact Hck).
    destruct (Store_addField_step _ p0 hk field pf h1 cf ck Hser Hgen Hne Hcf Hck1)
      as (Hlen & Hpf & Hp0 & Hrest).
    set (hk' := Store.addField ParseFloat (Store.generateSchema ParseFloat) p0 hk field) in *.
    destruct (attrUpdate_noteRequired field) as [Hframe Hattr].
    destruct (Hframe _ ck) as (Hnci & Hnca & Hncp).
    destruct (Hframe _ sk) as (Hnsi & Hnsa & Hnsp).
    split; [|split].
    + split; [lia|]. exists (attach field pf ck).
      split; [exact Hp0|].
      split; [unfold attach; cbn [attrsOf withProperties Type_ Format Required Example
                                 MinLength MaxLength Min Max Enum];
              change (attrsOf (noteRequired field ck) = attrsOf (noteRequired field sk));
              rewrite !Hattr, Hattrs; reflexivity|].
      unfold attach. cbn [Items AdditionalProperties Properties withProperties].
      rewrite Hnci, Hnsi, Hnca, Hnsa, Hncp, Hnsp.
      repeat (split; [assumption|]).
      apply Forall2_mapAssign.
      * intros x y [Hk _]. exact Hk.
      * split; [reflexivity|]. cbn [snd Value].
        apply (within_weaken _ hk' hk') with (D := fun x => (length hk <= x < length h1)%nat);
          [intros q Hq; lia | reflexivity |].
        apply (within_root_update _ h1 hk' _ pf cf _ (fun ref => decorate ParseFloat field));
          [apply attrUpdate_decorate | exact Hw | exact Hcf | exact Hpf |].
        intros q Hq Hqne. apply Hrest; [exact Hqne | lia].
      * apply (Forall2_impl _ _ _ _ Hprops). intros kq kr [Hk Hqr]. split; [exact Hk|].
        apply (within_weaken _ hk hk') with (D := fun x => (p0 < x < length hk)%nat);
          [intros q Hq; lia | | exact Hqr].
        intros q Hq. rewrite Hrest by lia. apply Hold. lia.
    + lia.
    + intros q Hq. rewrite Hrest by lia. apply Hold. lia.
Qed.

Lemma loop_fields p0 (fields : list StructField) :
  Forall (fun f => derivesAt ParseFloat (Typ f)) fields ->
  forall (hk : Heap) (sk : Schema float64),
    loopState p0 hk sk ->
    loopState p0 (fold_left (Store.addField ParseFloat (Store.generateSchema ParseFloat) p0) fields hk)
              (fold_left (addField ParseFloat derive) fields sk) /\
    (length hk <= length (fold_left (Store.addField ParseFloat (Store.generateSchema ParseFloat) p0)
                                    fields hk))%nat /\
    (forall q, (q < p0)%nat ->
       fold_left (Store.addField ParseFloat (Store.generateSchema ParseFloat) p0) fields hk !! q
       = hk !! q).
Proof.
  induction 1 as [|f fields Hf Hfields IH]; intros hk sk Hstate; cbn [fold_left].
  - auto.
  - destruct (loop_step p0 f hk sk Hf Hstate) as (Hstate' & Hlen & Hold).
    destruct (IH _ _ Hstate') as (Hstate'' & Hlen' & Hold').
    split; [exact Hstate''|]. split; [lia|].
    intros q Hq. rewrite Hold' by exact Hq. apply Hold, Hq.
Qed.

(** *** The derivation *)

Lemma new_leaf (c : Cell) (s : Schema float64) (h : Heap) :
  attrsOf c = attrsOf s ->
  Items c = None -> Items s = None ->
  AdditionalProperties c = None -> AdditionalProperties s = None ->
  Properties c = [] -> Properties s = [] ->
  exists p h',
    Store.new c h = (p, h') /\
    (length h <= p < length h')%nat /\
    (forall q, (q < length h)%nat -> h' !! q = h !! q) /\
    within h' (fun x => (length h <= x < length h')%nat) p s.
Proof.
  intros Hattrs Hci Hsi Hca Hsa Hcp Hsp. unfold Store.new.
  eexists _, _. split; [reflexivity|].
  assert (Hlen : length (h ++ [c]) = S (length h)) by (rewrite length_app; cbn; lia).
  rewrite Hlen.
  split; [lia|]. split; [intros q Hq; apply lookup_app_l, Hq|].
  apply within_cell with (c := c); [lia | | exact Hattrs | | |].
  - apply list_lookup_middle. reflexivity.
  - rewrite Hci, Hsi. constructor.
  - rewrite Hca, Hsa. constructor.
  - rewrite Hcp, Hsp. constructor.
Qed.

Lemma Store_generateSchema_ptr elem (h : Heap) :
  Store.generateSchema ParseFloat (TPtr elem) h =
  match elem with
  | TPtr _ => Store.new (schemaOfType "object") h
  | _ => Store.generateSchema ParseFloat elem h
  end.
Proof. destruct elem; reflexivity. Qed.

Ltac leaf := intros h; apply new_leaf; reflexivity.

Lemma derivesAt_all t : derivesAt ParseFloat t.
Proof.
  induction t as [ | | | | | | | elem IH | key elem _ IH | name fields IH
                 | elem IH | name | ins outs _ _ | kind ] using GoType_ind;
    try leaf.
  - intros h. destruct (IH h) as (items & h1 & Hgen & [Hlo Hhi] & Hold & Hw).
    change (Store.generateSchema ParseFloat (TSlice elem) h)
      with (let (items, h1) := Store.generateSchema ParseFloat elem h in
            Store.new (withItems (Some items) (schemaOfType "array")) h1).
    rewrite Hgen. unfold Store.new. eexists _, _. split; [reflexivity|].
    assert (Hlen : length (h1 ++ [withItems (Some items) (schemaOfType (float64:=float64) "array")])
                   = S (length h1)) by (rewrite length_app; cbn; lia).
    rewrite Hlen.
    split; [lia|]. split; [intros q Hq; rewrite lookup_app_l by lia; apply Hold, Hq|].
    eapply within_cell; [| apply list_lookup_middle; reflexivity | reflexivity | | |].
    + cbn beta. lia.
    + constructor. cbn [Value].
      eapply within_weaken; [| | exact Hw].
      * intros q Hq. cbn beta in Hq |- *. lia.
      * intros q Hq. cbn beta in Hq. apply lookup_app_l. lia.
    + constructor.
    + constructor.
  - intros h. destruct (IH h) as (additional & h1 & Hgen & [Hlo Hhi] & Hold & Hw).
    change (Store.generateSchema ParseFloat (TMap key elem) h)
      with (let (additional, h1) := Store.generateSchema ParseFloat elem h in
            Store.new (withAdditionalProperties (Some additional) (schemaOfType "object")) h1).
    rewrite Hgen. unfold Store.new. eexists _, _. split; [reflexivity|].
    assert (Hlen : length (h1 ++ [withAdditionalProperties (Some additional)
                                    (schemaOfType (float64:=float64) "object")])
                   = S (length h1)) by (rewrite length_app; cbn; lia).
    rewrite Hlen.
    split; [lia|]. split; [intros q Hq; rewrite lookup_app_l by lia; apply Hold, Hq|].
    eapply within_cell; [| apply list_lookup_middle; reflexivity | reflexivity | | |].
    + cbn beta. lia.
    + constructor.
    + constructor. cbn [Value].
      eapply within_weaken; [| | exact Hw].
      * intros q Hq. cbn beta in Hq |- *. lia.
      * intros q Hq. cbn beta in Hq. apply lookup_app_l. lia.
    + constructor.
  - intros h. cbn [Store.generateSchema generateSchema].
    destruct (String.eqb name "time.Time"); [apply new_leaf; reflexivity|].
    unfold Store.new.
    set (obj := schemaOfType (float64:=float64) (ref:=Store.ptr) "object").
    assert (Hlen0 : length (h ++ [obj]) = S (length h)) by (rewrite length_app; cbn; lia).
    assert (Hinit : loopState (length h) (h ++ [obj]) (schemaOfType "object")).
    { split; [lia|]. exists obj.
      split; [apply list_lookup_middle; reflexivity|].
      repeat (split; [reflexivity|]). constructor. }
    destruct (loop_fields (length h) fields IH _ _ Hinit) as (Hstate & Hlen & Hold).
    eexists _, _. split; [reflexivity|].
    destruct Hstate as (Hlt & ck & Hck & Hattrs & Hci & Hsi & Hca & Hsa & Hprops).
    split; [lia|].
    split; [intros q Hq; rewrite Hold by exact Hq; apply lookup_app_l, Hq|].
    apply within_cell with (c := ck); [lia | exact Hck | exact Hattrs | | |].
    + rewrite Hci, Hsi. constructor.
    + rewrite Hca, Hsa. constructor.
    + apply (Forall2_impl _ _ _ _ Hprops). intros kq kr [Hk Hqr]. split; [exact Hk|].
      eapply within_weaken; [| | exact Hqr]; [intros q Hq; cbn beta in Hq |- *; lia | reflexivity].
  - intros h. rewrite Store_generateSchema_ptr, generateSchema_ptr.
    destruct elem; try apply IH; apply new_leaf; reflexivity.
Qed.

(** C9. Deriving a shape twice, one call after the other on any heap:
    each call returns the address of a tree equal to the pure function
    [generateSchema] of the shape alone, so the two results are
    structurally identical; and no object that existed before a call is
    changed by it, so the derivation has no effect on the state of the
    application. The function takes and returns a heap of schemas and
    nothing else: there is no input or output in it. *)
Theorem derivation_is_pure_and_repeatable (t : GoType) (h : Heap) :
  exists p1 h1 p2 h2,
    Store.generateSchema ParseFloat t h = (p1, h1) /\
    Store.generateSchema ParseFloat t h1 = (p2, h2) /\
    preserved h h1 /\ preserved h1 h2 /\
    represents h1 p1 (derive t) /\
    represents h2 p1 (derive t) /\
    represents h2 p2 (derive t) /\
    (forall s1 s2, represents h2 p1 s1 -> represents h2 p2 s2 -> s1 = s2).
Proof.
  destruct (derivesAt_all t h) as (p1 & h1 & Hg1 & Hr1 & Hold1 & Hw1).
  destruct (derivesAt_all t h1) as (p2 & h2 & Hg2 & Hr2 & Hold2 & Hw2).
  assert (H11 : represents h1 p1 (derive t)).
  { eapply within_weaken; [| | exact Hw1]; [intros q _; exact I | reflexivity]. }
  assert (H21 : represents h2 p1 (derive t)).
  { eapply within_weaken; [| | exact Hw1]; [intros q _; exact I|].
    intros q Hq. cbn beta in Hq. apply Hold2. lia. }
  assert (H22 : represents h2 p2 (derive t)).
  { eapply within_weaken; [| | exact Hw2]; [intros q _; exact I | reflexivity]. }
  exists p1, h1, p2, h2. repeat split; try assumption.
  - intros q c Hq. rewrite Hold1; [exact Hq|]. exact (lookup_lt_Some _ _ _ Hq).
  - intros q c Hq. rewrite Hold2; [exact Hq|]. exact (lookup_lt_Some _ _ _ Hq).
  - intros s1 s2 Hs1 Hs2.
    rewrite (within_functional _ _ _ _ _ _ _ Hs1 H21).
    rewrite (within_functional _ _ _ _ _ _ _ Hs2 H22). reflexivity.
Qed.

End StoreDerivation.

(** ** The properties on concrete inputs *)

Lemma Demo_path_binder_overrides :
  @PathBinderOverrides Demo.Request Demo.Inst string Demo.transport.
Proof.
  intros c req req' name v Hbind Hvar Hfield.
  cbn in Hbind, Hvar, Hfield |- *. injection Hbind as <-.
  unfold Demo.lookupParam in *.
  destruct (String.eqb name "") eqn:Hname; [contradiction|].
  induction req as [|[f x] req IH]; [contradiction|].
  cbn [Demo.overlay List.map Demo.findParam] in *.
  destruct (String.eqb (tag_param (Tag f)) name) eqn:Hf.
  - apply String.eqb_eq in Hf. rewrite Hf, Hname, Hvar.
    cbn [Demo.findParam]. rewrite Hf, String.eqb_refl. reflexivity.
  - destruct (String.eqb (tag_param (Tag f)) "");
      [|destruct (mapLookup (tag_param (Tag f)) (Demo.pathVars c))];
      cbn [Demo.findParam]; rewrite Hf; exact (IH Hfield).
Qed.

(** C1 on [POST /users] with a body that lacks the required email. *)
Lemma validation_gating_witness :
  (forall args,
      ~ In (EvCall args)
           (fst (createEchoHandler Demo.createUser (Some Demo.CreateUserRequest) None
                                   Demo.postWithoutEmail))) /\
  snd (createEchoHandler Demo.createUser (Some Demo.CreateUserRequest) None
                         Demo.postWithoutEmail) =
    JSON StatusBadRequest
         (mkResponse None
            ("Validation failed: " ++
             "Field validation for 'Email' failed on the 'required' tag") false) /\
  "Validation failed: " ++ "Field validation for 'Email' failed on the 'required' tag" <> "" /\
  (forall c' req',
      In (EvValidate req')
         (fst (createEchoHandler Demo.createUser (Some Demo.CreateUserRequest) None c')) ->
      bindRequest c' (New Demo.CreateUserRequest) = BindOk req').
Proof.
  apply (validation_gating Demo.createUser Demo.CreateUserRequest None Demo.postWithoutEmail
           [(Demo.nameField, "Jo"); (Demo.emailField, "")]
           "Field validation for 'Email' failed on the 'required' tag");
    reflexivity.
Defined.

(** C2 on [PUT /users/42] whose body says [id = 7]: the handler is given
    an instance whose [id] is 42. *)
Lemma binding_precedence_witness :
  exists fromBody req,
    Bind Demo.putUser (New Demo.UpdateUserRequest) = BindOk fromBody /\
    BindPathParams Demo.putUser fromBody = BindOk req /\
    [ArgContext Demo.putUser;
     ArgRequest [(mkField "ID" TString (mkTag "id" "required" "" "" "id"), "42");
                 (mkField "Name" TString (mkTag "name" "required" "" "" ""), "Jo")]]
    = [ArgContext Demo.putUser; ArgRequest req] /\
    forall name v,
      PathParam Demo.putUser name = Some v ->
      Lookup fromBody name <> None -> Lookup req name = Some v.
Proof.
  apply (binding_precedence Demo.createUser Demo.UpdateUserRequest None Demo.putUser).
  - exact Demo_path_binder_overrides.
  - reflexivity.
  - right. left. reflexivity.
Defined.

(** C4 on the [Name] field of [CreateUserRequest]. *)
Lemma required_list_correct_witness :
  In (serializedName Demo.nameField)
     (Required (generateSchema Demo.parseInteger Demo.CreateUserRequest)) <->
  ConstraintSet_required Demo.nameField = true /\ omitIfEmpty Demo.nameField = false.
Proof.
  apply (required_list_correct Z Demo.parseInteger "main.CreateUserRequest"
           [Demo.nameField; Demo.emailField] Demo.nameField).
  - reflexivity.
  - cbn. constructor.
    + intros [Hin | []]. discriminate Hin.
    + constructor; [intros [] | constructor].
  - left. reflexivity.
  - reflexivity.
  - intros _. reflexivity.
Defined.

(** The claim C4 as it stands fails in both directions: a field whose
    annotation is [oneof=required optional] is listed although [required]
    is not one of its constraints, and a required field left out of
    serialization is not listed. *)
Lemma required_list_counterexample :
  (In (serializedName Demo.statusField)
      (Required (generateSchema Demo.parseInteger Demo.Account)) /\
   ConstraintSet_required Demo.statusField = false) /\
  (~ In (serializedName Demo.secretField)
        (Required (generateSchema Demo.parseInteger Demo.Account)) /\
   ConstraintSet_required Demo.secretField = true /\
   omitIfEmpty Demo.secretField = false).
Proof.
  split; split.
  - left. reflexivity.
  - reflexivity.
  - intros [Hin | []]. discriminate Hin.
  - split; reflexivity.
Qed.

(** C5 on [CreateUserRequest], and on [min=3] applied to a boolean node. *)
Lemma bounds_are_type_gated_witness :
  everyNode boundsGated (generateSchema Demo.parseInteger Demo.CreateUserRequest) /\
  applyValidation Demo.parseInteger (schemaOfType (ref:=SchemaRef Z) "boolean") "min=3"
  = schemaOfType "boolean".
Proof.
  destruct (bounds_are_type_gated Z Demo.parseInteger Demo.CreateUserRequest
              (schemaOfType "boolean") "min=3") as [Hnodes Hignored].
  split; [exact Hnodes|]. apply Hignored; reflexivity.
Defined.

(** C6 on a string field annotated [min=abc,max=1x]. *)
Lemma malformed_bound_is_dropped_witness :
  (applyValidation Demo.parseInteger (schemaOfType (ref:=SchemaRef Z) "string") ("min=" ++ "abc")
   = schemaOfType "string" /\
   applyValidation Demo.parseInteger (schemaOfType (ref:=SchemaRef Z) "string") ("max=" ++ "abc")
   = schemaOfType "string") /\
  exists node,
    mapLookup (serializedName Demo.nickField)
              (Properties (addField Demo.parseInteger (generateSchema Demo.parseInteger)
                                    (schemaOfType "object") Demo.nickField))
    = Some (mkRef node) /\
    MinLength node = 0 /\ MaxLength node = None /\ Min node = None /\ Max node = None.
Proof.
  destruct (malformed_bound_is_dropped Z Demo.parseInteger (schemaOfType "string")
              (schemaOfType "object") "abc" Demo.nickField) as [Htoken Hfield].
  split.
  - apply Htoken. reflexivity.
  - apply Hfield; [reflexivity|].
    repeat constructor; intros Hprefix; try discriminate Hprefix; reflexivity.
Defined.

(** C3 on the example application's [deleteTodo]: the 404 it returns is
    sent as a success. *)
Lemma deleteTodo_failure_is_sent_as_success :
  reportedFailure (Call Demo.deleteTodo [ArgContext Demo.putUser])
  = Some (HTTPError 404 "todo not found") /\
  snd (createEchoHandler Demo.deleteTodo None None Demo.putUser) =
    JSON 200 (mkResponse (Some (VError (Some (HTTPError 404 "todo not found")))) "" true).
Proof. split; reflexivity. Qed.

(** C7 on [POST /users] with a complete body, and on a handler that
    returns a nil slice. *)
Lemma success_reply_witness :
  snd (createEchoHandler Demo.createUser (Some Demo.CreateUserRequest) None Demo.postUser) =
    JSON 200 (mkResponse (Some (Demo.TestUser "123" "John Doe" "john@example.com")) "" true) /\
  snd (createEchoHandler Demo.listNothing None (Some (mkRoute "" "" [] 201)) Demo.postUser) =
    NoContent 204.
Proof.
  split.
  - apply (success_reply Demo.createUser (Some Demo.CreateUserRequest) None Demo.postUser
             [ArgContext Demo.postUser;
              ArgRequest [(Demo.nameField, "John Doe"); (Demo.emailField, "john@example.com")]]).
    + right. left. reflexivity.
    + reflexivity.
  - apply (success_reply Demo.listNothing None (Some (mkRoute "" "" [] 201)) Demo.postUser
             [ArgContext Demo.postUser]).
    + left. reflexivity.
    + reflexivity.
Defined.

(** The claim C8 as it stands fails: a function that does not take a
    context is registered without a panic. *)
Lemma registration_counterexample :
  takesContextFirst (Some Demo.notAnAdapterTarget) = false /\
  exists app,
    registerRoute "GET" "/x" (Some Demo.notAnAdapterTarget) [] Demo.emptyApp = Returns app.
Proof. split; [reflexivity | eexists; reflexivity]. Qed.

(** C10 on a successful [POST /users], on one that fails validation, and
    on a handler that fails with a 404. *)
Lemma envelope_invariant_witness :
  exclusive (mkResponse (Some (Demo.TestUser "123" "John Doe" "john@example.com")) "" true) /\
  (Success (mkResponse None
              ("Validation failed: " ++
               "Field validation for 'Email' failed on the 'required' tag") false) = false /\
   Error (mkResponse None
            ("Validation failed: " ++
             "Field validation for 'Email' failed on the 'required' tag") false) <> "") /\
  (404 = errorStatus (HTTPError 404 "user not found") /\
   Success (mkResponse None "user not found" false) = false /\
   Data (mkResponse None "user not found" false) = None /\
   Error (mkResponse None "user not found" false) = errorText (HTTPError 404 "user not found")).
Proof.
  split; [|split].
  - apply (envelope_invariant Demo.createUser (Some Demo.CreateUserRequest) None Demo.postUser
             200 (mkResponse (Some (Demo.TestUser "123" "John Doe" "john@example.com")) "" true)).
    reflexivity.
  - apply (envelope_invariant Demo.createUser (Some Demo.CreateUserRequest) None
             Demo.postWithoutEmail 400
             (mkResponse None
                ("Validation failed: " ++
                 "Field validation for 'Email' failed on the 'required' tag") false)).
    + reflexivity.
    + intros args [Hev | []]. discriminate Hev.
  - apply (envelope_invariant Demo.getUser None None Demo.postUser
             404 (mkResponse None "user not found" false) eq_refl)
      with (args := [ArgContext Demo.postUser]).
    + left. reflexivity.
    + cbn. lia.
    + reflexivity.
Defined.

(** The claim C10 as it stands fails: a handler failing with an error
    whose text is empty is answered with an envelope whose error message is
    empty. *)
Lemma envelope_counterexample :
  reportedFailure (Call Demo.failSilently [ArgContext Demo.postUser]) = Some (OtherError "") /\
  snd (createEchoHandler Demo.failSilently None None Demo.postUser) =
    JSON StatusInternalServerError (mkResponse None "" false).
Proof. split; reflexivity. Qed.

(** * Further properties of the code *)

(** ** Invariants of derived schemas *)

Section NodeInvariant.

Variable float64 : Type.
Variable ParseFloat : string -> option float64.
Variable P : Schema float64 -> Prop.

Hypothesis P_leaf : forall ty,
  In ty ["string"; "integer"; "number"; "boolean"; "object"] -> P (schemaOfType ty).
Hypothesis P_time : P (withFormat "date-time" (schemaOfType "string")).
Hypothesis P_array : forall r, P (withItems (Some r) (schemaOfType "array")).
Hypothesis P_mapping : forall r, P (withAdditionalProperties (Some r) (schemaOfType "object")).
Hypothesis P_decorate : forall field s, P s -> P (decorate ParseFloat field s).
Hypothesis P_attach : forall field r s, isObject s -> P s -> P (attach field r s).

Local Abbreviation derive := (generateSchema ParseFloat).

Lemma isObject_attach field r (s : Schema float64) : isObject s -> isObject (attach field r s).
Proof.
  unfold isObject, attach, noteRequired. intros Hs.
  destruct (_ && _); exact Hs.
Qed.

Lemma everyNode_decorate field (s : Schema float64) :
  everyNode P s -> everyNode P (decorate ParseFloat field s).
Proof.
  rewrite !everyNode_unfold. intros [Hroot Hbelow].
  split; [apply P_decorate, Hroot|].
  destruct (attrUpdate_decorate float64 ParseFloat field) as [Hframe _].
  destruct (Hframe _ s) as (Hi & Ha & Hp).
  unfold everyChild. rewrite Hi, Ha, Hp. exact Hbelow.
Qed.

Lemma everyNode_attach field (child s : Schema float64) :
  isObject s -> everyNode P child -> everyNode P s ->
  everyNode P (attach field (mkRef child) s).
Proof.
  intros Hobj Hchild. rewrite !everyNode_unfold. intros [Hroot (Hi & Ha & Hp)].
  split; [apply P_attach; assumption|].
  destruct (attrUpdate_noteRequired float64 field) as [Hframe _].
  destruct (Hframe _ s) as (Hni & Hna & Hnp).
  unfold everyChild, attach. cbn [Items AdditionalProperties Properties withProperties].
  rewrite Hni, Hna, Hnp.
  split; [exact Hi|]. split; [exact Ha|].
  apply mapAssign_Forall; [exact Hchild | exact Hp].
Qed.

Lemma everyNode_loop (fields : list StructField) :
  Forall (fun f => everyNode P (derive (Typ f))) fields ->
  forall schema, isObject schema -> everyNode P schema ->
  everyNode P (fold_left (addField ParseFloat derive) fields schema).
Proof.
  induction 1 as [|f fields Hf Hfields IH]; intros schema Hobj Hschema; cbn [fold_left];
    [exact Hschema|].
  rewrite addField_regroup. destruct (excluded f); [apply IH; assumption|].
  apply IH; [apply isObject_attach, Hobj|].
  apply everyNode_attach; [exact Hobj | apply everyNode_decorate, Hf | exact Hschema].
Qed.

Lemma everyNode_invariant t : everyNode P (derive t).
Proof.
  assert (Hleaf : forall ty,
             In ty ["string"; "integer"; "number"; "boolean"; "object"] ->
             everyNode P (schemaOfType ty)).
  { intros ty Hty. apply everyNode_leaf, P_leaf, Hty. }
  induction t as [ | | | | | | | elem IH | key elem _ IH | name fields IH
                 | elem IH | name | ins outs _ _ | kind ] using GoType_ind;
    try (apply Hleaf; cbn; tauto).
  - apply everyNode_unfold. split; [apply P_array|].
    split; [exact IH|]. split; [exact I | constructor].
  - apply everyNode_unfold. split; [apply P_mapping|].
    split; [exact I|]. split; [exact IH | constructor].
  - destruct (String.eqb name "time.Time") eqn:Hname.
    + cbn [generateSchema]. rewrite Hname.
      apply everyNode_unfold. split; [exact P_time|]. repeat split. constructor.
    + rewrite (generateSchema_struct _ _ _ _ Hname).
      apply everyNode_loop; [exact IH | repeat split | apply Hleaf; cbn; tauto].
  - rewrite generateSchema_ptr.
    destruct elem; try exact IH; apply Hleaf; cbn; tauto.
Qed.

End NodeInvariant.

Section DerivedNodes.

Variable float64 : Type.
Variable ParseFloat : string -> option float64.

Local Abbreviation derive := (generateSchema ParseFloat).

Ltac by_cases :=
  repeat match goal with
         | |- context [if ?b then _ else _] => destruct b
         | |- context [match Atoi ?x with _ => _ end] => destruct (Atoi x)
         | |- context [match ParseFloat ?x with _ => _ end] => destruct (ParseFloat x)
         end.

Lemma applyValidation_head {ref : Type} (s : SchemaOf float64 ref) v :
  Type_ (applyValidation ParseFloat s v) = Type_ s /\
  Required (applyValidation ParseFloat s v) = Required s.
Proof.
  unfold applyValidation, applyOneof, applyEmail.
  assert (Hmin : Type_ (applyMin ParseFloat v s) = Type_ s /\
                 Required (applyMin ParseFloat v s) = Required s)
    by (unfold applyMin; by_cases; split; reflexivity).
  assert (Hmax : forall y : SchemaOf float64 ref,
             Type_ (applyMax ParseFloat v y) = Type_ y /\
             Required (applyMax ParseFloat v y) = Required y)
    by (intros y; unfold applyMax; by_cases; split; reflexivity).
  destruct Hmin as [Ht Hr]. destruct (Hmax (applyMin ParseFloat v s)) as [Ht' Hr'].
  destruct (HasPrefix v "oneof="), (String.eqb v "email"); cbn;
    rewrite Ht', Hr', Ht, Hr; split; reflexivity.
Qed.

Lemma validations_head {ref : Type} vs (s : SchemaOf float64 ref) :
  Type_ (fold_left (applyValidation ParseFloat) vs s) = Type_ s /\
  Required (fold_left (applyValidation ParseFloat) vs s) = Required s.
Proof.
  revert s. induction vs as [|v vs IH]; intros s; cbn [fold_left]; [split; reflexivity|].
  destruct (IH (applyValidation ParseFloat s v)) as [-> ->]. apply applyValidation_head.
Qed.

(** Decorating a field's schema changes neither its type, nor its
    required list, nor its references. *)
Lemma decorate_head {ref : Type} field (s : SchemaOf float64 ref) :
  Type_ (decorate ParseFloat field s) = Type_ s /\
  Required (decorate ParseFloat field s) = Required s /\
  Items (decorate ParseFloat field s) = Items s /\
  AdditionalProperties (decorate ParseFloat field s) = AdditionalProperties s /\
  Properties (decorate ParseFloat field s) = Properties s.
Proof.
  destruct (attrUpdate_decorate float64 ParseFloat field) as [Hframe _].
  destruct (Hframe _ s) as (Hi & Ha & Hp).
  split; [|split]; [| |auto].
  - unfold decorate. destruct (negb _); destruct (negb _);
      try reflexivity;
      match goal with |- Type_ (fold_left _ ?vs ?y) = _ => exact (proj1 (validations_head vs y)) end.
  - unfold decorate. destruct (negb _); destruct (negb _);
      try reflexivity;
      match goal with |- Required (fold_left _ ?vs ?y) = _ => exact (proj2 (validations_head vs y)) end.
Qed.

Lemma applyValidation_lengths {ref : Type} (s : SchemaOf float64 ref) v :
  lengthsInRange s -> lengthsInRange (applyValidation ParseFloat s v).
Proof.
  assert (Hwrap : forall n, 0 <= uint64 n < 2 ^ 64)
    by (intros n; unfold uint64; apply Z.mod_pos_bound; lia).
  assert (Hmin : forall y : SchemaOf float64 ref,
             lengthsInRange y -> lengthsInRange (applyMin ParseFloat v y)).
  { intros y [Hlo Hhi]. unfold applyMin. by_cases; split; cbn; auto. }
  assert (Hmax : forall y : SchemaOf float64 ref,
             lengthsInRange y -> lengthsInRange (applyMax ParseFloat v y)).
  { intros y [Hlo Hhi]. unfold applyMax. by_cases; split; cbn; auto.
    intros n [= <-]. apply Hwrap. }
  intros Hs. unfold applyValidation, applyOneof, applyEmail.
  pose proof (Hmax _ (Hmin _ Hs)) as Hmm.
  destruct (HasPrefix v "oneof="), (String.eqb v "email"); exact Hmm.
Qed.

Lemma decorate_lengths {ref : Type} field (s : SchemaOf float64 ref) :
  lengthsInRange s -> lengthsInRange (decorate ParseFloat field s).
Proof.
  assert (Hfold : forall vs (y : SchemaOf float64 ref),
             lengthsInRange y -> lengthsInRange (fold_left (applyValidation ParseFloat) vs y)).
  { induction vs as [|v vs IH]; intros y Hy; cbn [fold_left]; [exact Hy|].
    apply IH, applyValidation_lengths, Hy. }
  intros Hs. unfold decorate.
  destruct (negb _); destruct (negb _); try apply Hfold; exact Hs.
Qed.

Lemma mapLookup_mapAssign_kept {V : Type} k k' (v : V) m :
  mapLookup k' m <> None -> mapLookup k' (mapAssign k v m) <> None.
Proof.
  induction m as [|[k0 v0] m IH]; cbn; [congruence|].
  destruct (String.eqb k0 k) eqn:Hk.
  - apply String.eqb_eq in Hk. subst k0. cbn.
    destruct (String.eqb k k'); [discriminate | auto].
  - cbn. destruct (String.eqb k0 k'); [discriminate | exact IH].
Qed.

(** X1. At every node of a derived schema, each name of the required list
    is the name of one of the node's properties. *)
Theorem required_names_are_properties (t : GoType) :
  everyNode requiredAreProperties (derive t).
Proof.
  apply everyNode_invariant.
  - intros ty _ name [].
  - intros name [].
  - intros r name [].
  - intros r name [].
  - intros field s Hs name.
    destruct (decorate_head field s) as (_ & -> & _ & _ & ->). apply Hs.
  - intros field r s _ Hs name. unfold attach, noteRequired.
    cbn [Required Properties withProperties].
    destruct (_ && _); cbn [Required Properties withRequired].
    + intros Hin. apply in_app_or in Hin as [Hin | [<- | []]].
      * apply mapLookup_mapAssign_kept, Hs, Hin.
      * rewrite mapLookup_mapAssign. discriminate.
    + intros Hin. apply mapLookup_mapAssign_kept, Hs, Hin.
Qed.

(** X2. Every node of a derived schema has one of the six types; it has
    items exactly when it is an array; properties, a schema for additional
    properties and a required list occur on objects only; and its length
    bounds lie in the range of a [uint64] (a negative [min=] or [max=] on
    a string wraps around instead of being refused). *)
Theorem derived_nodes_are_well_shaped (t : GoType) :
  everyNode nodeShape (derive t).
Proof.
  assert (Hfresh : forall ty, lengthsInRange (schemaOfType (float64:=float64) (ref:=SchemaRef float64) ty)).
  { intros ty. split; cbn; [lia | discriminate]. }
  apply everyNode_invariant.
  - intros ty Hty. unfold nodeShape. cbn [Type_ Items AdditionalProperties Properties
                                            Required schemaOfType].
    split; [cbn in Hty |- *; tauto|].
    split; [split; [congruence | intros ->; cbn in Hty; intuition discriminate]|].
    split; [congruence|]. split; [congruence|]. split; [congruence|]. apply Hfresh.
  - unfold nodeShape. cbn. repeat split; try congruence; try lia; auto.
  - intros r. unfold nodeShape. cbn. repeat split; try congruence; try lia; auto 10.
  - intros r. unfold nodeShape. cbn. repeat split; try congruence; try lia; auto 10.
  - intros field s (Hty & Hitems & Hadd & Hprops & Hreq & Hlen).
    destruct (decorate_head field s) as (Ht & Hr & Hi & Ha & Hp).
    unfold nodeShape. rewrite Ht, Hr, Hi, Ha, Hp.
    repeat (split; [assumption|]). apply (decorate_lengths field s Hlen).
  - intros field r s (Hobj & Hi & Ha) (Hty & _ & _ & _ & _ & Hlen).
    destruct (attrUpdate_noteRequired float64 field) as [Hframe _].
    destruct (Hframe _ s) as (Hni & Hna & Hnp).
    assert (Hhead : Type_ (attach field r s) = Type_ s /\
                    MinLength (attach field r s) = MinLength s /\
                    MaxLength (attach field r s) = MaxLength s)
      by (unfold attach, noteRequired; destruct (_ && _); repeat split).
    destruct Hhead as (Ht & Hmin & Hmax).
    unfold nodeShape. rewrite Ht, Hmin, Hmax.
    unfold attach at 1 2. cbn [Items AdditionalProperties withProperties].
    rewrite Hni, Hna, Hi, Ha, Hobj.
    split; [cbn; tauto|].
    split; [split; [congruence | discriminate]|].
    split; [congruence|]. split; [reflexivity|]. split; [reflexivity|]. exact Hlen.
Qed.

End DerivedNodes.

(** ** Fields and property names *)

Section StructFields.

Variable float64 : Type.
Variable ParseFloat : string -> option float64.

Local Abbreviation derive := (generateSchema ParseFloat).

Lemma mapLookup_mapAssign_ne {V : Type} k k' (v : V) m :
  k <> k' -> mapLookup k' (mapAssign k v m) = mapLookup k' m.
Proof.
  intros Hne. induction m as [|[k0 v0] m IH]; cbn.
  - destruct (String.eqb k k') eqn:Hk; [apply String.eqb_eq in Hk; contradiction | reflexivity].
  - destruct (String.eqb k0 k) eqn:Hk0; cbn.
    + apply String.eqb_eq in Hk0. subst k0.
      destruct (String.eqb k k') eqn:Hk; [apply String.eqb_eq in Hk; contradiction | reflexivity].
    + destruct (String.eqb k0 k'); [reflexivity | exact IH].
Qed.

Lemma Properties_attach {ref : Type} field (r : ref) (s : SchemaOf float64 ref) :
  Properties (attach field r s) = mapAssign (serializedName field) r (Properties s).
Proof. unfold attach, noteRequired. destruct (_ && _); reflexivity. Qed.

Lemma fold_addField_other name (fields : list StructField) :
  (forall g, In g fields -> excluded g = false -> serializedName g <> name) ->
  forall schema : Schema float64,
    mapLookup name (Properties (fold_left (addField ParseFloat derive) fields schema)) =
    mapLookup name (Properties schema).
Proof.
  induction fields as [|g fields IH]; intros Hother schema; cbn [fold_left]; [reflexivity|].
  rewrite IH by (intros g' Hg'; apply Hother; right; exact Hg').
  rewrite addField_regroup. destruct (excluded g) eqn:Hg; [reflexivity|].
  rewrite Properties_attach. apply mapLookup_mapAssign_ne.
  apply Hother; [left; reflexivity | exact Hg].
Qed.

Lemma fold_addField_app (l1 l2 : list StructField) (schema : Schema float64) :
  fold_left (addField ParseFloat derive) (l1 ++ l2) schema =
  fold_left (addField ParseFloat derive) l2 (fold_left (addField ParseFloat derive) l1 schema).
Proof. apply List.fold_left_app. Qed.

(** X3. In the schema of a struct, the property found under a field's
    serialized name is the schema derived from the type of the last field
    that carries this name (and is not left out of serialization),
    decorated with that field's annotations. *)
Theorem property_of_last_field_with_name sname (before after : list StructField)
    (f : StructField) :
  String.eqb sname "time.Time" = false ->
  excluded f = false ->
  (forall g, In g after -> excluded g = false -> serializedName g <> serializedName f) ->
  mapLookup (serializedName f)
            (Properties (derive (TStruct sname (before ++ f :: after)))) =
  Some (mkRef (decorate ParseFloat f (derive (Typ f)))).
Proof.
  intros Hname Hf Hafter.
  rewrite (generateSchema_struct _ _ _ _ Hname), fold_addField_app. cbn [fold_left].
  rewrite (fold_addField_other _ _ Hafter), addField_regroup, Hf, Properties_attach.
  apply mapLookup_mapAssign.
Qed.

Lemma fold_addField_filter (fields : list StructField) (schema : Schema float64) :
  fold_left (addField ParseFloat derive) fields schema =
  fold_left (addField ParseFloat derive) (List.filter (fun f => negb (excluded f)) fields) schema.
Proof.
  revert schema. induction fields as [|f fields IH]; intros schema; cbn [fold_left List.filter];
    [reflexivity|].
  destruct (excluded f) eqn:Hf; cbn [negb fold_left].
  - rewrite addField_regroup, Hf. apply IH.
  - apply IH.
Qed.

(** X4. A field left out of serialization ([json:"-"]) has no influence on
    the schema of its struct, whatever its type and its other annotations:
    the schema is that of the struct without such fields. *)
Theorem excluded_fields_leave_no_trace sname (fields : list StructField) :
  derive (TStruct sname fields) =
  derive (TStruct sname (List.filter (fun f => negb (excluded f)) fields)).
Proof.
  cbn [generateSchema]. destruct (String.eqb sname "time.Time"); [reflexivity|].
  apply fold_addField_filter.
Qed.

(** X5. One level of pointer is transparent to the derivation, on trees
    and on the heap alike; a pointer to a pointer is not followed and
    degrades to an untyped object. *)
Theorem pointers_are_followed_once (elem : GoType) (h : Store.Heap float64) :
  (isPointer elem = false ->
   derive (TPtr elem) = derive elem /\
   Store.generateSchema ParseFloat (TPtr elem) h = Store.generateSchema ParseFloat elem h) /\
  derive (TPtr (TPtr elem)) = schemaOfType "object" /\
  Store.generateSchema ParseFloat (TPtr (TPtr elem)) h = Store.new (schemaOfType "object") h.
Proof.
  split; [|split; reflexivity].
  intros Hptr. destruct elem; try discriminate Hptr; split; reflexivity.
Qed.

End StructFields.

(** ** Binding sources and handler arguments *)

Section BindingSources.

Context {Ctx Instance Val : Type}.
Variables C1 C2 : Collaborators Ctx Instance Val.

(** X6. Which binder the adapter consults is decided by the verb alone:
    for GET and DELETE the reply does not depend on the body binder, for
    every other verb it does not depend on the query binder, and for a
    handler without input shape it depends on no binder and on no
    validator at all. *)
Theorem binder_is_chosen_by_verb (handler : @Handler Ctx Instance) (rt : GoType)
    (routeConfig : option Route) (c : Ctx) :
  (@RequestMethod _ _ _ C1 c = @RequestMethod _ _ _ C2 c ->
   @New _ _ _ C1 rt = @New _ _ _ C2 rt ->
   (forall req, @BindPathParams _ _ _ C1 c req = @BindPathParams _ _ _ C2 c req) ->
   (forall req, @Struct _ _ _ C1 req = @Struct _ _ _ C2 req) ->
   (if readVerb (@RequestMethod _ _ _ C1 c)
    then forall req, @BindQueryParams _ _ _ C1 c req = @BindQueryParams _ _ _ C2 c req
    else forall req, @Bind _ _ _ C1 c req = @Bind _ _ _ C2 c req) ->
   @createEchoHandler _ _ _ C1 handler (Some rt) routeConfig c =
   @createEchoHandler _ _ _ C2 handler (Some rt) routeConfig c) /\
  @createEchoHandler _ _ _ C1 handler None routeConfig c =
  @createEchoHandler _ _ _ C2 handler None routeConfig c.
Proof.
  split; [|reflexivity].
  intros Hmethod Hnew Hpath Hvalid Hsource.
  unfold createEchoHandler, bindRequest, readVerb in *.
  rewrite <- Hmethod, <- Hnew.
  destruct (String.eqb (@RequestMethod _ _ _ C1 c) "GET"
            || String.eqb (@RequestMethod _ _ _ C1 c) "DELETE").
  - rewrite <- Hsource.
    destruct (@BindQueryParams _ _ _ C1 c (@New _ _ _ C1 rt)) as [req|err]; [|reflexivity].
    rewrite <- Hpath.
    destruct (@BindPathParams _ _ _ C1 c req) as [req'|err]; [|reflexivity].
    rewrite <- Hvalid. reflexivity.
  - rewrite <- Hsource.
    destruct (@Bind _ _ _ C1 c (@New _ _ _ C1 rt)) as [req|err]; [|reflexivity].
    rewrite <- Hpath.
    destruct (@BindPathParams _ _ _ C1 c req) as [req'|err]; [|reflexivity].
    rewrite <- Hvalid. reflexivity.
Qed.

End BindingSources.

Section HandlerArguments.

Context {Ctx Instance Val : Type} `{Collaborators Ctx Instance Val}.

(** X7. Registering a function records its second parameter as the input
    shape and its first result as the output shape, whatever else its
    signature holds; and the adapter it hands to Echo calls the function
    with two arguments when it has more than one parameter and with one
    argument otherwise: a function with no parameter or with more than
    two is registered all the same and is later called with a number of
    arguments that is not its own. *)
Theorem adapter_passes_one_or_two_arguments (method path : string)
    (h : @Handler Ctx Instance) (opts : list Route) (app : @App Ctx Instance)
    (ins outs : list GoType) :
  handlerType h = TFunc ins outs ->
  exists info,
    registerRoute method path (Some h) opts app =
      Returns (mkApp (routes app ++ [info])
                     (if knownVerb method
                      then echoRoutes app ++
                           [(method, path,
                             createEchoHandler h (RequestType info) (RouteConfig info))]
                      else echoRoutes app)) /\
    RequestType info = (if (1 <? length ins)%nat then nth_error ins 1 else None) /\
    ResponseType info = nth_error outs 0 /\
    RouteConfig info = hd_error opts /\
    forall c args,
      In (EvCall args) (fst (createEchoHandler h (RequestType info) (RouteConfig info) c)) ->
      length args = (if (1 <? length ins)%nat then 2%nat else 1%nat) /\
      hd_error args = Some (ArgContext c).
Proof.
  intros Hty. unfold registerRoute. rewrite Hty.
  assert (Hrequest : forall t, (if (1 <? length ins)%nat then nth_error ins 1 else None) = Some t ->
                               (1 <? length ins)%nat = true)
    by (intros t; destruct (1 <? length ins)%nat; [reflexivity | discriminate]).
  assert (Hnone : (if (1 <? length ins)%nat then nth_error ins 1 else None) = None ->
                  (1 <? length ins)%nat = false).
  { destruct (1 <? length ins)%nat eqn:Hlen; [|reflexivity].
    apply Nat.ltb_lt in Hlen. intros Hnth. apply nth_error_None in Hnth. lia. }
  assert (Hresponse : (if (0 <? length outs)%nat then nth_error outs 0 else None)
                      = nth_error outs 0)
    by (destruct outs; reflexivity).
  set (requestType := if (1 <? length ins)%nat then nth_error ins 1 else None) in *.
  set (responseType := if (0 <? length outs)%nat then nth_error outs 0 else None) in *.
  destruct opts as [|route opts];
    [exists (mkRouteInfo method path h "" "" [] requestType responseType None)
    |exists (mkRouteInfo method path h (Summary route) (Description route) (Tags route)
                         requestType responseType (Some route))];
    (split; [reflexivity|]);
    cbn [RequestType ResponseType RouteConfig hd_error];
    (split; [reflexivity|]); (split; [exact Hresponse|]); (split; [reflexivity|]);
    intros c args Hcall;
    destruct (reply_after_call _ _ _ _ _ Hcall) as [_ Hargs];
    destruct requestType as [t|] eqn:Hreq.
  - destruct Hargs as (req & _ & _ & ->). rewrite (Hrequest t eq_refl). split; reflexivity.
  - subst args. rewrite (Hnone eq_refl). split; reflexivity.
  - destruct Hargs as (req & _ & _ & ->). rewrite (Hrequest t eq_refl). split; reflexivity.
  - subst args. rewrite (Hnone eq_refl). split; reflexivity.
Qed.

End HandlerArguments.

(** ** Paths of the document *)

Lemma append_cons c s t : (String c s ++ t)%string = String c (s ++ t)%string.
Proof. reflexivity. Qed.

Lemma append_empty_l t : ("" ++ t)%string = t.
Proof. reflexivity. Qed.

Lemma append_empty_r s : (s ++ "")%string = s.
Proof. induction s as [|c s IH]; [reflexivity|]. rewrite append_cons, IH. reflexivity. Qed.

Lemma append_brace_inj a b : (a ++ "}")%string = (b ++ "}")%string -> a = b.
Proof.
  revert b. induction a as [|c a IH]; intros [|d b] Heq.
  - reflexivity.
  - rewrite append_empty_l, append_cons in Heq. injection Heq as _ Heq.
    destruct b; discriminate Heq.
  - rewrite append_empty_l, append_cons in Heq. injection Heq as _ Heq.
    destruct a; discriminate Heq.
  - rewrite !append_cons in Heq. injection Heq as -> Heq. f_equal. apply IH, Heq.
Qed.

Lemma Split_nonempty s sep : Split s sep <> [].
Proof.
  destruct s as [|c s]; cbn [Split]; [discriminate|].
  destruct (Ascii.eqb c sep); [discriminate|].
  destruct (Split s sep); discriminate.
Qed.

Lemma Join_cons part rest sep :
  rest <> [] -> Join (part :: rest) sep = (part ++ sep ++ Join rest sep)%string.
Proof. destruct rest; [congruence | reflexivity]. Qed.

(** [strings.Join] undoes [strings.Split]. *)
Lemma Join_Split s sep : Join (Split s sep) (String sep "") = s.
Proof.
  induction s as [|c s IH]; [reflexivity|]. cbn [Split].
  destruct (Ascii.eqb c sep) eqn:Hc.
  - apply Ascii.eqb_eq in Hc as ->.
    rewrite Join_cons by apply Split_nonempty.
    rewrite IH. reflexivity.
  - destruct (Split s sep) as [|piece pieces] eqn:Hs; [destruct (Split_nonempty _ _ Hs)|].
    destruct pieces as [|piece' pieces].
    + cbn [Join] in *. rewrite IH. reflexivity.
    + rewrite Join_cons in * by discriminate.
      rewrite append_cons, IH. reflexivity.
Qed.

Lemma Split_single_inv c s sep :
  Split (String c s) sep = [String c s] -> Ascii.eqb c sep = false /\ Split s sep = [s].
Proof.
  cbn [Split]. destruct (Ascii.eqb c sep); [discriminate|].
  destruct (Split s sep) as [|piece pieces] eqn:Hs; [destruct (Split_nonempty _ _ Hs)|].
  intros Heq. injection Heq as -> ->. split; reflexivity.
Qed.

Lemma Split_single_cons c s sep :
  Ascii.eqb c sep = false -> Split s sep = [s] -> Split (String c s) sep = [String c s].
Proof. intros Hc Hs. cbn [Split]. rewrite Hc, Hs. reflexivity. Qed.

Lemma Split_append a b sep :
  Split a sep = [a] ->
  Split (a ++ b)%string sep =
  match Split b sep with
  | [] => [a]
  | piece :: pieces => (a ++ piece)%string :: pieces
  end.
Proof.
  induction a as [|c a IH]; intros Ha.
  - rewrite append_empty_l. destruct (Split b sep) eqn:Hb; [destruct (Split_nonempty _ _ Hb)|].
    reflexivity.
  - apply Split_single_inv in Ha as [Hc Ha].
    rewrite append_cons. cbn [Split]. rewrite Hc, (IH Ha).
    destruct (Split b sep); reflexivity.
Qed.

Lemma Split_single_append a b sep :
  Split a sep = [a] -> Split b sep = [b] -> Split (a ++ b)%string sep = [(a ++ b)%string].
Proof. intros Ha Hb. rewrite (Split_append _ _ _ Ha), Hb. reflexivity. Qed.

(** No piece of a split contains the separator. *)
Lemma Split_pieces s sep : Forall (fun piece => Split piece sep = [piece]) (Split s sep).
Proof.
  induction s as [|c s IH]; cbn [Split].
  - repeat constructor.
  - destruct (Ascii.eqb c sep) eqn:Hc.
    + constructor; [reflexivity | exact IH].
    + destruct (Split s sep) as [|piece pieces]; [repeat constructor; cbn; rewrite Hc; reflexivity|].
      apply List.Forall_cons_iff in IH as [Hpiece Hpieces].
      constructor; [|exact Hpieces].
      apply Split_single_cons; assumption.
Qed.

(** [strings.Split] undoes [strings.Join] on pieces free of the
    separator. *)
Lemma Split_Join parts sep :
  parts <> [] -> Forall (fun piece => Split piece sep = [piece]) parts ->
  Split (Join parts (String sep "")) sep = parts.
Proof.
  induction parts as [|part rest IH]; [congruence|]. intros _ Hparts.
  apply List.Forall_cons_iff in Hparts as [Hpart Hrest].
  destruct rest as [|part' rest]; [exact Hpart|].
  rewrite Join_cons by discriminate.
  rewrite (Split_append _ _ _ Hpart), append_cons, append_empty_l.
  cbn [Split]. rewrite Ascii.eqb_refl.
  rewrite IH by (discriminate || assumption).
  rewrite append_empty_r. reflexivity.
Qed.

Lemma dropBytes_single part sep :
  Split part sep = [part] -> Split (dropBytes 1 part) sep = [dropBytes 1 part].
Proof.
  destruct part as [|c part]; [intros _; reflexivity|].
  intros Hpart. apply Split_single_inv in Hpart as [_ Hpart]. exact Hpart.
Qed.

Lemma convertPart_single part :
  Split part slash = [part] -> Split (Doc.convertPart part) slash = [Doc.convertPart part].
Proof.
  intros Hpart. unfold Doc.convertPart. destruct (HasPrefix part ":"); [|exact Hpart].
  change ("{" ++ dropBytes 1 part ++ "}")%string
    with (String "{" (dropBytes 1 part ++ "}")%string).
  apply Split_single_cons; [reflexivity|].
  apply Split_single_append; [apply dropBytes_single, Hpart | reflexivity].
Qed.

Lemma HasPrefix_colon part :
  HasPrefix part ":" = true -> part = String ":" (dropBytes 1 part).
Proof.
  destruct part as [|c part]; cbn; [discriminate|].
  destruct (Ascii.eqb c ":") eqn:Hc; [|discriminate].
  apply Ascii.eqb_eq in Hc as ->. reflexivity.
Qed.

Lemma convertPart_inj a b :
  opensBrace a = false -> opensBrace b = false ->
  Doc.convertPart a = Doc.convertPart b -> a = b.
Proof.
  unfold opensBrace, Doc.convertPart. intros Ha Hb.
  destruct (HasPrefix a ":") eqn:Hca, (HasPrefix b ":") eqn:Hcb.
  - change ("{" ++ dropBytes 1 a ++ "}")%string
      with (String "{" (dropBytes 1 a ++ "}")%string).
    change ("{" ++ dropBytes 1 b ++ "}")%string
      with (String "{" (dropBytes 1 b ++ "}")%string).
    intros Heq. injection Heq as Heq. apply append_brace_inj in Heq.
    rewrite (HasPrefix_colon a Hca), (HasPrefix_colon b Hcb). f_equal. exact Heq.
  - change ("{" ++ dropBytes 1 a ++ "}")%string
      with (String "{" (dropBytes 1 a ++ "}")%string).
    intros <-. cbn in Hb. discriminate Hb.
  - change ("{" ++ dropBytes 1 b ++ "}")%string
      with (String "{" (dropBytes 1 b ++ "}")%string).
    intros ->. cbn in Ha. discriminate Ha.
  - auto.
Qed.

Lemma Split_convertPath path :
  Split (Doc.convertPath path) slash = List.map Doc.convertPart (Split path slash).
Proof.
  unfold Doc.convertPath.
  apply (Split_Join (List.map Doc.convertPart (Split path slash)) slash).
  - destruct (Split path slash) eqn:Hs; [destruct (Split_nonempty _ _ Hs) | discriminate].
  - apply List.Forall_map. eapply List.Forall_impl; [|apply Split_pieces].
    intros part. apply convertPart_single.
Qed.

Lemma map_convertPart_inj (ps qs : list string) :
  forallb (fun part => negb (opensBrace part)) ps = true ->
  forallb (fun part => negb (opensBrace part)) qs = true ->
  List.map Doc.convertPart ps = List.map Doc.convertPart qs -> ps = qs.
Proof.
  revert qs. induction ps as [|a ps IH]; intros [|b qs] Hp Hq Heq;
    try discriminate Heq; [reflexivity|].
  cbn [forallb] in Hp, Hq.
  apply andb_prop in Hp as [Ha Hp]. apply andb_prop in Hq as [Hb Hq].
  apply negb_true_iff in Ha, Hb.
  cbn [List.map] in Heq. injection Heq as Hab Heq.
  f_equal; [apply convertPart_inj; assumption | apply IH; assumption].
Qed.

(** X8. The path under which a route is documented has the segments of
    the Echo path, in order, with every segment [:name] spelled [{name}]
    and every other segment kept as it is; a path without variable is
    documented under itself. *)
Theorem converted_path_keeps_the_segments (path : string) :
  segments (Doc.convertPath path) = List.map Doc.convertPart (segments path) /\
  (forallb (fun part => negb (isVariable part)) (segments path) = true ->
   Doc.convertPath path = path).
Proof.
  split; [apply Split_convertPath|].
  unfold segments, Doc.convertPath. intros Hplain.
  replace (List.map Doc.convertPart (Split path slash)) with (Split path slash);
    [apply (Join_Split path slash)|].
  rewrite forallb_forall in Hplain.
  symmetry. rewrite <- (List.map_id (Split path slash)) at 2.
  apply List.map_ext_in. intros part Hin.
  specialize (Hplain part Hin). unfold isVariable, Doc.convertPart in *.
  destruct (HasPrefix part ":"); [discriminate Hplain | reflexivity].
Qed.

(** X9. Two Echo paths none of whose segments starts with an opening
    brace are documented under the same path exactly when they are the
    same path. *)
Theorem distinct_paths_have_distinct_keys (p q : string) :
  forallb (fun part => negb (opensBrace part)) (segments p) = true ->
  forallb (fun part => negb (opensBrace part)) (segments q) = true ->
  Doc.convertPath p = Doc.convertPath q <-> p = q.
Proof.
  unfold segments. intros Hp Hq. split; [|intros ->; reflexivity]. intros Heq.
  rewrite <- (Join_Split p slash), <- (Join_Split q slash). f_equal.
  apply map_convertPart_inj; [assumption..|].
  rewrite <- !Split_convertPath, Heq. reflexivity.
Qed.

(** ** Operations of the document *)

Section Operations.

Variable float64 : Type.
Variable ParseFloat : string -> option float64.

Local Abbreviation derive := (generateSchema ParseFloat).
Local Abbreviation operationOf := (Doc.operationOf ParseFloat).

Lemma pathParameter_names (parts : list string) :
  List.map (fun p => String ":" (Doc.paramName p))
           (List.flat_map (@Doc.pathParameter float64) parts)
  = List.filter isVariable parts.
Proof.
  induction parts as [|part parts IH]; [reflexivity|].
  cbn [List.flat_map List.filter]. rewrite List.map_app, IH.
  unfold Doc.pathParameter, isVariable.
  destruct (HasPrefix part ":") eqn:Hc; [|reflexivity].
  cbn [List.map app Doc.paramName]. rewrite <- (HasPrefix_colon part Hc). reflexivity.
Qed.

(** X10. The path parameters of an operation are the variable segments
    of the Echo path, in order and with repetitions: each is named by its
    segment without the colon, which is the name the documented path
    holds in braces, and each is a required string found in the path. *)
Theorem path_parameters_name_the_variables (path : string) :
  List.map (fun p => String ":" (Doc.paramName p)) (@Doc.pathParameters float64 path)
    = List.filter isVariable (segments path) /\
  List.map (fun p => ("{" ++ Doc.paramName p ++ "}")%string) (@Doc.pathParameters float64 path)
    = List.map Doc.convertPart (List.filter isVariable (segments path)) /\
  Forall (fun p => Doc.paramIn p = "path" /\ Doc.paramRequired p = true /\
                   Doc.paramSchema p = schemaOfType "string")
         (@Doc.pathParameters float64 path).
Proof.
  unfold Doc.pathParameters, segments. split; [apply pathParameter_names|]. split.
  - induction (Split path slash) as [|part parts IH]; [reflexivity|].
    cbn [List.flat_map List.filter]. rewrite List.map_app, IH.
    unfold Doc.pathParameter, isVariable.
    destruct (HasPrefix part ":") eqn:Hc; [|reflexivity].
    cbn [List.map app Doc.paramName]. unfold Doc.convertPart. rewrite Hc.
    reflexivity.
  - induction (Split path slash) as [|part parts IH]; [constructor|].
    cbn [List.flat_map]. apply List.Forall_app. split; [|exact IH].
    unfold Doc.pathParameter. destruct (HasPrefix part ":"); repeat constructor.
Qed.





Lemma queryParameter_spec (f : StructField) :
  Forall (fun p => Doc.paramIn p = "query" /\ Doc.paramName p <> "" /\ Doc.paramName p <> "-" /\
                   Doc.paramName p = tag_query (Tag f) /\
                   Doc.paramRequired p = mentionsRequired f /\
                   Doc.paramSchema p = derive (Typ f))
         (Doc.queryParameter ParseFloat f).
Proof.
  unfold Doc.queryParameter, mentionsRequired.
  destruct (String.eqb_spec (tag_query (Tag f)) ""), (String.eqb_spec (tag_query (Tag f)) "-");
    cbn [orb]; try constructor; [|constructor].
  cbn [Doc.paramIn Doc.paramName Doc.paramRequired Doc.paramSchema].
  repeat (split; [congruence || reflexivity|]).
  split; [|reflexivity].
  destruct (String.eqb_spec (tag_validate (Tag f)) "") as [->|]; reflexivity.
Qed.


Lemma addQueryParameters_shape (operation : Doc.Operation float64) (t : GoType) :
  exists added,
    Doc.addQueryParameters ParseFloat operation t =
      Doc.mkOperation (Doc.opSummary operation) (Doc.opDescription operation)
                      (Doc.opTags operation) (Doc.opResponses operation)
                      (Doc.opParameters operation ++ added)
                      (Doc.opSecurity operation) (Doc.opRequestBody operation) /\
    Forall (fun p => Doc.paramIn p = "query") added.
Proof.
  assert (Hnone : exists added,
             operation =
               Doc.mkOperation (Doc.opSummary operation) (Doc.opDescription operation)
                      (Doc.opTags operation) (Doc.opResponses operation)
                      (Doc.opParameters operation ++ added)
                      (Doc.opSecurity operation) (Doc.opRequestBody operation) /\
             Forall (fun p => Doc.paramIn p = "query") added).
  { exists []. rewrite List.app_nil_r. destruct operation; split; [reflexivity | constructor]. }
  assert (Hfields : forall fields,
             Forall (fun p => Doc.paramIn p = "query")
                    (List.flat_map (Doc.queryParameter ParseFloat) fields)).
  { intros fields. apply List.Forall_forall. intros p Hin.
    apply List.in_flat_map in Hin as (f & _ & Hin).
    pose proof (queryParameter_spec f) as Hspec. rewrite List.Forall_forall in Hspec.
    apply (Hspec p Hin). }
  destruct t as [ | | | | | | | elem | key elem | name fields | elem | name | ins outs | kind ];
    cbn [Doc.addQueryParameters]; try exact Hnone.
  - eexists. split; [reflexivity | apply Hfields].
  - destruct elem; try exact Hnone. eexists. split; [reflexivity | apply Hfields].
Qed.

(** The operation before its responses are written (lines 375-483). *)
Lemma operationOf_request (route : Doc.RouteInfo) :
  exists added,
    Doc.opSummary (operationOf route) = Doc.Summary route /\
    Doc.opDescription (operationOf route) = Doc.Description route /\
    Doc.opTags (operationOf route) = Doc.Tags route /\
    Doc.opSecurity (operationOf route) = Doc.securityRequirements (Doc.RouteConfig route) /\
    Doc.opParameters (operationOf route) =
      ((Doc.pathParameters (Doc.Path route) ++ Doc.headerParameters (Doc.RouteConfig route))
       ++ added)%list /\
    (readVerb (Doc.Method route) && hasInputShape route = false -> added = []) /\
    Forall (fun p => Doc.paramIn p = "query") added /\
    Doc.opRequestBody (operationOf route) =
      match Doc.RequestType route with
      | Some requestType =>
          if readVerb (Doc.Method route) then None
          else Some (Doc.requestBody ParseFloat requestType (Doc.RouteConfig route))
      | None => None
      end.
Proof.
  unfold Doc.operationOf, readVerb, hasInputShape.
  destruct (Doc.RequestType route) as [rt|].
  - destruct (String.eqb (Doc.Method route) "GET" || String.eqb (Doc.Method route) "DELETE").
    + match goal with
      | |- context [Doc.addQueryParameters ParseFloat ?op rt] =>
          destruct (addQueryParameters_shape op rt) as (added & -> & Hquery)
      end.
      exists added. cbn. repeat split; solve [reflexivity | discriminate | exact Hquery].
    + exists []. cbn. rewrite List.app_nil_r. repeat split; solve [reflexivity | constructor].
  - exists []. cbn. rewrite List.app_nil_r. repeat split; solve [reflexivity | constructor].
Qed.

Lemma operationOf_responses (route : Doc.RouteInfo) :
  Doc.opResponses (operationOf route) =
  <["500" := Doc.errorResponse "Internal server error"]>
    (<["400" := Doc.errorResponse "Bad request"]>
       (match Doc.ResponseType route with
        | Some responseType =>
            {[Doc.successStatusKey (Doc.RouteConfig route) :=
                Doc.successResponse ParseFloat responseType (Doc.RouteConfig route)]}
        | None => ∅
        end)).
Proof.
  unfold Doc.operationOf.
  assert (Hempty : forall op : Doc.Operation float64,
             Doc.opResponses op = ∅ ->
             Doc.opResponses
               (match Doc.RequestType route with
                | Some requestType =>
                    if String.eqb (Doc.Method route) "GET" || String.eqb (Doc.Method route) "DELETE"
                    then Doc.addQueryParameters ParseFloat op requestType
                    else Doc.mkOperation (Doc.opSummary op) (Doc.opDescription op) (Doc.opTags op)
                           (Doc.opResponses op) (Doc.opParameters op) (Doc.opSecurity op)
                           (Some (Doc.requestBody ParseFloat requestType (Doc.RouteConfig route)))
                | None => op
                end) = ∅).
  { intros op Hop. destruct (Doc.RequestType route) as [rt|]; [|exact Hop].
    destruct (String.eqb (Doc.Method route) "GET" || String.eqb (Doc.Method route) "DELETE");
      [|exact Hop].
    destruct (addQueryParameters_shape op rt) as (added & -> & _). exact Hop. }
  cbn [Doc.opResponses]. rewrite Hempty by reflexivity.
  destruct (Doc.ResponseType route); [rewrite insert_empty|]; reflexivity.
Qed.


(** X13. Every operation documents the failure envelope under ["400"]
    and ["500"], whatever the route. Under any other code it documents a
    response only for a handler with an output shape, and only under the
    route's success code; a success code of 400 or 500 is therefore
    documented as a failure. *)
Theorem documented_responses (route : Doc.RouteInfo) (code : string) :
  Doc.opResponses (operationOf route) !! code =
  if String.eqb code "500" then Some (Doc.errorResponse "Internal server error")
  else if String.eqb code "400" then Some (Doc.errorResponse "Bad request")
  else match Doc.ResponseType route with
       | Some responseType =>
           if String.eqb code (Doc.successStatusKey (Doc.RouteConfig route))
           then Some (Doc.successResponse ParseFloat responseType (Doc.RouteConfig route))
           else None
       | None => None
       end.
Proof.
  rewrite operationOf_responses.
  destruct (String.eqb_spec code "500") as [->|H500]; [apply lookup_insert_eq|].
  rewrite lookup_insert_ne by congruence.
  destruct (String.eqb_spec code "400") as [->|H400]; [apply lookup_insert_eq|].
  rewrite lookup_insert_ne by congruence.
  destruct (Doc.ResponseType route) as [rt|]; [|apply lookup_empty].
  destruct (String.eqb_spec code (Doc.successStatusKey (Doc.RouteConfig route))) as [->|Hkey].
  - apply lookup_singleton_eq.
  - apply lookup_singleton_ne. congruence.
Qed.

Lemma fold_insert_lookup {V : Type} (v : V) (keys : list string) (m : gmap string V) k x :
  fold_left (fun m key => <[key := v]> m) keys m !! k = Some x <->
  (In k keys /\ x = v) \/ (~ In k keys /\ m !! k = Some x).
Proof.
  revert m. induction keys as [|key keys IH]; intros m; cbn [fold_left In].
  - split; [intros H; right; split; [tauto | exact H] | intros [[[] _] | [_ H]]; exact H].
  - rewrite IH. destruct (decide (key = k)) as [->|Hne].
    + rewrite lookup_insert_eq. split.
      * intros [[Hin ->] | [Hnin Heq]]; [left; tauto|].
        injection Heq as <-. left. tauto.
      * intros [[_ ->] | [Hnin _]]; [|tauto].
        destruct (List.in_dec string_dec k keys); [left | right]; tauto.
    + rewrite lookup_insert_ne by exact Hne. tauto.
Qed.

(** X14. A route with an input shape documents it either as a request
    body or as query parameters, never both. For GET and DELETE there is
    no request body. For any other verb the parameters are those of the
    path and of the headers only, and the body is required and offers,
    under each content type of the route and no other, the schema derived
    from the input shape with the route's examples; without content types
    the one offered is [application/json]. *)
Theorem request_body_or_query_parameters (route : Doc.RouteInfo) (requestType : GoType) :
  Doc.RequestType route = Some requestType ->
  if readVerb (Doc.Method route)
  then Doc.opRequestBody (operationOf route) = None
  else
    Doc.opParameters (operationOf route) =
      (Doc.pathParameters (Doc.Path route) ++ Doc.headerParameters (Doc.RouteConfig route))%list /\
    exists body,
      Doc.opRequestBody (operationOf route) = Some body /\
      Doc.bodyRequired body = true /\
      Doc.contentTypes (Doc.RouteConfig route) <> [] /\
      forall contentType media,
        Doc.bodyContent body !! contentType = Some media <->
        In contentType (Doc.contentTypes (Doc.RouteConfig route)) /\
        media = Doc.mkMediaType (Doc.Spelled (derive requestType))
                                (Doc.examples (Doc.RouteConfig route)).
Proof.
  intros Hrt.
  destruct (operationOf_request route) as (added & _ & _ & _ & _ & Hparams & Hadded & _ & Hbody).
  rewrite Hrt in Hbody. destruct (readVerb (Doc.Method route)); [exact Hbody|].
  split; [rewrite Hparams, (Hadded eq_refl), List.app_nil_r; reflexivity|].
  eexists. split; [exact Hbody|]. split; [reflexivity|]. split.
  - unfold Doc.contentTypes. destruct (Doc.RouteConfig route) as [cfg|]; [|discriminate].
    destruct (Doc.cfgContentTypes cfg); discriminate.
  - intros contentType media. cbn [Doc.requestBody Doc.bodyContent].
    rewrite fold_insert_lookup, lookup_empty. split.
    + intros [H | [_ H]]; [exact H | discriminate H].
    + intros H. left. exact H.
Qed.

(** X20. The parameters of an operation come in three groups, in this
    order: one parameter found in the path for each variable segment of
    the path, one found in the header for each request header of the
    route, in the order the [range] statement visits them, named after it
    and with a schema whose type is not empty, and
    the parameters found in the query, of which there are none unless the
    verb is GET or DELETE and the handler has an input shape. *)
Theorem parameters_are_grouped_by_location (route : Doc.RouteInfo) :
  exists inPath inHeader inQuery,
    Doc.opParameters (operationOf route) = (inPath ++ inHeader ++ inQuery)%list /\
    Forall (fun p => Doc.paramIn p = "path") inPath /\
    length inPath = length (List.filter isVariable (segments (Doc.Path route))) /\
    Forall (fun p => Doc.paramIn p = "header" /\ Type_ (Doc.paramSchema p) <> "") inHeader /\
    List.map Doc.paramName inHeader =
      List.map fst (match Doc.RouteConfig route with
                    | Some cfg => Doc.cfgRequestHeaders cfg
                    | None => []
                    end) /\
    Forall (fun p => Doc.paramIn p = "query") inQuery /\
    (readVerb (Doc.Method route) && hasInputShape route = false -> inQuery = []).
Proof.
  destruct (operationOf_request route)
    as (added & _ & _ & _ & _ & Hparams & Hadded & Hquery & _).
  exists (Doc.pathParameters (Doc.Path route)), (Doc.headerParameters (Doc.RouteConfig route)),
         added.
  split; [rewrite Hparams, <- List.app_assoc; reflexivity|].
  split; [|split; [|split; [|split; [|split; assumption]]]].
  - unfold Doc.pathParameters. induction (Split (Doc.Path route) slash) as [|part parts IH];
      [constructor|].
    cbn [List.flat_map]. apply List.Forall_app. split; [|exact IH].
    unfold Doc.pathParameter. destruct (HasPrefix part ":"); repeat constructor.
  - rewrite <- (pathParameter_names (segments (Doc.Path route))), !List.length_map.
    reflexivity.
  - unfold Doc.headerParameters. destruct (Doc.RouteConfig route) as [cfg|]; [|constructor].
    apply List.Forall_map, List.Forall_forall. intros [headerName headerInfo] _.
    cbn [Doc.headerParameter Doc.paramIn Doc.paramSchema schemaOfType Type_].
    split; [reflexivity|].
    destruct (String.eqb_spec (Doc.hiSchema headerInfo) ""); [discriminate | assumption].
  - unfold Doc.headerParameters. destruct (Doc.RouteConfig route) as [cfg|]; [|reflexivity].
    rewrite List.map_map. apply List.map_ext. intros [headerName headerInfo]. reflexivity.
Qed.

End Operations.

(** X15. The code under which the success response is documented is the
    decimal spelling of the status the adapter replies with on success,
    for a route configuration with the same [SuccessStatus] and for a
    route without configuration. *)
Theorem documented_status_is_the_status_sent (cfg : Route) (config : Doc.Route) :
  SuccessStatus cfg = Doc.cfgSuccessStatus config ->
  Doc.successStatusKey (Some config) = formatInt (successStatus (Some cfg)) /\
  Doc.successStatusKey None = formatInt (successStatus None).
Proof.
  intros Hsame. unfold Doc.successStatusKey, successStatus. rewrite Hsame.
  destruct (0 <? Doc.cfgSuccessStatus config); split; reflexivity.
Qed.

(** ** Generation of the document *)

Lemma find_app_last {A : Type} (f : A -> bool) (l : list A) (x : A) :
  List.find f (l ++ [x]) =
  match List.find f l with
  | Some y => Some y
  | None => if f x then Some x else None
  end.
Proof.
  induction l as [|y l IH]; cbn [List.find app]; [reflexivity|].
  destruct (f y); [reflexivity | exact IH].
Qed.

Lemma find_rev_none {A : Type} (f : A -> bool) (l : list A) :
  List.find f (rev l) = None <-> forall x, In x l -> f x = false.
Proof.
  split.
  - intros Hnone x Hin. apply (List.find_none f (rev l) Hnone). apply List.in_rev in Hin. exact Hin.
  - intros Hall. destruct (List.find f (rev l)) as [y|] eqn:Hfind; [|reflexivity].
    apply List.find_some in Hfind as [Hin Hy].
    apply List.in_rev in Hin. rewrite (Hall y Hin) in Hy. discriminate Hy.
Qed.

Lemma targets_transfer (routes routes' : list Doc.RouteInfo) (f : string * string -> bool) :
  List.map target routes = List.map target routes' ->
  (exists r, In r routes /\ f (target r) = true) ->
  exists r', In r' routes' /\ f (target r') = true.
Proof.
  intros Hsame (r & Hin & Hf).
  assert (Hmem : In (target r) (List.map target routes')).
  { rewrite <- Hsame. apply List.in_map, Hin. }
  apply List.in_map_iff in Hmem as (r' & Heq & Hin').
  exists r'. split; [exact Hin' | rewrite Heq; exact Hf].
Qed.

Section Generation.

Variable float64 : Type.
Variable ParseFloat : string -> option float64.

Local Abbreviation operationOf := (Doc.operationOf ParseFloat).
Local Abbreviation addRouteToSpec := (Doc.addRouteToSpec ParseFloat).
Local Abbreviation GenerateOpenAPISpec := (Doc.GenerateOpenAPISpec ParseFloat).
Local Abbreviation step := (routeStep ParseFloat).

Lemma knownVerb_cases (method : string) :
  knownVerb method = true ->
  method = "GET" \/ method = "POST" \/ method = "PUT" \/ method = "PATCH" \/ method = "DELETE".
Proof.
  unfold knownVerb. cbn [existsb].
  destruct (String.eqb_spec method "GET"); [tauto|].
  destruct (String.eqb_spec method "POST"); [tauto|].
  destruct (String.eqb_spec method "PUT"); [tauto|].
  destruct (String.eqb_spec method "PATCH"); [tauto|].
  destruct (String.eqb_spec method "DELETE"); [tauto|].
  discriminate.
Qed.

Lemma setOperation_slot (method verb : string) (operation : Doc.Operation float64) item :
  knownVerb method = true ->
  operationFor method (Doc.setOperation verb operation item) =
  if String.eqb verb method then Some operation else operationFor method item.
Proof.
  intros Hknown. unfold Doc.setOperation.
  destruct (knownVerb_cases method Hknown) as [-> | [-> | [-> | [-> | ->]]]];
    destruct (String.eqb_spec verb "GET") as [->|];
    try reflexivity;
    destruct (String.eqb_spec verb "POST") as [->|];
    try reflexivity;
    destruct (String.eqb_spec verb "PUT") as [->|];
    try reflexivity;
    destruct (String.eqb_spec verb "PATCH") as [->|];
    try reflexivity;
    destruct (String.eqb_spec verb "DELETE") as [->|];
    reflexivity.
Qed.

Lemma step_slot (path method : string) entry (route : Doc.RouteInfo) :
  knownVerb method = true ->
  slotOf method (step path entry route) =
  if documentedAt path method route then Some (operationOf route) else slotOf method entry.
Proof.
  intros Hknown. unfold routeStep, documentedAt, aims, target. cbn [fst snd].
  destruct (String.eqb path (Doc.convertPath (Doc.Path route))); [|reflexivity].
  cbn [slotOf andb]. rewrite (setOperation_slot _ _ _ _ Hknown).
  destruct (String.eqb (Doc.Method route) method); [reflexivity|].
  destruct entry as [item|]; [reflexivity|].
  destruct (knownVerb_cases method Hknown) as [-> | [-> | [-> | [-> | ->]]]]; reflexivity.
Qed.

Lemma step_present (path : string) entry (route : Doc.RouteInfo) :
  is_Some (step path entry route) <->
  is_Some entry \/ String.eqb path (Doc.convertPath (Doc.Path route)) = true.
Proof.
  unfold routeStep.
  destruct (String.eqb path (Doc.convertPath (Doc.Path route))).
  - split; [intros _; right; reflexivity | intros _; eexists; reflexivity].
  - split; [intros H; left; exact H | intros [H | H]; [exact H | discriminate H]].
Qed.

Lemma entry_ext (e1 e2 : option (Doc.PathItem float64)) :
  (is_Some e1 <-> is_Some e2) ->
  (forall method, knownVerb method = true -> slotOf method e1 = slotOf method e2) ->
  e1 = e2.
Proof.
  intros Hpresent Hslots.
  destruct e1 as [[g1 p1 u1 a1 d1]|], e2 as [[g2 p2 u2 a2 d2]|].
  - pose proof (Hslots "GET" eq_refl) as Hg. pose proof (Hslots "POST" eq_refl) as Hp.
    pose proof (Hslots "PUT" eq_refl) as Hu. pose proof (Hslots "PATCH" eq_refl) as Ha.
    pose proof (Hslots "DELETE" eq_refl) as Hd.
    cbn in Hg, Hp, Hu, Ha, Hd. congruence.
  - destruct (proj1 Hpresent) as [x Hx]; [eexists; reflexivity | discriminate Hx].
  - destruct (proj2 Hpresent) as [x Hx]; [eexists; reflexivity | discriminate Hx].
  - reflexivity.
Qed.

Lemma fold_step_slot (path method : string) (routes : list Doc.RouteInfo) entry :
  knownVerb method = true ->
  slotOf method (fold_left (step path) routes entry) =
  match List.find (documentedAt path method) (rev routes) with
  | Some route => Some (operationOf route)
  | None => slotOf method entry
  end.
Proof.
  intros Hknown. revert entry.
  induction routes as [|route routes IH]; intros entry; [reflexivity|].
  cbn [fold_left rev]. rewrite IH, find_app_last.
  destruct (List.find (documentedAt path method) (rev routes)); [reflexivity|].
  rewrite (step_slot _ _ _ _ Hknown).
  destruct (documentedAt path method route); reflexivity.
Qed.

Lemma fold_step_present (path : string) (routes : list Doc.RouteInfo) entry :
  is_Some (fold_left (step path) routes entry) <->
  is_Some entry \/
  exists route, In route routes /\ String.eqb path (fst (target route)) = true.
Proof.
  revert entry. induction routes as [|route routes IH]; intros entry; cbn [fold_left].
  - split; [intros H; left; exact H | intros [H | (r & [] & _)]; exact H].
  - rewrite IH, step_present. cbn [In]. split.
    + intros [[H | H] | (r & Hin & Hr)].
      * left. exact H.
      * right. exists route. split; [left; reflexivity | exact H].
      * right. exists r. split; [right; exact Hin | exact Hr].
    + intros [H | (r & [<- | Hin] & Hr)].
      * left. left. exact H.
      * left. right. exact Hr.
      * right. exists r. split; assumption.
Qed.

Lemma addRouteToSpec_lookup (spec : Doc.T float64) (route : Doc.RouteInfo) (path : string) :
  Doc.Paths (addRouteToSpec spec route) !! path = step path (Doc.Paths spec !! path) route.
Proof.
  unfold Doc.addRouteToSpec, routeStep. cbn [Doc.Paths].
  destruct (String.eqb_spec path (Doc.convertPath (Doc.Path route))) as [->|Hne].
  - rewrite lookup_insert_eq. reflexivity.
  - rewrite lookup_insert_ne by congruence. reflexivity.
Qed.

Lemma Generate_lookup (routes : list Doc.RouteInfo) (spec : Doc.T float64) (path : string) :
  Doc.Paths (GenerateOpenAPISpec routes spec) !! path =
  fold_left (step path) routes (Doc.Paths spec !! path).
Proof.
  unfold Doc.GenerateOpenAPISpec. revert spec.
  induction routes as [|route routes IH]; intros spec; cbn [fold_left]; [reflexivity|].
  rewrite IH, addRouteToSpec_lookup. reflexivity.
Qed.

Lemma Generate_frame (routes : list Doc.RouteInfo) (spec : Doc.T float64) :
  Doc.OpenAPI (GenerateOpenAPISpec routes spec) = Doc.OpenAPI spec /\
  Doc.docInfo (GenerateOpenAPISpec routes spec) = Doc.docInfo spec /\
  Doc.Servers (GenerateOpenAPISpec routes spec) = Doc.Servers spec /\
  Doc.SecuritySchemes (GenerateOpenAPISpec routes spec) = Doc.SecuritySchemes spec.
Proof.
  unfold Doc.GenerateOpenAPISpec. revert spec.
  induction routes as [|route routes IH]; intros spec; cbn [fold_left]; [auto|].
  destruct (IH (addRouteToSpec spec route)) as (-> & -> & -> & ->). auto.
Qed.

Lemma document_ext (d1 d2 : Doc.T float64) :
  Doc.OpenAPI d1 = Doc.OpenAPI d2 -> Doc.docInfo d1 = Doc.docInfo d2 ->
  Doc.Servers d1 = Doc.Servers d2 -> Doc.SecuritySchemes d1 = Doc.SecuritySchemes d2 ->
  (forall path, Doc.Paths d1 !! path = Doc.Paths d2 !! path) ->
  d1 = d2.
Proof.
  destruct d1, d2. cbn. intros -> -> -> -> Hpaths. f_equal. apply map_eq, Hpaths.
Qed.

(** X16. For each of the five verbs, the operation the generated document
    holds for a path and the verb is the one built from the last
    registered route that is documented under that path and verb; where
    there is none, it is the operation the document held before. *)
Theorem last_registration_wins (routes : list Doc.RouteInfo) (spec : Doc.T float64)
    (path method : string) :
  knownVerb method = true ->
  operationAt (GenerateOpenAPISpec routes spec) path method =
  match List.find (documentedAt path method) (rev routes) with
  | Some route => Some (operationOf route)
  | None => operationAt spec path method
  end.
Proof.
  intros Hknown. unfold operationAt. rewrite Generate_lookup.
  apply fold_step_slot, Hknown.
Qed.

(** X17. Generating again overwrites all that a former generation wrote.
    When the routes are read a second time, with the same paths and
    verbs in the same order, the document generated on top of the first
    one is the document the second reading alone gives on the initial
    document; with the same reading twice, generating is idempotent. *)
Theorem regeneration_overwrites (routes routes' : list Doc.RouteInfo) (spec : Doc.T float64) :
  List.map target routes = List.map target routes' ->
  GenerateOpenAPISpec routes' (GenerateOpenAPISpec routes spec) =
  GenerateOpenAPISpec routes' spec.
Proof.
  intros Hsame.
  destruct (Generate_frame routes' (GenerateOpenAPISpec routes spec)) as (Ho & Hi & Hs & Hc).
  destruct (Generate_frame routes spec) as (Ho1 & Hi1 & Hs1 & Hc1).
  destruct (Generate_frame routes' spec) as (Ho2 & Hi2 & Hs2 & Hc2).
  apply document_ext; try congruence.
  intros path. rewrite !Generate_lookup.
  set (entry := Doc.Paths spec !! path).
  apply entry_ext.
  - rewrite !fold_step_present. split; [|tauto].
    intros [[H | H] | H]; [tauto | | tauto].
    right. apply (targets_transfer routes routes' (fun t => String.eqb path (fst t)) Hsame H).
  - intros method Hknown. rewrite !(fold_step_slot _ _ _ _ Hknown).
    destruct (List.find (documentedAt path method) (rev routes')) eqn:Hfind'; [reflexivity|].
    replace (List.find (documentedAt path method) (rev routes)) with (@None Doc.RouteInfo);
      [reflexivity|].
    symmetry. apply find_rev_none. intros r Hin.
    destruct (documentedAt path method r) eqn:Hr; [|reflexivity].
    destruct (targets_transfer routes routes' (aims path method) Hsame) as (r' & Hin' & Hr').
    { exists r. split; assumption. }
    rewrite find_rev_none in Hfind'. rewrite <- (Hfind' r' Hin'). symmetry. exact Hr'.
Qed.

(** X18. Generation and the setters of the metadata do not interfere:
    generation leaves the version, the info, the servers and the security
    schemes as they are, and setting the info, the contact, the license,
    the servers or a security scheme before generating gives the same
    document as setting it afterwards. *)
Theorem metadata_is_independent_of_generation (routes : list Doc.RouteInfo)
    (spec : Doc.T float64) (title version description name url email : string)
    (servers : list Doc.Server) (security : Doc.Security) :
  (Doc.OpenAPI (GenerateOpenAPISpec routes spec) = Doc.OpenAPI spec /\
   Doc.docInfo (GenerateOpenAPISpec routes spec) = Doc.docInfo spec /\
   Doc.Servers (GenerateOpenAPISpec routes spec) = Doc.Servers spec /\
   Doc.SecuritySchemes (GenerateOpenAPISpec routes spec) = Doc.SecuritySchemes spec) /\
  GenerateOpenAPISpec routes (Doc.SetInfo title version description spec) =
    Doc.SetInfo title version description (GenerateOpenAPISpec routes spec) /\
  GenerateOpenAPISpec routes (Doc.SetContact name url email spec) =
    Doc.SetContact name url email (GenerateOpenAPISpec routes spec) /\
  GenerateOpenAPISpec routes (Doc.SetLicense name url spec) =
    Doc.SetLicense name url (GenerateOpenAPISpec routes spec) /\
  GenerateOpenAPISpec routes (Doc.SetServers servers spec) =
    Doc.SetServers servers (GenerateOpenAPISpec routes spec) /\
  GenerateOpenAPISpec routes (Doc.AddSecurityScheme name security spec) =
    Doc.AddSecurityScheme name security (GenerateOpenAPISpec routes spec).
Proof.
  split; [apply Generate_frame|].
  unfold Doc.GenerateOpenAPISpec. revert spec.
  induction routes as [|route routes IH]; intros spec; cbn [fold_left].
  - repeat split.
  - destruct (IH (addRouteToSpec spec route)) as (H1 & H2 & H3 & H4 & H5).
    rewrite <- H1, <- H2, <- H3, <- H4, <- H5. repeat split.
Qed.

End Generation.

(** ** Length bounds outside the range of a length *)

Section LengthBounds.

Variable float64 : Type.
Variable ParseFloat : string -> option float64.

Lemma Atoi_range s n : Atoi s = Some n -> minInt <= n <= maxInt.
Proof.
  unfold Atoi. destruct s as [|c rest]; [discriminate|]. cbn zeta.
  destruct (if Ascii.eqb c "-" || Ascii.eqb c "+" then rest else String c rest);
    [discriminate|].
  destruct (parseDigits _ 0) as [m|]; [|discriminate].
  destruct ((minInt <=? (if Ascii.eqb c "-" then - m else m)) &&
            ((if Ascii.eqb c "-" then - m else m) <=? maxInt)) eqn:Hfit; [|discriminate].
  intros [= <-]. apply andb_prop in Hfit as [Hlo Hhi]. lia.
Qed.

Lemma uint64_wraps n :
  minInt <= n <= maxInt -> uint64 n = if n <? 0 then n + 2 ^ 64 else n.
Proof.
  unfold minInt, maxInt, uint64. intros Hn. destruct (Z.ltb_spec n 0).
  - rewrite <- (Z.mod_unique n (2 ^ 64) (-1) (n + 2 ^ 64)); lia.
  - apply Z.mod_small. lia.
Qed.

(** X19. A [min=] or [max=] token on a string schema whose value
    [strconv.Atoi] accepts is written as a length bound after conversion
    to [uint64]: a negative value [n] is not refused, it becomes the
    bound [n + 2^64]. *)
Theorem negative_length_bound_wraps {ref : Type} (s : SchemaOf float64 ref)
    (val : string) (n : Z) :
  Type_ s = "string" ->
  Atoi val = Some n ->
  MinLength (applyValidation ParseFloat s ("min=" ++ val)) =
    (if n <? 0 then n + 2 ^ 64 else n) /\
  MaxLength (applyValidation ParseFloat s ("max=" ++ val)) =
    Some (if n <? 0 then n + 2 ^ 64 else n).
Proof.
  intros Hty Hval.
  assert (Hne : String.eqb val "" = false) by (destruct val; [discriminate Hval | reflexivity]).
  rewrite <- (uint64_wraps n (Atoi_range _ _ Hval)).
  change ("min=" ++ val)%string with (String "m" (String "i" (String "n" (String "=" val)))).
  change ("max=" ++ val)%string with (String "m" (String "a" (String "x" (String "=" val)))).
  unfold applyValidation, applyOneof, applyEmail, applyMax, applyMin.
  cbn [HasPrefix TrimPrefix Ascii.eqb Bool.eqb andb String.eqb String.length dropBytes negb].
  rewrite Hne, Hty, Hval. split; reflexivity.
Qed.

End LengthBounds.

(** ** Instances of the further properties *)

Lemma property_of_last_field_with_name_witness :
  mapLookup "name"
    (Properties (generateSchema Demo.parseInteger
                   (TStruct "main.Profile"
                      [Demo.nameField; Sample.aliasField; Demo.secretField]))) =
  Some (mkRef (decorate Demo.parseInteger Sample.aliasField
                 (generateSchema Demo.parseInteger TInt))).
Proof.
  apply (property_of_last_field_with_name Z Demo.parseInteger "main.Profile"
           [Demo.nameField] [Demo.secretField] Sample.aliasField).
  - reflexivity.
  - reflexivity.
  - intros g [<- | []] Hexcluded. discriminate Hexcluded.
Defined.

Lemma pointers_are_followed_once_witness :
  generateSchema Demo.parseInteger (TPtr Demo.CreateUserRequest) =
  generateSchema Demo.parseInteger Demo.CreateUserRequest /\
  generateSchema Demo.parseInteger (TPtr (TPtr Demo.CreateUserRequest)) = schemaOfType "object".
Proof.
  destruct (pointers_are_followed_once Z Demo.parseInteger Demo.CreateUserRequest [])
    as (Honce & Htwice & _).
  split; [apply Honce; reflexivity | exact Htwice].
Defined.

Lemma binder_is_chosen_by_verb_witness :
  @createEchoHandler _ _ _ Demo.transport Demo.createUser (Some Demo.CreateUserRequest) None
                     Sample.getUsers =
  @createEchoHandler _ _ _ Sample.bodiless Demo.createUser (Some Demo.CreateUserRequest) None
                     Sample.getUsers.
Proof.
  apply (binder_is_chosen_by_verb Demo.transport Sample.bodiless).
  - reflexivity.
  - reflexivity.
  - intros req. reflexivity.
  - intros req. reflexivity.
  - simpl. intros req. reflexivity.
Defined.

Lemma adapter_passes_one_or_two_arguments_witness :
  exists info,
    registerRoute "POST" "/users" (Some Demo.createUser) [] Demo.emptyApp =
      Returns (mkApp [info] [("POST", "/users",
                              createEchoHandler Demo.createUser (RequestType info)
                                                (RouteConfig info))]) /\
    RequestType info = Some Demo.CreateUserRequest /\
    forall args,
      In (EvCall args)
         (fst (createEchoHandler Demo.createUser (RequestType info) (RouteConfig info)
                                 Demo.postUser)) ->
      length args = 2%nat.
Proof.
  destruct (adapter_passes_one_or_two_arguments "POST" "/users" Demo.createUser []
              Demo.emptyApp [Demo.contextType; Demo.CreateUserRequest]
              [TOther "struct"; Demo.errorType] eq_refl)
    as (info & Hreg & Hrequest & _ & _ & Hcall).
  exists info. split; [exact Hreg|]. split; [exact Hrequest|].
  intros args Hin. apply (Hcall Demo.postUser args Hin).
Defined.

Lemma converted_path_keeps_the_segments_witness :
  segments (Doc.convertPath "/api/health") = List.map Doc.convertPart (segments "/api/health") /\
  Doc.convertPath "/api/health" = "/api/health".
Proof.
  destruct (converted_path_keeps_the_segments "/api/health") as [Hsegments Hsame].
  split; [exact Hsegments | apply Hsame; reflexivity].
Defined.

Lemma distinct_paths_have_distinct_keys_witness :
  Doc.convertPath "/users/:id" = Doc.convertPath "/users/:name" <->
  "/users/:id" = "/users/:name".
Proof.
  apply (distinct_paths_have_distinct_keys "/users/:id" "/users/:name"); reflexivity.
Defined.

Lemma request_body_or_query_parameters_witness :
  Doc.opParameters (Doc.operationOf Demo.parseInteger Sample.postUsers) = [] /\
  exists body,
    Doc.opRequestBody (Doc.operationOf Demo.parseInteger Sample.postUsers) = Some body /\
    Doc.bodyRequired body = true /\
    forall contentType media,
      Doc.bodyContent body !! contentType = Some media <->
      In contentType ["application/json"] /\
      media = Doc.mkMediaType
                (Doc.Spelled (generateSchema Demo.parseInteger Demo.CreateUserRequest)) ∅.
Proof.
  destruct (request_body_or_query_parameters Z Demo.parseInteger Sample.postUsers
              Demo.CreateUserRequest eq_refl) as (Hparams & body & Hbody & Hrequired & _ & Hcontent).
  split; [exact Hparams|]. exists body. split; [exact Hbody|]. split; [exact Hrequired|].
  exact Hcontent.
Defined.

Lemma documented_status_is_the_status_sent_witness :
  Doc.successStatusKey (Some Sample.created) =
    formatInt (successStatus (Some (mkRoute "Create user" "" ["users"] 201))) /\
  Doc.successStatusKey None = formatInt (successStatus None).
Proof.
  apply (documented_status_is_the_status_sent (mkRoute "Create user" "" ["users"] 201)
           Sample.created).
  reflexivity.
Defined.

Lemma last_registration_wins_witness :
  operationAt (Doc.GenerateOpenAPISpec Demo.parseInteger
                 [Sample.getUser Sample.headers; Sample.postUsers; Sample.getUser []]
                 Doc.New)
              "/users/{id}" "GET" =
  Some (Doc.operationOf Demo.parseInteger (Sample.getUser [])).
Proof.
  apply (last_registration_wins Z Demo.parseInteger
           [Sample.getUser Sample.headers; Sample.postUsers; Sample.getUser []]
           Doc.New "/users/{id}" "GET").
  reflexivity.
Defined.

Lemma regeneration_overwrites_witness :
  Doc.GenerateOpenAPISpec Demo.parseInteger
    [Sample.postUsers; Sample.getUser (rev Sample.headers)]
    (Doc.GenerateOpenAPISpec Demo.parseInteger
       [Sample.postUsers; Sample.getUser Sample.headers] Doc.New) =
  Doc.GenerateOpenAPISpec Demo.parseInteger
    [Sample.postUsers; Sample.getUser (rev Sample.headers)] Doc.New.
Proof.
  apply (regeneration_overwrites Z Demo.parseInteger
           [Sample.postUsers; Sample.getUser Sample.headers]
           [Sample.postUsers; Sample.getUser (rev Sample.headers)] Doc.New).
  reflexivity.
Defined.

Lemma negative_length_bound_wraps_witness :
  MinLength (applyValidation Demo.parseInteger
               (schemaOfType "string" : SchemaOf Z nat) ("min=" ++ "-1")) =
    18446744073709551615 /\
  MaxLength (applyValidation Demo.parseInteger
               (schemaOfType "string" : SchemaOf Z nat) ("max=" ++ "-1")) =
    Some 18446744073709551615.
Proof.
  apply (negative_length_bound_wraps Z Demo.parseInteger
           (schemaOfType "string" : SchemaOf Z nat) "-1" (-1)); reflexivity.
Defined.

(** ** Registration methods *)

Section RegistrationMethods.

Context {Ctx Instance Val : Type} `{Collaborators Ctx Instance Val}.

(** X21. Each of the five registration methods, when it returns, has
    recorded one more route under its own verb and the given path, and
    has handed one more adapter to Echo under the same verb and path: if
    the routes kept for the document and the routes Echo serves were the
    same before, they are the same afterwards. *)
Theorem registration_serves_what_it_documents (verb : string)
    (register : string -> option (@Handler Ctx Instance) -> list Route ->
                @App Ctx Instance -> Outcome (@App Ctx Instance))
    (path : string) (handler : option (@Handler Ctx Instance)) (opts : list Route)
    (app app' : @App Ctx Instance) :
  In (verb, register) registrars ->
  register path handler opts app = Returns app' ->
  documented app' = (documented app ++ [(verb, path)])%list /\
  served app' = (served app ++ [(verb, path)])%list /\
  (documented app = served app -> documented app' = served app').
Proof.
  intros Hin Hreturns.
  assert (Hgrow : documented app' = (documented app ++ [(verb, path)])%list /\
                  served app' = (served app ++ [(verb, path)])%list).
  { unfold registrars in Hin. cbn [In] in Hin.
    destruct Hin as [Heq | [Heq | [Heq | [Heq | [Heq | []]]]]];
      injection Heq as <- <-;
      unfold GET, POST, PUT, PATCH, DELETE, registerRoute in Hreturns;
      (destruct handler as [h|]; [|discriminate Hreturns]);
      (destruct (handlerType h); try discriminate Hreturns);
      injection Hreturns as <-;
      unfold documented, served; cbn [routes echoRoutes existsb String.eqb Ascii.eqb Bool.eqb orb];
      rewrite !List.map_app; (destruct opts; split; reflexivity). }
  destruct Hgrow as [Hdocumented Hserved].
  split; [exact Hdocumented|]. split; [exact Hserved|].
  intros Hsame. rewrite Hdocumented, Hserved, Hsame. reflexivity.
Qed.

End RegistrationMethods.

Lemma registration_serves_what_it_documents_witness :
  exists app',
    POST "/users" (Some Demo.createUser) [] Demo.emptyApp = Returns app' /\
    documented app' = [("POST", "/users")] /\
    documented app' = served app'.
Proof.
  eexists. split; [reflexivity|].
  destruct (registration_serves_what_it_documents "POST" POST "/users" (Some Demo.createUser) []
              Demo.emptyApp _ (or_intror (or_introl eq_refl)) eq_refl)
    as (Hdocumented & _ & Hsame).
  split; [exact Hdocumented | apply Hsame; reflexivity].
Defined.

(** ** Further properties of the schema of a struct *)

Section PropertyNames.

Variable float64 : Type.
Variable ParseFloat : string -> option float64.

Local Abbreviation derive := (generateSchema ParseFloat).

Lemma mapLookup_mapAssign_present {V : Type} k k' (v : V) m :
  mapLookup k' (mapAssign k v m) <> None <-> k = k' \/ mapLookup k' m <> None.
Proof.
  destruct (string_dec k k') as [->|Hne].
  - rewrite mapLookup_mapAssign. split; [intros _; left; reflexivity | discriminate].
  - rewrite (mapLookup_mapAssign_ne _ _ _ _ Hne). tauto.
Qed.

Lemma fold_addField_present name (fields : list StructField) (schema : Schema float64) :
  mapLookup name (Properties (fold_left (addField ParseFloat derive) fields schema)) <> None <->
  mapLookup name (Properties schema) <> None \/
  exists f, In f fields /\ excluded f = false /\ serializedName f = name.
Proof.
  revert schema. induction fields as [|f fields IH]; intros schema; cbn [fold_left].
  - split; [intros Hp; left; exact Hp | intros [Hp | (f & [] & _)]; exact Hp].
  - rewrite IH, addField_regroup. destruct (excluded f) eqn:Hf.
    + split.
      * intros [Hp | (g & Hin & Hg)]; [left; exact Hp|].
        right. exists g. split; [right; exact Hin | exact Hg].
      * intros [Hp | (g & [<- | Hin] & Hex & Hg)]; [left; exact Hp | congruence|].
        right. exists g. auto.
    + rewrite Properties_attach, mapLookup_mapAssign_present. split.
      * intros [[Hname | Hp] | (g & Hin & Hg)].
        -- right. exists f. split; [left; reflexivity | split; assumption].
        -- left. exact Hp.
        -- right. exists g. split; [right; exact Hin | exact Hg].
      * intros [Hp | (g & [<- | Hin] & Hex & Hg)].
        -- left. right. exact Hp.
        -- left. left. exact Hg.
        -- right. exists g. auto.
Qed.

(** X22. The properties of the schema of a struct are named by the
    serialized names of its fields that are not left out of
    serialization, and by nothing else. *)
Theorem properties_are_the_serialized_fields sname (fields : list StructField) (name : string) :
  String.eqb sname "time.Time" = false ->
  mapLookup name (Properties (derive (TStruct sname fields))) <> None <->
  exists f, In f fields /\ excluded f = false /\ serializedName f = name.
Proof.
  intros Hname. rewrite (generateSchema_struct _ _ _ _ Hname), fold_addField_present.
  split; [intros [Hp | Hf]; [destruct Hp; reflexivity | exact Hf] | intros Hf; right; exact Hf].
Qed.

(** X23. A [json] tag that starts with a comma, such as [,omitempty],
    names no property: the code takes what stands before the first comma
    as the name, so the field is documented under the empty name and not
    under the name of the field. *)
Theorem options_only_tag_names_the_empty_property sname (fields : list StructField)
    (f : StructField) (options : string) :
  String.eqb sname "time.Time" = false ->
  In f fields ->
  tag_json (Tag f) = String "," options ->
  serializedName f = "" /\
  mapLookup "" (Properties (derive (TStruct sname fields))) <> None.
Proof.
  intros Hname Hin Htag.
  assert (Hserialized : serializedName f = "").
  { unfold serializedName, jsonName. rewrite Htag. reflexivity. }
  split; [exact Hserialized|].
  rewrite (generateSchema_struct _ _ _ _ Hname), fold_addField_present.
  right. exists f. split; [exact Hin|]. split; [|exact Hserialized].
  unfold excluded. rewrite Htag. destruct options; reflexivity.
Qed.

(** X24. Unlike the bounds, the enumeration and the [email] format are
    written whatever the type of the schema: a token [oneof=...] sets the
    enumeration to the space-separated values that follow, kept as
    strings, and the token [email] sets the format; neither touches the
    type or the bounds. *)
Theorem enumeration_and_format_are_not_gated {ref : Type} (s : SchemaOf float64 ref)
    (values : string) :
  (Enum (applyValidation ParseFloat s ("oneof=" ++ values)) = Split values space /\
   Format (applyValidation ParseFloat s ("oneof=" ++ values)) = Format s /\
   Type_ (applyValidation ParseFloat s ("oneof=" ++ values)) = Type_ s /\
   bounds (applyValidation ParseFloat s ("oneof=" ++ values)) = bounds s) /\
  (Format (applyValidation ParseFloat s "email") = "email" /\
   Enum (applyValidation ParseFloat s "email") = Enum s /\
   Type_ (applyValidation ParseFloat s "email") = Type_ s /\
   bounds (applyValidation ParseFloat s "email") = bounds s).
Proof.
  split.
  - change ("oneof=" ++ values)%string
      with (String "o" (String "n" (String "e" (String "o" (String "f" (String "=" values)))))).
    unfold applyValidation, applyOneof, applyEmail, applyMax, applyMin.
    cbn [HasPrefix TrimPrefix Ascii.eqb Bool.eqb andb String.eqb String.length dropBytes negb].
    repeat split; reflexivity.
  - repeat split; reflexivity.
Qed.

End PropertyNames.

Lemma properties_are_the_serialized_fields_witness :
  mapLookup "email" (Properties (generateSchema Demo.parseInteger Demo.CreateUserRequest))
    <> None <->
  exists f, In f [Demo.nameField; Demo.emailField] /\ excluded f = false /\
            serializedName f = "email".
Proof.
  apply (properties_are_the_serialized_fields Z Demo.parseInteger "main.CreateUserRequest"
           [Demo.nameField; Demo.emailField] "email").
  reflexivity.
Defined.

Lemma options_only_tag_names_the_empty_property_witness :
  serializedName Sample.bioField = "" /\
  mapLookup "" (Properties (generateSchema Demo.parseInteger
                              (TStruct "main.Profile" [Demo.nameField; Sample.bioField])))
    <> None.
Proof.
  apply (options_only_tag_names_the_empty_property Z Demo.parseInteger "main.Profile"
           [Demo.nameField; Sample.bioField] Sample.bioField "omitempty").
  - reflexivity.
  - right. left. reflexivity.
  - reflexivity.
Defined.

(** ** Paths of the generated document *)

Section GeneratedPaths.

Variable float64 : Type.
Variable ParseFloat : string -> option float64.

(** X25. The generated document has an entry for a path exactly when it
    had one before or the path is the documented path of a registered
    route, whatever the verb of that route; generated from the document
    of a new application, it has the documented paths of the registered
    routes and no other. *)
Theorem documented_paths_are_the_registered_paths (routes : list Doc.RouteInfo)
    (spec : Doc.T float64) (path : string) :
  (is_Some (Doc.Paths (Doc.GenerateOpenAPISpec ParseFloat routes spec) !! path) <->
   is_Some (Doc.Paths spec !! path) \/
   exists route, In route routes /\ Doc.convertPath (Doc.Path route) = path) /\
  (is_Some (Doc.Paths (Doc.GenerateOpenAPISpec ParseFloat routes Doc.New) !! path) <->
   exists route, In route routes /\ Doc.convertPath (Doc.Path route) = path).
Proof.
  assert (Hroutes : (exists route, In route routes /\
                                   String.eqb path (fst (target route)) = true) <->
                    exists route, In route routes /\ Doc.convertPath (Doc.Path route) = path).
  { split; intros (route & Hin & Hpath); exists route; (split; [exact Hin|]).
    - apply String.eqb_eq in Hpath. symmetry. exact Hpath.
    - apply String.eqb_eq. symmetry. exact Hpath. }
  rewrite !Generate_lookup, !fold_step_present, Hroutes. split; [reflexivity|].
  split; [|intros Hroute; right; exact Hroute].
  intros [Hnew | Hroute]; [|exact Hroute].
  cbn in Hnew. rewrite lookup_empty in Hnew. destruct Hnew as [item Hitem]. discriminate Hitem.
Qed.

End GeneratedPaths.
